(** * webgl-snow: a snowfall particle background on three.js

    A shallow embedding of the two shading programs
    ([shaders/vertex.js], [shaders/fragment.js]) and of the page script
    that builds and animates the particle systems, followed by the
    properties of the specification that were checked against them.

    Numbers.  A JavaScript Number and a GLSL float are held as
    rationals ([Q]), and equality of numbers is [Qeq] ([==]).  Where the
    script turns the result of an operation into a count, that is for
    the sizes of the two particle systems and for the value the panel
    writes to an option, the operation is the binary64 one: each operand
    and the result are rounded to the nearest binary64, ties to even.
    Everywhere else the arithmetic is exact, so sampled coordinates and
    shader outputs are those of the formulas the program writes down,
    without the rounding of binary64 and binary32; NaN, infinities and
    subnormal numbers are not rendered.

    Effects.  The page script runs against a [World]: the host page
    (viewport, DOM, random source, frame callbacks), the script's global
    variables, and the three.js objects it allocates, addressed by
    identifiers so that aliasing between a global and a scene child is
    kept.  A computation is a function from worlds to a completion (a
    value or a thrown exception) and the world it leaves behind; an
    exception does not undo the writes made before it was thrown.

    Random numbers.  [Math.random] reads a stream the host provides.
    three.js reads it too, four numbers for the [uuid] of every object
    it makes.  The reads made for a geometry and for a [Points] object
    fall between the samples of the particle systems and are part of the
    model.  Those made for the scene, the camera, the renderer, the
    textures and the materials only move the place in the stream from
    which a particle system is sampled; they are left out, and no
    property speaks of the place the stream has reached when a function
    of the script is entered.

    The source file holds two revisions of the page script: the plain one
    and the one with the Stats overlay and the dat.GUI panel.  Functions
    that differ between the two take the revision as a parameter. *)

From Stdlib Require Import QArith Qround Qminmax Qpower Qreduction Lqa ZArith Lia SpecFloat.
From stdpp Require Import gmap strings list.

Local Open Scope Q_scope.

(* ================================================================== *)
(** * Shading programs *)

Module GLSL.

(** GLSL vectors.  The components of a [vec4] are named after the
    colour swizzle ([rgba]); [a] is also the [w] of a position. *)
Record vec2 := Vec2 { s : Q; t : Q }.
Record vec3 := Vec3 { x : Q; y : Q; z : Q }.
Record vec4 := Vec4 { r : Q; g : Q; b : Q; a : Q }.

(** A [mat4] is four columns, as in GLSL: [m[c][r]] is row [r] of
    column [c]. *)
Record mat4 := Mat4 { col0 : vec4; col1 : vec4; col2 : vec4; col3 : vec4 }.

Definition vscale (k : Q) (v : vec4) : vec4 :=
  Vec4 (k * r v) (k * g v) (k * b v) (k * a v).

Definition vadd (u v : vec4) : vec4 :=
  Vec4 (r u + r v) (g u + g v) (b u + b v) (a u + a v).

(** [m * v] *)
Definition mat_vec (m : mat4) (v : vec4) : vec4 :=
  vadd (vadd (vscale (r v) (col0 m)) (vscale (g v) (col1 m)))
       (vadd (vscale (b v) (col2 m)) (vscale (a v) (col3 m))).

(** [m * n] *)
Definition mat_mat (m n : mat4) : mat4 :=
  Mat4 (mat_vec m (col0 n)) (mat_vec m (col1 n))
       (mat_vec m (col2 n)) (mat_vec m (col3 n)).

Definition vec4_of (p : vec3) (w : Q) : vec4 := Vec4 (x p) (y p) (z p) w.

(** The builtin [mod(x, y) = x - y * floor(x / y)]. *)
Definition mod_ (u v : Q) : Q := u - v * inject_Z (Qfloor (u / v)).

Definition Qltb (u v : Q) : bool := negb (Qle_bool v u).

(** A bound texture: the colour sampled at a coordinate. *)
Definition sampler2D := vec2 -> vec4.

Definition texture2D (map : sampler2D) (uv : vec2) : vec4 := map uv.

(** ** Vertex stage ([shaders/vertex.js]) *)

Definition isPerspectiveMatrix (m : mat4) : bool :=
  Qeq_bool (a (col2 m)) (- 1.0).

Record VertexOut := {
  gl_Position : vec4;
  gl_PointSize : Q;
  newPos : vec3              (* the displaced position, a local of main *)
}.

Section Vertex.

(** The builtins [sin] and [cos] come with the shading language.  The
    chunk [fog_vertex] only sets a varying read by the fog of the
    fragment stage and is left out. *)
Variables sin cos : Q -> Q.

(** Uniforms. *)
Variables uTime size rangeY : Q.
Variables projectionMatrix modelViewMatrix : mat4.

(** The compile-time flag. *)
Variable USE_SIZEATTENUATION : bool.

Definition displace (position : vec3) (velocityY amplitudeX angle : Q) : vec3 :=
  let newPos := position in
  (* Modulo Operation Function *)
  let newPos :=
    Vec3 (x newPos)
         (mod_ (y position - (uTime * - velocityY * 10.0)) rangeY - rangeY / 2.0)
         (z newPos) in
  (* Sine Type Wave Function *)
  let newPos :=
    Vec3 (x newPos + sin (uTime * angle) * cos (uTime * 2.0 * angle) * (amplitudeX * 10.0))
         (y newPos)
         (z newPos) in
  newPos.

Definition vertex_main (position : vec3) (scale velocityY amplitudeX angle : Q) : VertexOut :=
  let mvPosition := mat_vec modelViewMatrix (vec4_of position 1.0) in
  let newPos := displace position velocityY amplitudeX angle in
  let gl_Position :=
    mat_vec (mat_mat projectionMatrix modelViewMatrix) (vec4_of newPos 1.0) in
  let gl_PointSize := size in
  let gl_PointSize :=
    if USE_SIZEATTENUATION then
      let isPerspective := isPerspectiveMatrix projectionMatrix in
      if isPerspective then gl_PointSize * (scale / - b mvPosition) else gl_PointSize
    else gl_PointSize in
  {| gl_Position := gl_Position; gl_PointSize := gl_PointSize; newPos := newPos |}.

End Vertex.

(** ** Fragment stage ([shaders/fragment.js]) *)

Section Fragment.

(** The three.js chunk [fog_fragment], applied to the colour of a
    fragment that was kept. *)
Variable fog_fragment : vec4 -> vec4.

(** Uniforms. *)
Variable map : sampler2D.
Variable alphaTest : Q.

(** [None] is a discarded fragment. *)
Definition fragment_main (gl_PointCoord : vec2) : option vec4 :=
  let gl_FragColor := texture2D map gl_PointCoord in
  (* Alpha Test *)
  if Qltb (a gl_FragColor) alphaTest then None
  else Some (fog_fragment gl_FragColor).

End Fragment.

End GLSL.

(* ================================================================== *)
(** * The page script *)

Module Snow.

(** The two revisions of the script held by the source file: the plain
    page, and the page with the Stats overlay and the dat.GUI panel. *)
Inductive Revision := Plain | Panel.

(** ** Data *)

(** A colour as the script writes it: [0x0A0E10] or ['#0A0E10']. *)
Inductive ColorRep :=
| Hex (n : Z)
| Style (css : string).

(** [const options = { ... }] *)
Record Options := {
  backgroundColor : ColorRep;
  fog : bool;
  fogRange : Q;
  particleCount : Q;
  ratio : Q;
  snowSize : Q;
  spriteSize : Q;
  sizeAttenuation : bool;
  alphaTest : Q;
  cameraPositionZ : Q;
  rangeX : Q;
  rangeY : Q;
  rangeZ : Q;
  velocityY : Q;
  amplitudeX : Q;
  angleX : Q;
  snowSpritePath : string;
  spritePath : string
}.

Definition default_options (v : Revision) : Options := {|
  backgroundColor :=
    match v with Plain => Hex 0x0A0E10 | Panel => Style "#0A0E10" end;
  fog := true;
  fogRange := 80;
  particleCount := 2000;
  ratio := 0.05;
  snowSize := 2;
  spriteSize := 3;
  sizeAttenuation := true;
  alphaTest := 0.85;
  cameraPositionZ := 100;
  rangeX := 400;
  rangeY := 400;
  rangeZ := 100;
  velocityY := 2;
  amplitudeX := 4;
  angleX := 0;
  snowSpritePath := "./textures/snow.png";
  spritePath := "./textures/OCTad_Xmas.png"
|}.

(** *** three.js objects *)

(** [THREE.BufferAttribute]: a typed array, its item size, the item
    count computed when it is built, and the version that
    [needsUpdate = true] bumps. *)
Record BufferAttribute := {
  array : list Q;
  itemSize : Q;
  count : Q;
  version : nat
}.

(** [THREE.BufferGeometry]: named attributes. *)
Record BufferGeometry := {
  attributes : gmap string BufferAttribute
}.

Record Texture := {
  path : string;
  flipY : bool
}.

Inductive Program := vertexShader | fragmentShader.

(** The uniforms the script declares (those merged from
    [THREE.UniformsLib['fog']] belong to three.js). *)
Record Uniforms := {
  u_uTime : Q;
  u_size : Q;
  u_rangeY : Q;
  u_map : option Texture;
  u_alphaTest : Q
}.

Record ShaderMaterial := {
  uniforms : Uniforms;
  USE_SIZEATTENUATION : bool;
  m_vertexShader : Program;
  m_fragmentShader : Program;
  transparent : bool;
  m_fog : bool
}.

(** [THREE.Points]: an object of the scene graph, referring to its
    geometry and material. *)
Record Points := {
  id : nat;
  geometry : nat;
  material : nat
}.

Record Fog := {
  fog_color : ColorRep;
  fog_near : Q;
  fog_far : Q
}.

Record Scene := {
  background : option ColorRep;
  scene_fog : option Fog;
  children : list Points
}.

(** [THREE.PerspectiveCamera].  The projection matrix is kept as the
    parameters it was last computed from. *)
Record Camera := {
  fov : Q;
  aspect : Q;
  near : Q;
  far : Q;
  position_z : Q;
  projectionMatrix : Q * Q * Q * Q
}.

Record WebGLRenderer := {
  antialias : bool;
  width : Q;
  height : Q;
  pixelRatio : Q;
  frames : nat                 (* calls of [render] so far *)
}.

(** *** The host page *)

Inductive Element :=
| WebGLErrorMessage            (* WebGL.getWebGLErrorMessage() *)
| Canvas                       (* renderer.domElement *)
| StatsDom.                    (* stats.dom *)

Inductive Handler := Tick | OnWindowResize.

(** dat.GUI controllers, as [createGUI] registers them. *)
Inductive Callback :=
| BackgroundColorChanged
| FogChanged
| FogRangeChanged
| CameraZChanged
| RemakeSystem
| UpdateSprite.

Inductive Trigger := OnChange | OnFinishChange.

Record Controller := {
  folder : string;
  property : string;
  label : option string;
  bounds : option (Q * Q);
  step : option Q;
  trigger : Trigger;
  callback : Callback
}.

(** What the browser provides: the capability answer, the viewport,
    the stream [Math.random] draws from and how far it has been read,
    the reading of the clock, the elements reachable by id and the
    children of each, the body, and the callbacks registered so far. *)
Record Host := {
  isWebGLAvailable : bool;
  visualViewport : Q * Q;
  devicePixelRatio : Q;
  random : nat -> Q;
  drawn : nat;
  elapsed : Q;
  byId : gmap string (list Element);
  body : list Element;
  resizeListeners : list Handler;
  frameRequests : list Handler;
  console : list Options
}.

(** The script's [var]s.  The numeric ones are read only after the
    start-up branch has assigned them.  In the plain revision the two
    textures and the two materials are constants of [render], which the
    update loop keeps referring to; they are held in the same fields. *)
Record Globals := {
  windowWidth : Q;
  windowHeight : Q;
  windowAspectRatio : Q;
  scale : Q;
  scene : option Scene;
  camera : option Camera;
  renderer : option WebGLRenderer;
  stats : option nat;
  snowSprite : option Texture;
  sprite : option Texture;
  snowMat : option nat;
  spriteMat : option nat;
  gui : list Controller
}.

(** A call the script makes on the scene graph or on an object of it. *)
Inductive Call :=
| Added (object : Points)            (* scene.add(object) *)
| Removed (object : Points)          (* scene.remove(object) *)
| GeometryDisposed (geo : nat)       (* geometry.dispose() *)
| MaterialDisposed (mat : nat).      (* material.dispose() *)

(** The three.js objects allocated so far, those on which [dispose()]
    has been called, most recent first, and the calls made so far on
    the scene graph and its objects, in the order they were made. *)
Record Heap := {
  nextId : nat;
  geometries : gmap nat BufferGeometry;
  materials : gmap nat ShaderMaterial;
  disposedGeometries : list nat;
  disposedMaterials : list nat;
  calls : list Call
}.

Record World := {
  options : Options;
  host : Host;
  globals : Globals;
  heap : Heap
}.

(** Field updates. *)

Definition set_visualViewport (v : Q * Q) (h : Host) : Host :=
  {| isWebGLAvailable := isWebGLAvailable h; visualViewport := v;
     devicePixelRatio := devicePixelRatio h; random := random h;
     drawn := drawn h; elapsed := elapsed h; byId := byId h;
     body := body h; resizeListeners := resizeListeners h;
     frameRequests := frameRequests h; console := console h |}.

Definition set_drawn (v : nat) (h : Host) : Host :=
  {| isWebGLAvailable := isWebGLAvailable h;
     visualViewport := visualViewport h;
     devicePixelRatio := devicePixelRatio h; random := random h;
     drawn := v; elapsed := elapsed h; byId := byId h; body := body h;
     resizeListeners := resizeListeners h;
     frameRequests := frameRequests h; console := console h |}.

Definition set_elapsed (v : Q) (h : Host) : Host :=
  {| isWebGLAvailable := isWebGLAvailable h;
     visualViewport := visualViewport h;
     devicePixelRatio := devicePixelRatio h; random := random h;
     drawn := drawn h; elapsed := v; byId := byId h; body := body h;
     resizeListeners := resizeListeners h;
     frameRequests := frameRequests h; console := console h |}.

Definition set_byId (v : gmap string (list Element)) (h : Host) : Host :=
  {| isWebGLAvailable := isWebGLAvailable h;
     visualViewport := visualViewport h;
     devicePixelRatio := devicePixelRatio h; random := random h;
     drawn := drawn h; elapsed := elapsed h; byId := v; body := body h;
     resizeListeners := resizeListeners h;
     frameRequests := frameRequests h; console := console h |}.

Definition set_body (v : list Element) (h : Host) : Host :=
  {| isWebGLAvailable := isWebGLAvailable h;
     visualViewport := visualViewport h;
     devicePixelRatio := devicePixelRatio h; random := random h;
     drawn := drawn h; elapsed := elapsed h; byId := byId h; body := v;
     resizeListeners := resizeListeners h;
     frameRequests := frameRequests h; console := console h |}.

Definition set_resizeListeners (v : list Handler) (h : Host) : Host :=
  {| isWebGLAvailable := isWebGLAvailable h;
     visualViewport := visualViewport h;
     devicePixelRatio := devicePixelRatio h; random := random h;
     drawn := drawn h; elapsed := elapsed h; byId := byId h;
     body := body h; resizeListeners := v;
     frameRequests := frameRequests h; console := console h |}.

Definition set_frameRequests (v : list Handler) (h : Host) : Host :=
  {| isWebGLAvailable := isWebGLAvailable h;
     visualViewport := visualViewport h;
     devicePixelRatio := devicePixelRatio h; random := random h;
     drawn := drawn h; elapsed := elapsed h; byId := byId h;
     body := body h; resizeListeners := resizeListeners h;
     frameRequests := v; console := console h |}.

Definition set_console (v : list Options) (h : Host) : Host :=
  {| isWebGLAvailable := isWebGLAvailable h;
     visualViewport := visualViewport h;
     devicePixelRatio := devicePixelRatio h; random := random h;
     drawn := drawn h; elapsed := elapsed h; byId := byId h;
     body := body h; resizeListeners := resizeListeners h;
     frameRequests := frameRequests h; console := v |}.

Definition set_windowWidth (v : Q) (g : Globals) : Globals :=
  {| windowWidth := v; windowHeight := windowHeight g;
     windowAspectRatio := windowAspectRatio g; scale := scale g;
     scene := scene g; camera := camera g; renderer := renderer g;
     stats := stats g; snowSprite := snowSprite g; sprite := sprite g;
     snowMat := snowMat g; spriteMat := spriteMat g; gui := gui g |}.

Definition set_windowHeight (v : Q) (g : Globals) : Globals :=
  {| windowWidth := windowWidth g; windowHeight := v;
     windowAspectRatio := windowAspectRatio g; scale := scale g;
     scene := scene g; camera := camera g; renderer := renderer g;
     stats := stats g; snowSprite := snowSprite g; sprite := sprite g;
     snowMat := snowMat g; spriteMat := spriteMat g; gui := gui g |}.

Definition set_windowAspectRatio (v : Q) (g : Globals) : Globals :=
  {| windowWidth := windowWidth g; windowHeight := windowHeight g;
     windowAspectRatio := v; scale := scale g; scene := scene g;
     camera := camera g; renderer := renderer g; stats := stats g;
     snowSprite := snowSprite g; sprite := sprite g; snowMat := snowMat g;
     spriteMat := spriteMat g; gui := gui g |}.

Definition set_scale (v : Q) (g : Globals) : Globals :=
  {| windowWidth := windowWidth g; windowHeight := windowHeight g;
     windowAspectRatio := windowAspectRatio g; scale := v;
     scene := scene g; camera := camera g; renderer := renderer g;
     stats := stats g; snowSprite := snowSprite g; sprite := sprite g;
     snowMat := snowMat g; spriteMat := spriteMat g; gui := gui g |}.

Definition set_scene (v : option Scene) (g : Globals) : Globals :=
  {| windowWidth := windowWidth g; windowHeight := windowHeight g;
     windowAspectRatio := windowAspectRatio g; scale := scale g;
     scene := v; camera := camera g; renderer := renderer g;
     stats := stats g; snowSprite := snowSprite g; sprite := sprite g;
     snowMat := snowMat g; spriteMat := spriteMat g; gui := gui g |}.

Definition set_camera (v : option Camera) (g : Globals) : Globals :=
  {| windowWidth := windowWidth g; windowHeight := windowHeight g;
     windowAspectRatio := windowAspectRatio g; scale := scale g;
     scene := scene g; camera := v; renderer := renderer g;
     stats := stats g; snowSprite := snowSprite g; sprite := sprite g;
     snowMat := snowMat g; spriteMat := spriteMat g; gui := gui g |}.

Definition set_renderer (v : option WebGLRenderer) (g : Globals) : Globals :=
  {| windowWidth := windowWidth g; windowHeight := windowHeight g;
     windowAspectRatio := windowAspectRatio g; scale := scale g;
     scene := scene g; camera := camera g; renderer := v; stats := stats g;
     snowSprite := snowSprite g; sprite := sprite g; snowMat := snowMat g;
     spriteMat := spriteMat g; gui := gui g |}.

Definition set_stats (v : option nat) (g : Globals) : Globals :=
  {| windowWidth := windowWidth g; windowHeight := windowHeight g;
     windowAspectRatio := windowAspectRatio g; scale := scale g;
     scene := scene g; camera := camera g; renderer := renderer g;
     stats := v; snowSprite := snowSprite g; sprite := sprite g;
     snowMat := snowMat g; spriteMat := spriteMat g; gui := gui g |}.

Definition set_snowSprite (v : option Texture) (g : Globals) : Globals :=
  {| windowWidth := windowWidth g; windowHeight := windowHeight g;
     windowAspectRatio := windowAspectRatio g; scale := scale g;
     scene := scene g; camera := camera g; renderer := renderer g;
     stats := stats g; snowSprite := v; sprite := sprite g;
     snowMat := snowMat g; spriteMat := spriteMat g; gui := gui g |}.

Definition set_sprite (v : option Texture) (g : Globals) : Globals :=
  {| windowWidth := windowWidth g; windowHeight := windowHeight g;
     windowAspectRatio := windowAspectRatio g; scale := scale g;
     scene := scene g; camera := camera g; renderer := renderer g;
     stats := stats g; snowSprite := snowSprite g; sprite := v;
     snowMat := snowMat g; spriteMat := spriteMat g; gui := gui g |}.

Definition set_snowMat (v : option nat) (g : Globals) : Globals :=
  {| windowWidth := windowWidth g; windowHeight := windowHeight g;
     windowAspectRatio := windowAspectRatio g; scale := scale g;
     scene := scene g; camera := camera g; renderer := renderer g;
     stats := stats g; snowSprite := snowSprite g; sprite := sprite g;
     snowMat := v; spriteMat := spriteMat g; gui := gui g |}.

Definition set_spriteMat (v : option nat) (g : Globals) : Globals :=
  {| windowWidth := windowWidth g; windowHeight := windowHeight g;
     windowAspectRatio := windowAspectRatio g; scale := scale g;
     scene := scene g; camera := camera g; renderer := renderer g;
     stats := stats g; snowSprite := snowSprite g; sprite := sprite g;
     snowMat := snowMat g; spriteMat := v; gui := gui g |}.

Definition set_gui (v : list Controller) (g : Globals) : Globals :=
  {| windowWidth := windowWidth g; windowHeight := windowHeight g;
     windowAspectRatio := windowAspectRatio g; scale := scale g;
     scene := scene g; camera := camera g; renderer := renderer g;
     stats := stats g; snowSprite := snowSprite g; sprite := sprite g;
     snowMat := snowMat g; spriteMat := spriteMat g; gui := v |}.

Definition set_nextId (v : nat) (h : Heap) : Heap :=
  {| nextId := v; geometries := geometries h; materials := materials h;
     disposedGeometries := disposedGeometries h;
     disposedMaterials := disposedMaterials h; calls := calls h |}.

Definition set_geometries (v : gmap nat BufferGeometry) (h : Heap) : Heap :=
  {| nextId := nextId h; geometries := v; materials := materials h;
     disposedGeometries := disposedGeometries h;
     disposedMaterials := disposedMaterials h; calls := calls h |}.

Definition set_materials (v : gmap nat ShaderMaterial) (h : Heap) : Heap :=
  {| nextId := nextId h; geometries := geometries h; materials := v;
     disposedGeometries := disposedGeometries h;
     disposedMaterials := disposedMaterials h; calls := calls h |}.

Definition set_disposedGeometries (v : list nat) (h : Heap) : Heap :=
  {| nextId := nextId h; geometries := geometries h;
     materials := materials h; disposedGeometries := v;
     disposedMaterials := disposedMaterials h; calls := calls h |}.

Definition set_disposedMaterials (v : list nat) (h : Heap) : Heap :=
  {| nextId := nextId h; geometries := geometries h;
     materials := materials h; disposedGeometries := disposedGeometries h;
     disposedMaterials := v; calls := calls h |}.

Definition set_calls (v : list Call) (h : Heap) : Heap :=
  {| nextId := nextId h; geometries := geometries h;
     materials := materials h; disposedGeometries := disposedGeometries h;
     disposedMaterials := disposedMaterials h; calls := v |}.

Definition set_options (v : Options) (w : World) : World :=
  {| options := v; host := host w; globals := globals w; heap := heap w |}.

Definition set_host (v : Host) (w : World) : World :=
  {| options := options w; host := v; globals := globals w;
     heap := heap w |}.

Definition set_globals (v : Globals) (w : World) : World :=
  {| options := options w; host := host w; globals := v; heap := heap w |}.

Definition set_heap (v : Heap) (w : World) : World :=
  {| options := options w; host := host w; globals := globals w;
     heap := v |}.

(** Updates of one part of the world. *)
Definition upd_host (f : Host -> Host) (w : World) : World :=
  set_host (f (host w)) w.

Definition upd_globals (f : Globals -> Globals) (w : World) : World :=
  set_globals (f (globals w)) w.

Definition upd_heap (f : Heap -> Heap) (w : World) : World :=
  set_heap (f (heap w)) w.

(** ** Computations *)

(** What a statement can throw.  [OutOfFuel] is not a JavaScript
    exception: it marks a [while] loop stopped by its iteration bound. *)
Inductive Exn := RangeError | TypeError | OutOfFuel.

Inductive Completion (A : Type) :=
| Normal (a : A)
| Throw (e : Exn).

Arguments Normal {A} a.
Arguments Throw {A} e.

Definition M (A : Type) : Type := World -> Completion A * World.

#[global] Instance M_ret : MRet M := fun A a w => (Normal a, w).

#[global] Instance M_bind : MBind M := fun A B f c w =>
  match c w with
  | (Normal a, w') => f a w'
  | (Throw e, w') => (Throw e, w')
  end.

Definition throw {A} (e : Exn) : M A := fun w => (Throw e, w).

Definition gets {A} (f : World -> A) : M A := fun w => (Normal (f w), w).

Definition modify (f : World -> World) : M unit := fun w => (Normal tt, f w).

(** Reading a property of [undefined] or [null] throws a TypeError. *)
Definition defined {A} (o : option A) : M A :=
  match o with
  | Some a => mret a
  | None => throw TypeError
  end.

(** A loop over a known sequence, threading the locals it updates. *)
Fixpoint foldM {A S} (body : A -> S -> M S) (l : list A) (s : S) : M S :=
  match l with
  | [] => mret s
  | i :: l' => s' ← body i s; foldM body l' s'
  end.

Definition forM {A} (body : A -> M unit) (l : list A) : M unit :=
  foldM (fun i _ => body i) l tt.

(** [while (cond) body], stopped after [fuel] iterations. *)
Fixpoint while (fuel : nat) (cond : M bool) (body : M unit) : M unit :=
  c ← cond;
  if c : bool then
    match fuel with
    | O => throw OutOfFuel
    | S fuel' => body;; while fuel' cond body
    end
  else mret tt.

(** ** The JavaScript and three.js functions the script calls *)

(** [Math.random()]: the next number of the stream. *)
Definition Math_random : M Q := fun w =>
  (Normal (random (host w) (drawn (host w))),
   upd_host (fun h => set_drawn (S (drawn h)) h) w).

(** Four reads of the stream, whatever they yield: what
    [THREE.MathUtils.generateUUID] takes from [Math.random] for the
    [uuid] of a new object. *)
Definition generateUUID : M unit :=
  _ ← Math_random; _ ← Math_random; _ ← Math_random; _ ← Math_random; mret tt.

(** [Math.round]: the nearest integer, a half going up. *)
Definition Math_round (u : Q) : Q := inject_Z (Qfloor (u + 0.5)).

(** The integer nearest to [u], a half going to the even one. *)
Definition round_half_even (u : Q) : Z :=
  let f := Qfloor u in
  match Qcompare (u - inject_Z f) (1 # 2) with
  | Lt => f
  | Gt => (f + 1)%Z
  | Eq => if Z.even f then f else (f + 1)%Z
  end.

(** The exponent of the binary64 numbers around [n / d]: the [e] with
    [2^52 <= (n / d) / 2^e < 2^53]. *)
Definition grid (n d : positive) : Z :=
  let e := (Z.log2 (Z.pos n) - Z.log2 (Z.pos d) - 52)%Z in
  if Qle_bool (2 ^ (e + 52)) (Z.pos n # d) then e else (e - 1)%Z.

(** The multiple of [2^e] nearest to [n / d], for that [e]. *)
Definition nearest (n d : positive) : Q :=
  let e := grid n d in
  inject_Z (round_half_even ((Z.pos n # d) / 2 ^ e)) * 2 ^ e.

(** The binary64 nearest to a number, ties to even: 53 significant
    bits, the exponent taken as unbounded. *)
Definition binary64 (u : Q) : Q :=
  match Qred u with
  | Z0 # _ => 0
  | Z.pos n # d => nearest n d
  | Z.neg n # d => - nearest n d
  end.

(** [u * v], [u - v] and [u / v] on Numbers, the divisor being other
    than zero. *)
Definition Number_mul (u v : Q) : Q := binary64 (binary64 u * binary64 v).

Definition Number_sub (u v : Q) : Q := binary64 (binary64 u - binary64 v).

Definition Number_div (u v : Q) : Q := binary64 (binary64 u / binary64 v).

(** The number a finite binary64 of the Standard Library stands for,
    and the binary64 that library computes for the quotient of two
    integers; they serve to compare [binary64] with that rendering of
    IEEE 754. *)
Definition SF2Q (f : spec_float) : Q :=
  match f with
  | S754_finite s m e => (if s then - (1) else 1) * inject_Z (Z.pos m) * 2 ^ e
  | _ => 0
  end.

Definition SFquotient (n d : Z) : spec_float :=
  SFdiv 53 1024 (binary_normalize 53 1024 n 0 false) (binary_normalize 53 1024 d 0 false).

(** [u % v !== 0] on Numbers, for a [v] other than zero: the remainder
    is computed without rounding, so it is zero when [u] is a whole
    multiple of [v]. *)
Definition has_remainder (u v : Q) : bool :=
  let q := binary64 u / binary64 v in
  negb (Qeq_bool q (inject_Z (Qfloor q))).

(** [Math.min] and [Math.max] of two numbers. *)
Definition Math_min (u v : Q) : Q := Qmin u v.

Definition Math_max (u v : Q) : Q := Qmax u v.

(** [THREE.MathUtils.randFloat]: [low + Math.random() * (high - low)]. *)
Definition randFloat (low high : Q) : M Q :=
  u ← Math_random; mret (low + u * (high - low)).

(** [THREE.MathUtils.randFloatSpread]: [range * (0.5 - Math.random())]. *)
Definition randFloatSpread (range : Q) : M Q :=
  u ← Math_random; mret (range * (0.5 - u)).

(** The integer part, towards zero. *)
Definition Qtruncate (u : Q) : Z :=
  if Qle_bool 0 u then Qfloor u else Qceiling u.

(** The length conversion of a typed-array constructor: the argument is
    truncated, and a negative length is a RangeError.  Allocation itself
    is taken to succeed. *)
Definition ToIndex (len : Q) : M nat :=
  let n := Qtruncate len in
  if (n <? 0)%Z then throw RangeError else mret (Z.to_nat n).

(** [new Float32Array(len)] *)
Definition Float32Array (len : Q) : M (list Q) :=
  n ← ToIndex len; mret (repeat 0 n).

(** [typedArray.fill(value)] *)
Definition fill (arr : list Q) (value : Q) : list Q :=
  List.map (fun _ => value) arr.

(** [array.push(value)] *)
Definition push (arr : list Q) (value : Q) : list Q := arr ++ [value].

(** [new THREE.Float32BufferAttribute(array, itemSize)] *)
Definition Float32BufferAttribute (arr : list Q) (n : Q) : BufferAttribute :=
  {| array := arr; itemSize := n;
     count := inject_Z (Z.of_nat (length arr)) / n; version := 0%nat |}.

(** Every three.js object gets an identifier of its own. *)
Definition fresh : M nat := fun w =>
  (Normal (nextId (heap w)), upd_heap (fun h => set_nextId (S (nextId h)) h) w).

(** [new THREE.BufferGeometry()] *)
Definition new_BufferGeometry : M nat :=
  i ← fresh;
  generateUUID;;
  modify (upd_heap (fun h =>
    set_geometries (<[i := {| attributes := ∅ |}]> (geometries h)) h));;
  mret i.

(** The geometry an identifier refers to. *)
Definition the_geometry (geo : nat) : M BufferGeometry :=
  g ← gets (fun w => geometries (heap w) !! geo); defined g.

(** [geometry.setAttribute(name, attribute)] *)
Definition setAttribute (geo : nat) (name : string) (attr : BufferAttribute) : M unit :=
  g ← the_geometry geo;
  modify (upd_heap (fun h =>
    set_geometries
      (<[geo := {| attributes := <[name := attr]> (attributes g) |}]> (geometries h)) h)).

(** [geometry.getAttribute(name)] *)
Definition getAttribute (geo : nat) (name : string) : M (option BufferAttribute) :=
  g ← the_geometry geo; mret (attributes g !! name).

(** [geometry.attributes[name].needsUpdate = true] *)
Definition needsUpdate (geo : nat) (name : string) : M unit :=
  o ← getAttribute geo name;
  attr ← defined o;
  setAttribute geo name
    {| array := array attr; itemSize := itemSize attr; count := count attr;
       version := S (version attr) |}.

(** The call is noted down. *)
Definition called (c : Call) : M unit :=
  modify (upd_heap (fun h => set_calls (calls h ++ [c]) h)).

(** [geometry.dispose()] *)
Definition geometry_dispose (geo : nat) : M unit :=
  modify (upd_heap (fun h => set_disposedGeometries (geo :: disposedGeometries h) h));;
  called (GeometryDisposed geo).

(** [material.dispose()] *)
Definition material_dispose (mat : nat) : M unit :=
  modify (upd_heap (fun h => set_disposedMaterials (mat :: disposedMaterials h) h));;
  called (MaterialDisposed mat).

(** [new THREE.Points(geometry, material)] *)
Definition new_Points (geo mat : nat) : M Points :=
  i ← fresh;
  generateUUID;;
  mret {| id := i; geometry := geo; material := mat |}.

(** The material an identifier refers to. *)
Definition the_material (mat : nat) : M ShaderMaterial :=
  m ← gets (fun w => materials (heap w) !! mat); defined m.

(** [material.uniforms.name.value = ...] *)
Definition update_uniforms (mat : nat) (f : Uniforms -> Uniforms) : M unit :=
  m ← the_material mat;
  modify (upd_heap (fun h =>
    set_materials
      (<[mat := {| uniforms := f (uniforms m);
                   USE_SIZEATTENUATION := USE_SIZEATTENUATION m;
                   m_vertexShader := m_vertexShader m;
                   m_fragmentShader := m_fragmentShader m;
                   transparent := transparent m;
                   m_fog := m_fog m |}]> (materials h)) h)).

Definition with_uTime (v : Q) (u : Uniforms) : Uniforms :=
  {| u_uTime := v; u_size := u_size u; u_rangeY := u_rangeY u;
     u_map := u_map u; u_alphaTest := u_alphaTest u |}.

Definition with_rangeY (v : Q) (u : Uniforms) : Uniforms :=
  {| u_uTime := u_uTime u; u_size := u_size u; u_rangeY := v;
     u_map := u_map u; u_alphaTest := u_alphaTest u |}.

(** The global [scene]; reading a property of it throws when it is
    undefined.  Likewise [camera] and [renderer] below. *)
Definition the_scene : M Scene :=
  s ← gets (fun w => scene (globals w)); defined s.

Definition update_scene (f : Scene -> Scene) : M unit :=
  s ← the_scene; modify (upd_globals (set_scene (Some (f s)))).

Definition with_children (l : list Points) (s : Scene) : Scene :=
  {| background := background s; scene_fog := scene_fog s; children := l |}.

Definition with_background (c : ColorRep) (s : Scene) : Scene :=
  {| background := Some c; scene_fog := scene_fog s; children := children s |}.

Definition with_fog (f : option Fog) (s : Scene) : Scene :=
  {| background := background s; scene_fog := f; children := children s |}.

(** [new THREE.Fog(color, near, far)] *)
Definition new_Fog (c : ColorRep) (n f : Q) : Fog :=
  {| fog_color := c; fog_near := n; fog_far := f |}.

(** Objects are compared by identity. *)
Fixpoint remove_first (object : Points) (l : list Points) : list Points :=
  match l with
  | [] => []
  | p :: l' => if Nat.eqb (id p) (id object) then l' else p :: remove_first object l'
  end.

(** [scene.add(object)]: an object already in the scene is taken out of
    it first. *)
Definition scene_add (object : Points) : M unit :=
  update_scene (fun s => with_children (remove_first object (children s) ++ [object]) s);;
  called (Added object).

(** [scene.remove(object)] *)
Definition scene_remove (object : Points) : M unit :=
  update_scene (fun s => with_children (remove_first object (children s)) s);;
  called (Removed object).

Definition the_camera : M Camera :=
  c ← gets (fun w => camera (globals w)); defined c.

Definition update_camera (f : Camera -> Camera) : M unit :=
  c ← the_camera; modify (upd_globals (set_camera (Some (f c)))).

Definition with_position_z (v : Q) (c : Camera) : Camera :=
  {| fov := fov c; aspect := aspect c; near := near c; far := far c;
     position_z := v; projectionMatrix := projectionMatrix c |}.

Definition with_aspect (v : Q) (c : Camera) : Camera :=
  {| fov := fov c; aspect := v; near := near c; far := far c;
     position_z := position_z c; projectionMatrix := projectionMatrix c |}.

(** [camera.updateProjectionMatrix()] *)
Definition updateProjectionMatrix (c : Camera) : Camera :=
  {| fov := fov c; aspect := aspect c; near := near c; far := far c;
     position_z := position_z c;
     projectionMatrix := (fov c, aspect c, near c, far c) |}.

(** [new THREE.PerspectiveCamera(fov, aspect, near, far)] *)
Definition new_PerspectiveCamera (f a n fr : Q) : Camera :=
  updateProjectionMatrix
    {| fov := f; aspect := a; near := n; far := fr; position_z := 0;
       projectionMatrix := (f, a, n, fr) |}.

Definition the_renderer : M WebGLRenderer :=
  r ← gets (fun w => renderer (globals w)); defined r.

Definition update_renderer (f : WebGLRenderer -> WebGLRenderer) : M unit :=
  r ← the_renderer; modify (upd_globals (set_renderer (Some (f r)))).

(** [renderer.setSize(width, height)] *)
Definition setSize (wd ht : Q) (r : WebGLRenderer) : WebGLRenderer :=
  {| antialias := antialias r; width := wd; height := ht;
     pixelRatio := pixelRatio r; frames := frames r |}.

(** [renderer.setPixelRatio(value)] *)
Definition setPixelRatio (v : Q) (r : WebGLRenderer) : WebGLRenderer :=
  {| antialias := antialias r; width := width r; height := height r;
     pixelRatio := v; frames := frames r |}.

(** [renderer.render(scene, camera)] *)
Definition renderer_render : M unit :=
  _ ← the_scene;
  _ ← the_camera;
  update_renderer (fun r =>
    {| antialias := antialias r; width := width r; height := height r;
       pixelRatio := pixelRatio r; frames := S (frames r) |}).

(** [new THREE.TextureLoader().load(path)] *)
Definition TextureLoader_load (p : string) : Texture :=
  {| path := p; flipY := true |}.

Definition with_flipY (v : bool) (tx : Texture) : Texture :=
  {| path := path tx; flipY := v |}.

(** [document.body.appendChild(element)] *)
Definition body_appendChild (e : Element) : M unit :=
  modify (upd_host (fun h => set_body (body h ++ [e]) h)).

(** [document.getElementById(name).appendChild(element)] *)
Definition byId_appendChild (name : string) (e : Element) : M unit :=
  o ← gets (fun w => byId (host w) !! name);
  kids ← defined o;
  modify (upd_host (fun h => set_byId (<[name := kids ++ [e]]> (byId h)) h)).

(** [window.addEventListener('resize', handler)] *)
Definition addEventListener_resize (hd : Handler) : M unit :=
  modify (upd_host (fun h => set_resizeListeners (resizeListeners h ++ [hd]) h)).

(** [requestAnimationFrame(handler)] *)
Definition requestAnimationFrame (hd : Handler) : M unit :=
  modify (upd_host (fun h => set_frameRequests (frameRequests h ++ [hd]) h)).

(** [console.table(options)] *)
Definition console_table : M unit :=
  modify (fun w => upd_host (fun h => set_console (console h ++ [options w]) h) w).

(** [stats.update()] *)
Definition stats_update : M unit :=
  o ← gets (fun w => stats (globals w));
  n ← defined o;
  modify (upd_globals (set_stats (Some (S n)))).

(** ** The script *)

(** The arrays [newParticleSystem] fills. *)
Record Locals := {
  l_position : list Q;
  l_velocityY : list Q;
  l_amplitudeX : list Q;
  l_angle : list Q
}.

(** One turn of the outer loop of [newParticleSystem]. *)
Definition particle (o : Options) (i : nat) (l : Locals) : M Locals :=
  let posOptions := [rangeX o; rangeY o; rangeZ o] in
  (* Generate random positions based on range defined *)
  position ← foldM (fun range position =>
                      p ← randFloatSpread range; mret (push position p))
                   posOptions (l_position l);
  (* Generate random velocities based on range defined *)
  vY ← randFloat (- velocityY o - 1) (Math_min (- velocityY o + 1) 0);
  aX ← randFloat (Math_max (amplitudeX o - 1) 0) (amplitudeX o + 1);
  a ← randFloat (angleX o - 0.1) (angleX o + 0.1);
  mret {| l_position := position;
          l_velocityY := push (l_velocityY l) vY;
          l_amplitudeX := push (l_amplitudeX l) aX;
          l_angle := push (l_angle l) a |}.

(** The values of [i] for which [i < particleCount] holds, from 0. *)
Definition turns (particleCount : Q) : list nat :=
  seq 0 (Z.to_nat (Qceiling particleCount)).

Definition newParticleSystem (v : Revision) (material : nat) (particleCount : Q) : M Points :=
  bufferGeometry ← new_BufferGeometry;
  arr ← Float32Array particleCount;
  sc ← gets (fun w => scale (globals w));
  let scales := fill arr sc in
  o ← gets options;
  l ← foldM (particle o) (turns particleCount)
        {| l_position := []; l_velocityY := []; l_amplitudeX := []; l_angle := [] |};
  setAttribute bufferGeometry "position" (Float32BufferAttribute (l_position l) 3);;
  setAttribute bufferGeometry "scale" (Float32BufferAttribute scales 1);;
  match v with
  | Plain =>
      setAttribute bufferGeometry "amplitudeX" (Float32BufferAttribute (l_amplitudeX l) 1);;
      setAttribute bufferGeometry "velocityY" (Float32BufferAttribute (l_velocityY l) 1);;
      setAttribute bufferGeometry "angle" (Float32BufferAttribute (l_angle l) 1);;
      needsUpdate bufferGeometry "scale"
  | Panel =>
      setAttribute bufferGeometry "velocityY" (Float32BufferAttribute (l_velocityY l) 1);;
      setAttribute bufferGeometry "amplitudeX" (Float32BufferAttribute (l_amplitudeX l) 1);;
      setAttribute bufferGeometry "angle" (Float32BufferAttribute (l_angle l) 1)
  end;;
  new_Points bufferGeometry material.

Definition newParticleMaterial (size : Q) (sprite : option Texture) : M nat :=
  o ← gets options;
  i ← fresh;
  modify (upd_heap (fun h =>
    set_materials
      (<[i := {| uniforms := {| u_uTime := 0; u_size := size;
                                u_rangeY := rangeY o; u_map := sprite;
                                u_alphaTest := alphaTest o |};
                 USE_SIZEATTENUATION := sizeAttenuation o;
                 m_vertexShader := vertexShader;
                 m_fragmentShader := fragmentShader;
                 transparent := true;
                 m_fog := fog o |}]> (materials h)) h));;
  mret i.

(** The update loop: one call per display frame. *)
Definition tick (v : Revision) : M unit :=
  match v with Panel => stats_update | Plain => mret tt end;;
  time ← gets (fun w => elapsed (host w));
  o ← gets (fun w => snowMat (globals w));
  m ← defined o;
  update_uniforms m (with_uTime time);;
  o ← gets (fun w => spriteMat (globals w));
  m ← defined o;
  update_uniforms m (with_uTime time);;
  requestAnimationFrame Tick;;
  renderer_render.

(** Create and animate mesh/particle geometry and materials. *)
Definition render (v : Revision) : M unit :=
  o ← gets options;
  (* Environment and Camera Settings *)
  update_scene (with_background (backgroundColor o));;
  (if fog o then
     update_scene (with_fog (Some (new_Fog (backgroundColor o) (fogRange o) (fogRange o * 2))))
   else mret tt);;
  update_camera (with_position_z (cameraPositionZ o));;
  (* Load Sprite Textures *)
  modify (upd_globals (set_snowSprite (Some (TextureLoader_load (snowSpritePath o)))));;
  modify (upd_globals (set_sprite (Some (TextureLoader_load (spritePath o)))));;
  modify (upd_globals (fun g => set_snowSprite (with_flipY false <$> snowSprite g) g));;
  modify (upd_globals (fun g => set_sprite (with_flipY false <$> sprite g) g));;
  (* Create Materials *)
  tx ← gets (fun w => snowSprite (globals w));
  m ← newParticleMaterial (snowSize o) tx;
  modify (upd_globals (set_snowMat (Some m)));;
  tx ← gets (fun w => sprite (globals w));
  m ← newParticleMaterial (spriteSize o) tx;
  modify (upd_globals (set_spriteMat (Some m)));;
  (* Create Particle Systems *)
  m ← gets (fun w => snowMat (globals w));
  m ← defined m;
  snowParticleSystem ←
    newParticleSystem v m
      (Math_round (Number_mul (particleCount o) (Number_sub 1.0 (ratio o))));
  m ← gets (fun w => spriteMat (globals w));
  m ← defined m;
  spriteParticleSystem ←
    newParticleSystem v m (Math_round (Number_mul (particleCount o) (ratio o)));
  (* Add to Render Scene *)
  scene_add snowParticleSystem;;
  scene_add spriteParticleSystem;;
  tick v.

(** The controllers [createGUI] adds, folder by folder. *)
Definition controllers (o : Options) : list Controller :=
  [ {| folder := "Scene"; property := "backgroundColor"; label := None;
       bounds := None; step := None;
       trigger := OnFinishChange; callback := BackgroundColorChanged |};
    {| folder := "Scene"; property := "fog"; label := None;
       bounds := None; step := None;
       trigger := OnFinishChange; callback := FogChanged |};
    {| folder := "Scene"; property := "fogRange"; label := None;
       bounds := Some (0, 1000); step := None;
       trigger := OnChange; callback := FogRangeChanged |};
    {| folder := "Camera"; property := "cameraPositionZ"; label := Some "Z";
       bounds := Some (0, rangeZ o * 5); step := None;
       trigger := OnChange; callback := CameraZChanged |};
    {| folder := "Simulation"; property := "particleCount"; label := None;
       bounds := Some (1, 1000000); step := Some 1000;
       trigger := OnFinishChange; callback := RemakeSystem |};
    {| folder := "Simulation"; property := "rangeX"; label := None;
       bounds := Some (100, 1000); step := None;
       trigger := OnFinishChange; callback := RemakeSystem |};
    {| folder := "Simulation"; property := "rangeY"; label := None;
       bounds := Some (100, 1000); step := None;
       trigger := OnFinishChange; callback := RemakeSystem |};
    {| folder := "Simulation"; property := "rangeZ"; label := None;
       bounds := Some (100, 1000); step := None;
       trigger := OnFinishChange; callback := RemakeSystem |};
    {| folder := "Simulation"; property := "velocityY"; label := None;
       bounds := Some (- 1, 20); step := None;
       trigger := OnFinishChange; callback := RemakeSystem |};
    {| folder := "Simulation"; property := "amplitudeX"; label := None;
       bounds := Some (- 1, 20); step := None;
       trigger := OnFinishChange; callback := RemakeSystem |};
    {| folder := "Simulation"; property := "angleX"; label := None;
       bounds := Some (0, 3); step := None;
       trigger := OnFinishChange; callback := RemakeSystem |};
    {| folder := "Sprites"; property := "ratio"; label := None;
       bounds := Some (0.0, 1.0); step := Some 0.01;
       trigger := OnFinishChange; callback := UpdateSprite |};
    {| folder := "Sprites"; property := "snowSize"; label := None;
       bounds := Some (0, 20); step := None;
       trigger := OnFinishChange; callback := UpdateSprite |};
    {| folder := "Sprites"; property := "spriteSize"; label := None;
       bounds := Some (0, 20); step := None;
       trigger := OnFinishChange; callback := UpdateSprite |} ].

Definition createGUI : M unit :=
  o ← gets options;
  modify (upd_globals (set_gui (controllers o))).

(** Initialize renderer. *)
Definition init (v : Revision) : M unit :=
  wd ← gets (fun w => windowWidth (globals w));
  ht ← gets (fun w => windowHeight (globals w));
  update_renderer (setSize wd ht);;
  dpr ← gets (fun w => devicePixelRatio (host w));
  update_renderer (setPixelRatio dpr);;
  _ ← the_renderer;
  body_appendChild Canvas;;
  addEventListener_resize OnWindowResize;;
  (* GUI *)
  match v with Panel => createGUI | Plain => mret tt end;;
  console_table.

(** The [while] loop of [remakeSystem]. *)
Definition dispose_children (fuel : nat) : M unit :=
  while fuel
    (s ← the_scene; mret (0 <? length (children s))%nat)
    (s ← the_scene;
     child ← defined (children s !! 0%nat);
     scene_remove child;;
     geometry_dispose (geometry child);;
     material_dispose (material child)).

Definition remakeSystem (fuel : nat) : M unit :=
  dispose_children fuel;;
  o ← gets options;
  sm ← gets (fun w => snowMat (globals w));
  m ← defined sm;
  update_uniforms m (with_rangeY (rangeY o));;
  sm ← gets (fun w => spriteMat (globals w));
  m ← defined sm;
  update_uniforms m (with_rangeY (rangeY o));;
  _ ← the_scene;
  sm ← gets (fun w => snowMat (globals w));
  m ← defined sm;
  p ← newParticleSystem Panel m
        (Math_round (Number_mul (particleCount o) (Number_sub 1.0 (ratio o))));
  scene_add p;;
  _ ← the_scene;
  sm ← gets (fun w => spriteMat (globals w));
  m ← defined sm;
  p ← newParticleSystem Panel m (Math_round (Number_mul (particleCount o) (ratio o)));
  scene_add p.

Definition updateSprite (fuel : nat) : M unit :=
  o ← gets options;
  tx ← gets (fun w => snowSprite (globals w));
  m ← newParticleMaterial (snowSize o) tx;
  modify (upd_globals (set_snowMat (Some m)));;
  tx ← gets (fun w => sprite (globals w));
  m ← newParticleMaterial (spriteSize o) tx;
  modify (upd_globals (set_spriteMat (Some m)));;
  remakeSystem fuel.

(** One turn of the loop of [onWindowResize]. *)
Definition resize_child (v : Revision) (i : nat) : M unit :=
  s ← the_scene;
  child ← defined (children s !! i);
  o ← getAttribute (geometry child) "position";
  pos ← defined o;
  arr ← Float32Array (count pos);
  sc ← gets (fun w => scale (globals w));
  let scales := fill arr sc in
  setAttribute (geometry child) "scale" (Float32BufferAttribute scales 1);;
  match v with
  | Panel => needsUpdate (geometry child) "scale"
  | Plain => mret tt
  end.

(** Updates scene render size to always fit window. *)
Definition onWindowResize (v : Revision) : M unit :=
  vp ← gets (fun w => visualViewport (host w));
  modify (upd_globals (set_windowWidth (fst vp)));;
  modify (upd_globals (set_windowHeight (snd vp)));;
  (* Update particle scale attribute based on window height *)
  modify (upd_globals (fun g => set_scale (windowHeight g) g));;
  s ← the_scene;
  forM (resize_child v) (seq 0 (length (children s)));;
  wd ← gets (fun w => windowWidth (globals w));
  ht ← gets (fun w => windowHeight (globals w));
  update_camera (with_aspect (wd / ht));;
  update_camera updateProjectionMatrix;;
  update_renderer (setSize wd ht).

(** The branch of the top level taken when WebGL is available. *)
Definition start_up (v : Revision) : M unit :=
  vp ← gets (fun w => visualViewport (host w));
  modify (upd_globals (set_windowWidth (fst vp)));;
  modify (upd_globals (set_windowHeight (snd vp)));;
  modify (upd_globals (fun g =>
    set_windowAspectRatio (windowWidth g / windowHeight g) g));;
  modify (upd_globals (fun g => set_scale (windowHeight g) g));;
  modify (upd_globals (set_scene
    (Some {| background := None; scene_fog := None; children := [] |})));;
  modify (upd_globals (fun g =>
    set_camera (Some (new_PerspectiveCamera 75 (windowAspectRatio g) 0.1 1000)) g));;
  modify (upd_globals (set_renderer
    (Some {| antialias := true; width := 300; height := 150; pixelRatio := 1;
             frames := 0%nat |})));;
  match v with
  | Panel =>
      modify (upd_globals (set_stats (Some 0%nat)));;
      body_appendChild StatsDom
  | Plain => mret tt
  end;;
  init v;;
  render v.

(** The top level of the script. *)
Definition main (v : Revision) : M unit :=
  ok ← gets (fun w => isWebGLAvailable (host w));
  (* Checks for WebGL support *)
  if ok : bool then start_up v
  else
    let warning := WebGLErrorMessage in
    byId_appendChild "container" warning.

(** ** What the host does with the script *)

(** A value handed to a controller's callback. *)
Inductive Value :=
| VColor (c : ColorRep)
| VBool (b : bool)
| VNumber (q : Q).

(** The callbacks [createGUI] passes to [onChange] and [onFinishChange].
    dat.GUI hands each the new value of its property, of that property's
    type. *)
Definition run_callback (fuel : nat) (cb : Callback) (value : Value) : M unit :=
  o ← gets options;
  match cb, value with
  | BackgroundColorChanged, VColor c =>
      update_scene (with_background c);;
      if fog o then
        update_scene (with_fog (Some (new_Fog c (fogRange o) (fogRange o * 2))))
      else mret tt
  | FogChanged, VBool b =>
      if b then
        update_scene (with_fog
          (Some (new_Fog (backgroundColor o) (fogRange o) (fogRange o * 2))))
      else update_scene (with_fog None)
  | FogRangeChanged, VNumber q =>
      if fog o then
        update_scene (with_fog (Some (new_Fog (backgroundColor o) q (q * 2))))
      else update_scene (with_fog None)
  | CameraZChanged, VNumber q => update_camera (with_position_z q)
  | RemakeSystem, _ => remakeSystem fuel
  | UpdateSprite, _ => updateSprite fuel
  | _, _ => mret tt
  end.

(** The write dat.GUI makes to [options[property]] before it calls back. *)
Definition write_option (name : string) (value : Value) (o : Options) : Options :=
  let 'Build_Options bg fg fr pc ra ss ps sa al cz rx ry rz vy ax an sp pp := o in
  match value with
  | VColor c =>
      if String.eqb name "backgroundColor"
      then Build_Options c fg fr pc ra ss ps sa al cz rx ry rz vy ax an sp pp
      else o
  | VBool t =>
      if String.eqb name "fog"
      then Build_Options bg t fr pc ra ss ps sa al cz rx ry rz vy ax an sp pp
      else if String.eqb name "sizeAttenuation"
      then Build_Options bg fg fr pc ra ss ps t al cz rx ry rz vy ax an sp pp
      else o
  | VNumber q =>
      if String.eqb name "fogRange"
      then Build_Options bg fg q pc ra ss ps sa al cz rx ry rz vy ax an sp pp
      else if String.eqb name "particleCount"
      then Build_Options bg fg fr q ra ss ps sa al cz rx ry rz vy ax an sp pp
      else if String.eqb name "ratio"
      then Build_Options bg fg fr pc q ss ps sa al cz rx ry rz vy ax an sp pp
      else if String.eqb name "snowSize"
      then Build_Options bg fg fr pc ra q ps sa al cz rx ry rz vy ax an sp pp
      else if String.eqb name "spriteSize"
      then Build_Options bg fg fr pc ra ss q sa al cz rx ry rz vy ax an sp pp
      else if String.eqb name "alphaTest"
      then Build_Options bg fg fr pc ra ss ps sa q cz rx ry rz vy ax an sp pp
      else if String.eqb name "cameraPositionZ"
      then Build_Options bg fg fr pc ra ss ps sa al q rx ry rz vy ax an sp pp
      else if String.eqb name "rangeX"
      then Build_Options bg fg fr pc ra ss ps sa al cz q ry rz vy ax an sp pp
      else if String.eqb name "rangeY"
      then Build_Options bg fg fr pc ra ss ps sa al cz rx q rz vy ax an sp pp
      else if String.eqb name "rangeZ"
      then Build_Options bg fg fr pc ra ss ps sa al cz rx ry q vy ax an sp pp
      else if String.eqb name "velocityY"
      then Build_Options bg fg fr pc ra ss ps sa al cz rx ry rz q ax an sp pp
      else if String.eqb name "amplitudeX"
      then Build_Options bg fg fr pc ra ss ps sa al cz rx ry rz vy q an sp pp
      else if String.eqb name "angleX"
      then Build_Options bg fg fr pc ra ss ps sa al cz rx ry rz vy ax q sp pp
      else o
  end.

Definition run_handler (v : Revision) (hd : Handler) : M unit :=
  match hd with
  | Tick => tick v
  | OnWindowResize => onWindowResize v
  end.

(** dat.GUI's [NumberController.setValue]: the number entered is
    brought within the bounds of the controller, then, when the
    controller has a step and the number is not a multiple of it, to the
    nearest multiple.  (The steps of this panel, 1000 and 0.01, are not
    zero.) *)
Definition NumberController_setValue (c : Controller) (v : Q) : Q :=
  let _v := binary64 v in
  let _v :=
    match bounds c with
    | Some (min, max) =>
        if negb (Qle_bool (binary64 min) _v) then binary64 min
        else if negb (Qle_bool _v (binary64 max)) then binary64 max
        else _v
    | None => _v
    end in
  match step c with
  | Some st =>
      if has_remainder _v st
      then Number_mul (Math_round (Number_div _v st)) st
      else _v
  | None => _v
  end.

(** [controller.setValue(v)] gives what is written to the option and
    handed to the callback: a number goes through the controller for
    numbers, a colour or a boolean is taken as it is. *)
Definition setValue (c : Controller) (v : Value) : Value :=
  match v with
  | VNumber q => VNumber (NumberController_setValue c q)
  | _ => v
  end.

Inductive Event :=
| Resize (wd ht : Q)                      (* the viewport takes a new size *)
| AnimationFrame (time : Q)               (* the display refreshes *)
| GuiChange (c : Controller) (value : Value).  (* a value is entered in a controller *)

Definition dispatch (v : Revision) (fuel : nat) (e : Event) : M unit :=
  match e with
  | Resize wd ht =>
      modify (upd_host (set_visualViewport (wd, ht)));;
      ls ← gets (fun w => resizeListeners (host w));
      forM (run_handler v) ls
  | AnimationFrame time =>
      modify (upd_host (set_elapsed time));;
      cbs ← gets (fun w => frameRequests (host w));
      modify (upd_host (set_frameRequests []));;
      forM (run_handler v) cbs
  | GuiChange c value =>
      let newValue := setValue c value in
      modify (fun w => set_options (write_option (property c) newValue (options w)) w);;
      run_callback fuel (callback c) newValue
  end.

(** ** Notions used to state the properties *)

(** The world after [k] more draws from the random source. *)
Definition advance (k : nat) (w : World) : World :=
  upd_host (fun h => set_drawn (k + drawn h) h) w.

(** Each particle takes six draws: [starts d n] lists, for [n] particles
    of which the first is built when [d] draws have been made, the
    place in the stream of the first draw of each. *)
Fixpoint starts (d n : nat) : list nat :=
  match n with
  | O => []
  | S n' => d :: starts (6 + d) n'
  end.

Section Samples.

Variable o : Options.
Variable rnd : nat -> Q.

(** What one particle receives when its first draw is the [k]-th. *)
Definition sample_position (k : nat) : list Q :=
  [ rangeX o * (0.5 - rnd k);
    rangeY o * (0.5 - rnd (1 + k));
    rangeZ o * (0.5 - rnd (2 + k)) ].

Definition sample_velocityY (k : nat) : Q :=
  (- velocityY o - 1)
  + rnd (3 + k) * (Math_min (- velocityY o + 1) 0 - (- velocityY o - 1)).

Definition sample_amplitudeX (k : nat) : Q :=
  Math_max (amplitudeX o - 1) 0
  + rnd (4 + k) * (amplitudeX o + 1 - Math_max (amplitudeX o - 1) 0).

Definition sample_angle (k : nat) : Q :=
  (angleX o - 0.1) + rnd (5 + k) * (angleX o + 0.1 - (angleX o - 0.1)).

(** The geometry [newParticleSystem] leaves behind: [len] scale slots
    and one particle for each element of [ks]. *)
Definition built (v : Revision) (sc : Q) (len : nat) (ks : list nat) : BufferGeometry :=
  {| attributes :=
       <["angle" := Float32BufferAttribute (List.map sample_angle ks) 1]> (
       <["amplitudeX" := Float32BufferAttribute (List.map sample_amplitudeX ks) 1]> (
       <["velocityY" := Float32BufferAttribute (List.map sample_velocityY ks) 1]> (
       <["scale" := {| array := repeat sc len; itemSize := 1;
                       count := inject_Z (Z.of_nat (length (repeat sc len))) / 1;
                       version := match v with Plain => 1%nat | Panel => 0%nat end |}]> (
       <["position" := Float32BufferAttribute (flat_map sample_position ks) 3]>
       ∅)))) |}.

End Samples.

(** [Math.random] returns a number of [0, 1). *)
Definition unit_interval (rnd : nat -> Q) : Prop :=
  forall k, 0 <= rnd k /\ rnd k < 1.

(** The named attribute of the geometry of a scene object. *)
Definition attribute (w : World) (p : Points) (name : string) : option BufferAttribute :=
  g ← geometries (heap w) !! geometry p; attributes g !! name.

(** The number of particles of a particle system, as [onWindowResize]
    reads it: [geometry.getAttribute('position').count]. *)
Definition particles (w : World) (p : Points) : option Q :=
  count <$> attribute w p "position".

(** The children of the scene; none when there is no scene. *)
Definition systems (w : World) : list Points :=
  match scene (globals w) with
  | Some s => children s
  | None => []
  end.

(** A scene object whose geometry has a position attribute with a
    count that can be a length. *)
Definition has_position (w : World) (p : Points) : bool :=
  match attribute w p "position" with
  | Some pos => (0 <=? Qtruncate (count pos))%Z
  | None => false
  end.

Definition is_some {A} (o : option A) : bool :=
  match o with Some _ => true | None => false end.

(** The state the handlers run in once start-up has succeeded: scene,
    camera and renderer exist, and every child of the scene is a
    particle system. *)
Definition ready (w : World) : bool :=
  is_some (scene (globals w)) && is_some (camera (globals w))
  && is_some (renderer (globals w))
  && forallb (has_position w) (systems w).

(** What [remakeSystem] needs beyond that: both materials exist, and
    identifiers in use are below the next one to be given out. *)
Definition material_ready (w : World) (o : option nat) : bool :=
  match o with
  | Some m => is_some (materials (heap w) !! m)
  | None => false
  end.

Definition below_next (w : World) (i : nat) : bool := (i <? nextId (heap w))%nat.

Definition rebuildable (w : World) : bool :=
  is_some (scene (globals w))
  && material_ready w (snowMat (globals w))
  && material_ready w (spriteMat (globals w))
  && forallb (below_next w) (disposedGeometries (heap w))
  && forallb (fun p => below_next w (geometry p)) (systems w).

(** The world [newParticleSystem] leaves when it returns: four draws
    for the identifier of the geometry, six for each particle, four for
    the identifier of the [Points] object. *)
Definition after_newParticleSystem (v : Revision) (particleCount : Q) (w : World) : World :=
  upd_heap (fun h =>
     set_nextId (S (S (nextId (heap w))))
       (set_geometries
          (<[nextId (heap w) :=
               built (options w) (random (host w)) v (scale (globals w))
                 (Z.to_nat (Qtruncate particleCount))
                 (starts (4 + drawn (host w)) (Z.to_nat (Qceiling particleCount)))]>
             (geometries h)) h))
     (advance (8 + 6 * Z.to_nat (Qceiling particleCount)) w).

(** The scale attribute [onWindowResize] gives a geometry whose position
    attribute is [pos], for the viewport height [h]. *)
Definition new_scale (v : Revision) (h : Q) (pos : BufferAttribute) : BufferAttribute :=
  let scales := repeat h (Z.to_nat (Qtruncate (count pos))) in
  {| array := scales; itemSize := 1;
     count := inject_Z (Z.of_nat (length scales)) / 1;
     version := match v with Panel => 1%nat | Plain => 0%nat end |}.

(** A geometry with its scale attribute replaced by that one. *)
Definition rescale (v : Revision) (h : Q) (g : BufferGeometry) : BufferGeometry :=
  match attributes g !! "position" with
  | Some pos => {| attributes := <["scale" := new_scale v h pos]> (attributes g) |}
  | None => g
  end.

(** The geometries after the loop of [onWindowResize] has run over the
    children [cs]. *)
Definition rescale_all (v : Revision) (h : Q) (cs : list Points)
    (gs : gmap nat BufferGeometry) : gmap nat BufferGeometry :=
  foldl (fun gs p => alter (rescale v h) (geometry p) gs) gs cs.

(** A computation leaves an observation of the world as it found it,
    whether it returns or throws. *)
Definition preserves {A B} (f : World -> B) (c : M A) : Prop :=
  forall w, f (snd (c w)) = f w.

Definition is_message (e : Element) : bool :=
  match e with
  | WebGLErrorMessage => true
  | _ => false
  end.

(** Where a message can have been put: among the children of the
    elements reachable by id, and among those of the body. *)
Definition shown_messages (w : World) : gmap string (list Element) * list Element :=
  (byId (host w), List.filter is_message (body (host w))).

(** ** A page to run the script on *)

Definition example_host (ok : bool) : Host :=
  {| isWebGLAvailable := ok;
     visualViewport := (1280, 720);
     devicePixelRatio := 1;
     random := fun k => inject_Z (Z.of_nat (k mod 7)) / 7;
     drawn := 0;
     elapsed := 0;
     byId := {[ "container" := [] ]};
     body := [];
     resizeListeners := [];
     frameRequests := [];
     console := [] |}.

(** Before the script runs, its variables are undefined and nothing has
    been allocated. *)
Definition no_globals : Globals :=
  {| windowWidth := 0; windowHeight := 0; windowAspectRatio := 0; scale := 0;
     scene := None; camera := None; renderer := None; stats := None;
     snowSprite := None; sprite := None; snowMat := None; spriteMat := None;
     gui := [] |}.

Definition empty_heap : Heap :=
  {| nextId := 0; geometries := ∅; materials := ∅;
     disposedGeometries := []; disposedMaterials := []; calls := [] |}.

Definition example_page (ok : bool) (o : Options) : World :=
  {| options := o; host := example_host ok; globals := no_globals; heap := empty_heap |}.

(** The default options with another particle count and ratio. *)
Definition example_options (v : Revision) (n r : Q) : Options :=
  write_option "ratio" (VNumber r)
    (write_option "particleCount" (VNumber n) (default_options v)).

(** The page once the script has run on it. *)
Definition example_scene (v : Revision) (n r : Q) : World :=
  snd (main v (example_page true (example_options v n r))).

(** ** Notions used to state further properties *)

(** The uniforms of the material a variable of the script refers to. *)
Definition uniforms_of (w : World) (o : option nat) : option Uniforms :=
  m ← o; x ← materials (heap w) !! m; Some (uniforms x).

(** What the update loop needs: scene, camera, renderer and both
    materials exist, and so does the counter of the revision that has
    one. *)
Definition tickable (v : Revision) (w : World) : bool :=
  is_some (scene (globals w)) && is_some (camera (globals w))
  && is_some (renderer (globals w))
  && material_ready w (snowMat (globals w))
  && material_ready w (spriteMat (globals w))
  && match v with Panel => is_some (stats (globals w)) | Plain => true end.

(** The page between two events once start-up has succeeded: the
    handlers can run, the resize handler is the listener and the update
    loop has asked for the next frame. *)
Definition running (v : Revision) (w : World) : Prop :=
  ready w = true /\ tickable v w = true /\
  resizeListeners (host w) = [OnWindowResize] /\
  frameRequests (host w) = [Tick].

Definition host_event (e : Event) : bool :=
  match e with
  | Resize _ _ | AnimationFrame _ => true
  | GuiChange _ _ => false
  end.

Definition is_frame (e : Event) : bool :=
  match e with
  | AnimationFrame _ => true
  | _ => false
  end.

(** The events of a list handled one after the other. *)
Definition run (v : Revision) (fuel : nat) (es : list Event) : M unit :=
  forM (dispatch v fuel) es.

(** The fog the options ask for. *)
Definition fog_of (o : Options) : option Fog :=
  if fog o then Some (new_Fog (backgroundColor o) (fogRange o) (fogRange o * 2))
  else None.

(** A material with its uniforms changed, as [update_uniforms] stores
    it. *)
Definition with_uniforms (f : Uniforms -> Uniforms) (m : ShaderMaterial) : ShaderMaterial :=
  {| uniforms := f (uniforms m);
     USE_SIZEATTENUATION := USE_SIZEATTENUATION m;
     m_vertexShader := m_vertexShader m;
     m_fragmentShader := m_fragmentShader m;
     transparent := transparent m;
     m_fog := m_fog m |}.

(** The materials once the uniforms of the snow material, then those of
    the sprite material, have been changed by [f]. *)
Definition retouched (f : Uniforms -> Uniforms) (w : World) : gmap nat ShaderMaterial :=
  let once (o : option nat) (ms : gmap nat ShaderMaterial) :=
    match o with
    | Some m => alter (with_uniforms f) m ms
    | None => ms
    end in
  once (spriteMat (globals w)) (once (snowMat (globals w)) (materials (heap w))).

(** A renderer that has drawn one more frame. *)
Definition with_frame (r : WebGLRenderer) : WebGLRenderer :=
  {| antialias := antialias r; width := width r; height := height r;
     pixelRatio := pixelRatio r; frames := S (frames r) |}.

(** The world one call of the update loop leaves. *)
Definition after_tick (v : Revision) (w : World) : World :=
  upd_globals (fun g =>
      set_renderer (with_frame <$> renderer g)
        (match v with
         | Panel => set_stats (S <$> stats g) g
         | Plain => g
         end))
    (upd_host (fun h => set_frameRequests (frameRequests h ++ [Tick]) h)
       (upd_heap (set_materials (retouched (with_uTime (elapsed (host w))) w)) w)).

(** The world [onWindowResize] leaves. *)
Definition after_onWindowResize (v : Revision) (w : World) : World :=
  let wd := fst (visualViewport (host w)) in
  let ht := snd (visualViewport (host w)) in
  upd_globals (fun g =>
      set_renderer (setSize wd ht <$> renderer g)
        (set_camera
           ((fun c => updateProjectionMatrix (with_aspect (wd / ht) c)) <$> camera g)
           (set_scale ht (set_windowHeight ht (set_windowWidth wd g)))))
    (upd_heap (fun h =>
       set_geometries (rescale_all v ht (systems w) (geometries h)) h) w).

(** The time of the last display refresh among the events of a list. *)
Fixpoint last_frame (es : list Event) : option Q :=
  match es with
  | [] => None
  | e :: es' =>
      match last_frame es', e with
      | Some t, _ => Some t
      | None, AnimationFrame t => Some t
      | None, _ => None
      end
  end.

(** The size of the viewport after the events of a list. *)
Fixpoint last_size (es : list Event) : option (Q * Q) :=
  match es with
  | [] => None
  | e :: es' =>
      match last_size es', e with
      | Some s, _ => Some s
      | None, Resize wd ht => Some (wd, ht)
      | None, _ => None
      end
  end.

(** What the two handlers of the host leave alone: the particle systems
    and all their attributes but scale, the options, the random source,
    the identifiers given out, what has been disposed, and which
    materials and listeners the script has. *)
Definition undisturbed (w w' : World) : Prop :=
  systems w' = systems w /\
  (forall p name, name <> "scale" -> attribute w' p name = attribute w p name) /\
  options w' = options w /\
  drawn (host w') = drawn (host w) /\
  nextId (heap w') = nextId (heap w) /\
  disposedGeometries (heap w') = disposedGeometries (heap w) /\
  disposedMaterials (heap w') = disposedMaterials (heap w) /\
  snowMat (globals w') = snowMat (globals w) /\
  spriteMat (globals w') = spriteMat (globals w) /\
  body (host w') = body (host w).

(** The sizes of the two particle systems the options ask for, as
    [render] and [remakeSystem] compute them. *)
Definition snow_count (o : Options) : Q :=
  Math_round (Number_mul (particleCount o) (Number_sub 1.0 (ratio o))).

Definition sprite_count (o : Options) : Q :=
  Math_round (Number_mul (particleCount o) (ratio o)).

(** The calls one turn of the loop of [remakeSystem] makes on a child. *)
Definition disposal (child : Points) : list Call :=
  [Removed child; GeometryDisposed (geometry child); MaterialDisposed (material child)].

(** The world the loop of [remakeSystem] leaves: the scene emptied, the
    geometry and the material of each child disposed. *)
Definition after_dispose_children (w : World) : World :=
  upd_heap (fun h =>
     set_calls (calls h ++ flat_map disposal (systems w))
       (set_disposedMaterials (rev (material <$> systems w) ++ disposedMaterials h)
          (set_disposedGeometries (rev (geometry <$> systems w) ++ disposedGeometries h) h)))
    (upd_globals (fun g => set_scene (with_children [] <$> scene g) g) w).

(** The scene with one more object, which was not in it, added by the
    script. *)
Definition with_system (p : Points) (w : World) : World :=
  upd_heap (fun h => set_calls (calls h ++ [Added p]) h)
    (upd_globals (fun g =>
       set_scene ((fun s => with_children (children s ++ [p]) s) <$> scene g) g) w).

(** The particle system [newParticleSystem] returns in the world [w]. *)
Definition next_system (w : World) (material : nat) : Points :=
  {| id := S (nextId (heap w)); geometry := nextId (heap w); material := material |}.

(** The world [remakeSystem] leaves, [m1] and [m2] being the snow and
    the sprite material. *)
Definition after_remakeSystem (m1 m2 : nat) (w : World) : World :=
  let o := options w in
  let w1 := upd_heap (set_materials (retouched (with_rangeY (rangeY o)) w))
              (after_dispose_children w) in
  let w2 := with_system (next_system w1 m1)
              (after_newParticleSystem Panel (snow_count o) w1) in
  with_system (next_system w2 m2)
    (after_newParticleSystem Panel (sprite_count o) w2).

(** The material [newParticleMaterial] makes. *)
Definition new_material (o : Options) (size : Q) (sprite : option Texture) : ShaderMaterial :=
  {| uniforms := {| u_uTime := 0; u_size := size; u_rangeY := rangeY o;
                    u_map := sprite; u_alphaTest := alphaTest o |};
     USE_SIZEATTENUATION := sizeAttenuation o;
     m_vertexShader := vertexShader;
     m_fragmentShader := fragmentShader;
     transparent := true;
     m_fog := fog o |}.

(** The world with the two materials of the script made anew. *)
Definition with_new_materials (w : World) : World :=
  let o := options w in
  let n := nextId (heap w) in
  upd_globals (fun g => set_spriteMat (Some (S n)) (set_snowMat (Some n) g))
    (upd_heap (fun h =>
       set_nextId (S (S n))
         (set_materials
            (<[S n := new_material o (spriteSize o) (sprite (globals w))]>
               (<[n := new_material o (snowSize o) (snowSprite (globals w))]>
                  (materials h))) h)) w).

(** The world [updateSprite] leaves. *)
Definition after_updateSprite (w : World) : World :=
  after_remakeSystem (nextId (heap w)) (S (nextId (heap w))) (with_new_materials w).

(** The scene and the camera show what the options say. *)
Definition scene_in_step (w : World) : Prop :=
  let o := options w in
  exists s c,
    scene (globals w) = Some s /\
    background s = Some (backgroundColor o) /\
    scene_fog s = fog_of o /\
    camera (globals w) = Some c /\
    position_z c = cameraPositionZ o.

(** The particle systems and their materials show what the options
    say: a snow system and a sprite system of the sizes asked for, on
    the snow and the sprite material, which carry the point sizes, the
    [rangeY] and the alpha test of the options. *)
Definition systems_in_step (w : World) : Prop :=
  let o := options w in
  exists snow sprite x1 x2 a b,
    systems w = [snow; sprite] /\
    snowMat (globals w) = Some (material snow) /\
    spriteMat (globals w) = Some (material sprite) /\
    materials (heap w) !! material snow = Some x1 /\
    materials (heap w) !! material sprite = Some x2 /\
    u_size (uniforms x1) = snowSize o /\
    u_size (uniforms x2) = spriteSize o /\
    u_rangeY (uniforms x1) = rangeY o /\
    u_rangeY (uniforms x2) = rangeY o /\
    u_alphaTest (uniforms x1) = alphaTest o /\
    u_alphaTest (uniforms x2) = alphaTest o /\
    particles w snow = Some a /\ a == snow_count o /\
    particles w sprite = Some b /\ b == sprite_count o.

(** The page of the revision with the panel between two events: the
    handlers and the callbacks of the panel can run, the options are
    ones the panel allows, and the scene shows them. *)
Definition settled (w : World) : Prop :=
  running Panel w /\
  rebuildable w = true /\
  0 <= particleCount (options w) /\
  0 <= ratio (options w) /\ ratio (options w) <= 1 /\
  (exists o0, gui (globals w) = controllers o0) /\
  scene_in_step w /\
  systems_in_step w.

End Snow.

(* ================================================================== *)
(** * Properties of the shading programs *)

Section ShaderFacts.

Import GLSL.

(** [mod(u, v)] lies in [0, v) for a positive [v]. *)
Lemma mod_bounds (u v : Q) : 0 < v -> 0 <= mod_ u v /\ mod_ u v < v.
Proof.
  intros Hv. unfold mod_.
  assert (E : u / v * v == u) by (field; lra).
  pose proof (Qfloor_le (u / v)) as Hlo.
  pose proof (Qlt_floor (u / v)) as Hhi.
  rewrite inject_Z_plus in Hhi. change (inject_Z 1) with 1 in Hhi.
  split; nra.
Qed.

Lemma Qhalf (u : Q) : u / 2 == u * (1 # 2).
Proof. reflexivity. Qed.

Lemma Qhalf_decimal (u : Q) : u / 2.0 == u * (1 # 2).
Proof. field. Qed.

Lemma Qltb_lt (u v : Q) : Qltb u v = true <-> u < v.
Proof.
  unfold Qltb. rewrite negb_true_iff, <- not_true_iff_false, Qle_bool_iff.
  split; [apply Qnot_le_lt | apply Qlt_not_le].
Qed.

(** C7.  The fragment stage discards a fragment exactly when the alpha
    sampled from the bound texture at the point coordinate is strictly
    below [alphaTest]; with [alphaTest = 0] and a texture whose alpha is
    never negative, no fragment is discarded. *)
Theorem fragment_discard_iff_alpha_below_threshold
    (fog_fragment : vec4 -> vec4) (map : sampler2D) :
  (forall (alphaTest : Q) (gl_PointCoord : vec2),
     fragment_main fog_fragment map alphaTest gl_PointCoord = None
     <-> a (texture2D map gl_PointCoord) < alphaTest) /\
  ((forall uv, 0 <= a (texture2D map uv)) ->
   forall gl_PointCoord,
     fragment_main fog_fragment map 0 gl_PointCoord
     = Some (fog_fragment (texture2D map gl_PointCoord))).
Proof.
  split.
  - intros alphaTest uv. unfold fragment_main.
    destruct (Qltb (a (texture2D map uv)) alphaTest) eqn:E.
    + rewrite Qltb_lt in E. tauto.
    + split; [discriminate|]. intros H. apply Qltb_lt in H. congruence.
  - intros Hpos uv. unfold fragment_main.
    destruct (Qltb (a (texture2D map uv)) 0) eqn:E; [|reflexivity].
    apply Qltb_lt in E. specialize (Hpos uv). lra.
Qed.

Lemma fragment_discard_iff_alpha_below_threshold_witness :
  fragment_main (fun c => c) (fun _ => Vec4 1 1 1 0.5) 0 (Vec2 0.5 0.25)
  = Some (Vec4 1 1 1 0.5).
Proof.
  apply (proj2 (fragment_discard_iff_alpha_below_threshold
                  (fun c => c) (fun _ => Vec4 1 1 1 0.5))).
  intros uv. vm_compute. discriminate.
Defined.

(** A number of [0, v) that differs from [u] by a whole multiple of [v]
    is [mod(u, v)]. *)
Lemma mod_unique (u v h : Q) (k : Z) :
  0 < v -> h == u - inject_Z k * v -> 0 <= h -> h < v -> h == mod_ u v.
Proof.
  intros Hv E Hlo Hhi.
  destruct (mod_bounds u v Hv) as [Mlo Mhi]. unfold mod_ in *.
  set (f := Qfloor (u / v)) in *.
  set (m := u - v * inject_Z f) in *.
  assert (D : inject_Z (k - f) * v == m - h).
  { unfold Z.sub, m. rewrite inject_Z_plus, inject_Z_opp, E. ring. }
  set (z := inject_Z (k - f)) in *.
  assert (Hk : (k - f = 0)%Z).
  { assert (H1 : z < inject_Z 1).
    { change (inject_Z 1) with 1. apply Qnot_le_lt. intros C.
      pose proof (Qmult_le_compat_r 1 z v C (Qlt_le_weak _ _ Hv)) as P. lra. }
    assert (H2 : inject_Z (- 1) < z).
    { change (inject_Z (- 1)) with (- (1)). apply Qnot_le_lt. intros C.
      pose proof (Qmult_le_compat_r z (- (1)) v C (Qlt_le_weak _ _ Hv)) as P. lra. }
    unfold z in H1, H2. rewrite <- Zlt_Qlt in H1, H2. lia. }
  unfold z in D. rewrite Hk in D. change (inject_Z 0) with 0 in D. lra.
Qed.

(** C8.  The vertex stage moves a particle along the vertical by
    [uTime * velocityY * 10] and wraps the result over [rangeY]: for a
    positive [rangeY], at every time and for every particle, the
    displaced height lies in [-rangeY/2, rangeY/2], short of the upper
    end, and is the one number there that differs from the height moved,
    less [rangeY/2], by a whole multiple of [rangeY].  Sideways the
    particle is moved by the product of a sine and a cosine driven by
    [uTime * angle], scaled by [amplitudeX * 10]; its depth is kept, and
    it is the displaced position that is projected. *)
Theorem vertex_displacement_wraps_within_rangeY
    (sin cos : Q -> Q) (uTime size rangeY : Q)
    (projectionMatrix modelViewMatrix : mat4) (USE_SIZEATTENUATION : bool)
    (position : vec3) (scale velocityY amplitudeX angle : Q) :
  0 < rangeY ->
  let out := vertex_main sin cos uTime size rangeY projectionMatrix modelViewMatrix
               USE_SIZEATTENUATION position scale velocityY amplitudeX angle in
  let moved := y position + uTime * velocityY * 10 - rangeY / 2 in
  (exists k : Z, y (newPos out) == moved - inject_Z k * rangeY) /\
  - (rangeY / 2) <= y (newPos out) /\ y (newPos out) < rangeY / 2 /\
  (forall (k : Z) (h : Q),
     h == moved - inject_Z k * rangeY ->
     - (rangeY / 2) <= h -> h < rangeY / 2 -> h == y (newPos out)) /\
  x (newPos out)
    = x position + sin (uTime * angle) * cos (uTime * 2.0 * angle) * (amplitudeX * 10.0) /\
  z (newPos out) = z position /\
  gl_Position out
    = mat_vec (mat_mat projectionMatrix modelViewMatrix) (vec4_of (newPos out) 1.0).
Proof.
  intros Hr out moved. subst out moved.
  unfold vertex_main, displace. cbn [newPos x y z gl_Position].
  set (u := y position - uTime * - velocityY * 10.0).
  destruct (mod_bounds u rangeY Hr) as [Hlo Hhi].
  assert (Eu : u == y position + uTime * velocityY * 10) by (unfold u; ring).
  pose proof (Qhalf_decimal rangeY) as E2. pose proof (Qhalf rangeY) as E3.
  split; [|split; [lra|split; [lra|split; [|repeat split]]]].
  - exists (Qfloor (u / rangeY)). unfold mod_. rewrite E2, E3, <- Eu. ring.
  - intros k h E H1 H2.
    assert (Eh : h + rangeY * (1 # 2) == mod_ u rangeY).
    { apply (mod_unique u rangeY _ k Hr); [rewrite E, E3, Eu; ring | lra | lra]. }
    lra.
Qed.

Lemma vertex_displacement_wraps_within_rangeY_witness :
  let identity := Mat4 (Vec4 1 0 0 0) (Vec4 0 1 0 0) (Vec4 0 0 1 0) (Vec4 0 0 0 1) in
  let out := vertex_main (fun _ => 0) (fun _ => 1) 3 2 400 identity identity true
               (Vec3 10 (- 190) 5) 720 (- 2) 4 0.1 in
  0 < 400 /\ - (50) == y (newPos out).
Proof.
  intros identity out.
  assert (Hr : 0 < 400) by reflexivity.
  split; [exact Hr|].
  apply (proj1 (proj2 (proj2 (proj2
    (vertex_displacement_wraps_within_rangeY (fun _ => 0) (fun _ => 1) 3 2 400
       identity identity true (Vec3 10 (- 190) 5) 720 (- 2) 4 0.1 Hr)))) (- 1)%Z);
    vm_compute; (reflexivity || discriminate).
Defined.

End ShaderFacts.

(* ================================================================== *)
(** * Properties of the page script *)

Import Snow.

(** ** Running computations *)

Lemma bind_run {A B} (c : M A) (k : A -> M B) (w : World) :
  (c ≫= k) w =
  match c w with
  | (Normal a, w') => k a w'
  | (Throw e, w') => (Throw e, w')
  end.
Proof. reflexivity. Qed.

Lemma bind_normal {A B} (c : M A) (k : A -> M B) (w w' : World) (a : A) :
  c w = (Normal a, w') -> (c ≫= k) w = k a w'.
Proof. intros H. by rewrite bind_run, H. Qed.

(** ** Arithmetic *)

Lemma Qtruncate_Z (n : Z) : Qtruncate (inject_Z n) = n.
Proof.
  unfold Qtruncate. destruct (Qle_bool 0 (inject_Z n)); [apply Qfloor_Z | apply Qceiling_Z].
Qed.

Lemma Qtruncate_round (u : Q) : Qtruncate (Math_round u) = Qfloor (u + 0.5).
Proof. apply Qtruncate_Z. Qed.

Lemma Qceiling_round (u : Q) : Qceiling (Math_round u) = Qfloor (u + 0.5).
Proof. apply Qceiling_Z. Qed.

Lemma round_nonneg (u : Q) : 0 <= u -> (0 <= Qfloor (u + 0.5))%Z.
Proof.
  intros H. change 0%Z with (Qfloor 0). apply Qfloor_resp_le. lra.
Qed.

(** [Math.round] is within a half of its argument, a half going up. *)
Lemma round_nearest (u : Q) : u - (1 # 2) < Math_round u /\ Math_round u <= u + (1 # 2).
Proof.
  unfold Math_round.
  pose proof (Qfloor_le (u + 0.5)) as Hlo.
  pose proof (Qlt_floor (u + 0.5)) as Hhi.
  rewrite inject_Z_plus in Hhi. change (inject_Z 1) with 1 in Hhi.
  split; lra.
Qed.

(** Ties go up: 2.5 to 3 and -2.5 to -2. *)
Example round_ties : Math_round 2.5 == 3 /\ Math_round (- 2.5) == - 2.
Proof. split; reflexivity. Qed.

Lemma randFloat_within (low high u : Q) :
  low <= high -> 0 <= u -> u < 1 ->
  low <= low + u * (high - low) /\ low + u * (high - low) <= high.
Proof. intros. split; nra. Qed.

Lemma randFloatSpread_within (range u : Q) :
  0 <= range -> 0 <= u -> u < 1 ->
  - (range / 2) <= range * (0.5 - u) /\ range * (0.5 - u) <= range / 2.
Proof. intros. rewrite Qhalf. split; nra. Qed.

(** ** The particle loop *)

Lemma advance_0 (w : World) : advance 0 w = w.
Proof. by destruct w as [? [] ? ?]. Qed.

Lemma advance_advance (i j : nat) (w : World) :
  advance i (advance j w) = advance (i + j) w.
Proof.
  unfold advance, upd_host, set_host, set_drawn. cbn.
  by replace (i + (j + drawn (host w)))%nat with (i + j + drawn (host w))%nat by lia.
Qed.

Lemma starts_length (d n : nat) : length (starts d n) = n.
Proof. revert d; induction n; intros; cbn; auto. Qed.

Lemma starts_lookup (n : nat) : forall d i,
  (i < n)%nat -> starts d n !! i = Some (d + 6 * i)%nat.
Proof.
  induction n as [|n IH]; intros d i Hi; [lia|].
  destruct i as [|i]; cbn.
  - f_equal. lia.
  - rewrite IH by lia. f_equal. lia.
Qed.

Lemma particle_run (o : Options) (i : nat) (l : Locals) (w : World) :
  let rnd := random (host w) in
  let k := drawn (host w) in
  particle o i l w =
  (Normal {| l_position := l_position l ++ sample_position o rnd k;
             l_velocityY := l_velocityY l ++ [sample_velocityY o rnd k];
             l_amplitudeX := l_amplitudeX l ++ [sample_amplitudeX o rnd k];
             l_angle := l_angle l ++ [sample_angle o rnd k] |},
   advance 6 w).
Proof.
  unfold particle, advance, sample_position, sample_velocityY,
    sample_amplitudeX, sample_angle, push.
  cbv [mbind M_bind mret M_ret randFloat randFloatSpread Math_random foldM]. cbn.
  by rewrite <- !app_assoc.
Qed.

Lemma particles_run (o : Options) : forall (idx : list nat) (l : Locals) (w : World),
  let rnd := random (host w) in
  let ks := starts (drawn (host w)) (length idx) in
  foldM (particle o) idx l w =
  (Normal {| l_position := l_position l ++ flat_map (sample_position o rnd) ks;
             l_velocityY := l_velocityY l ++ List.map (sample_velocityY o rnd) ks;
             l_amplitudeX := l_amplitudeX l ++ List.map (sample_amplitudeX o rnd) ks;
             l_angle := l_angle l ++ List.map (sample_angle o rnd) ks |},
   advance (6 * length idx) w).
Proof.
  induction idx as [|i idx IH]; intros l w; cbn zeta.
  - cbn. rewrite !app_nil_r, advance_0. by destruct l.
  - cbn [foldM]. rewrite bind_run, particle_run, IH. cbn [length].
    rewrite advance_advance.
    replace (6 * length idx + 6)%nat with (6 * S (length idx))%nat by lia.
    cbn [l_position l_velocityY l_amplitudeX l_angle starts flat_map List.map
         advance upd_host set_host set_drawn host drawn random].
    by rewrite <- !app_assoc.
Qed.

(** ** Building a particle system *)

Lemma fill_repeat (n : nat) (v : Q) : fill (repeat 0 n) v = repeat v n.
Proof. unfold fill. induction n; cbn; congruence. Qed.

Lemma setAttribute_run geo name attr g w :
  geometries (heap w) !! geo = Some g ->
  setAttribute geo name attr w =
  (Normal tt,
   upd_heap (fun h =>
     set_geometries
       (<[geo := {| attributes := <[name := attr]> (attributes g) |}]> (geometries h)) h) w).
Proof.
  intros Hg. unfold setAttribute, the_geometry.
  cbv [mbind M_bind mret M_ret gets modify throw defined]. by rewrite Hg.
Qed.

Lemma needsUpdate_run geo name attr g w :
  geometries (heap w) !! geo = Some g ->
  attributes g !! name = Some attr ->
  needsUpdate geo name w =
  (Normal tt,
   upd_heap (fun h =>
     set_geometries
       (<[geo := {| attributes :=
                      <[name := {| array := array attr; itemSize := itemSize attr;
                                   count := count attr; version := S (version attr) |}]>
                        (attributes g) |}]> (geometries h)) h) w).
Proof.
  intros Hg Ha. unfold needsUpdate, getAttribute, the_geometry.
  cbv [mbind M_bind mret M_ret gets modify throw defined].
  rewrite Hg, Ha. by apply setAttribute_run.
Qed.

(** The plain revision sets the attributes in another order and marks
    the scale for upload; the map of attributes is the same. *)
Lemma attributes_plain_order (a1 a2 a3 a4 a5 a6 : BufferAttribute) :
  (<["scale" := a6]> (<["angle" := a5]> (<["velocityY" := a4]> (<["amplitudeX" := a3]>
     (<["scale" := a2]> (<["position" := a1]> ∅)))))
   : gmap string BufferAttribute) =
  <["angle" := a5]> (<["amplitudeX" := a3]> (<["velocityY" := a4]>
     (<["scale" := a6]> (<["position" := a1]> ∅)))).
Proof.
  apply map_eq. intros k. rewrite !lookup_insert. repeat case_decide; simplify_eq; done.
Qed.

(** ** Binary64

    The rounding to the nearest binary64 never reverses the order of
    two numbers; this is what keeps a size computed from a count that
    is not negative and a ratio of [0, 1] from being negative. *)

Lemma round_half_even_bounds (u : Q) :
  (Qfloor u <= round_half_even u <= Qfloor u + 1)%Z.
Proof.
  unfold round_half_even.
  destruct (Qcompare (u - inject_Z (Qfloor u)) (1 # 2));
    [destruct (Z.even (Qfloor u))|..]; lia.
Qed.

Lemma round_half_even_Z (k : Z) : round_half_even (inject_Z k) = k.
Proof.
  unfold round_half_even. rewrite Qfloor_Z.
  destruct (Qcompare_spec (inject_Z k - inject_Z k) (1 # 2)) as [E|E|E];
    [exfalso; lra | reflexivity | exfalso; lra].
Qed.

Lemma round_half_even_mono (u v : Q) :
  u <= v -> (round_half_even u <= round_half_even v)%Z.
Proof.
  intros Huv.
  pose proof (Qfloor_resp_le u v Huv) as Hf.
  pose proof (round_half_even_bounds u) as Hu.
  pose proof (round_half_even_bounds v) as Hv.
  destruct (Z.eq_dec (Qfloor u) (Qfloor v)) as [E|N]; [|lia].
  unfold round_half_even in *. rewrite <- E in *.
  destruct (Qcompare_spec (u - inject_Z (Qfloor u)) (1 # 2)) as [Eu|Lu|Gu];
    destruct (Qcompare_spec (v - inject_Z (Qfloor u)) (1 # 2)) as [Ev|Lv|Gv];
    try destruct (Z.even (Qfloor u)); try lia; exfalso; lra.
Qed.

Lemma two_power_pos (e : Z) : 0 < 2 ^ e.
Proof. by apply Qpower_0_lt. Qed.

Lemma two_power_succ (e : Z) : 2 ^ (e + 1) == 2 * 2 ^ e.
Proof. rewrite Qpower_plus by discriminate. change (2 ^ 1) with 2. ring. Qed.

Lemma log2_power (n : positive) :
  2 ^ Z.log2 (Z.pos n) <= inject_Z (Z.pos n)
  /\ inject_Z (Z.pos n) < 2 ^ (Z.log2 (Z.pos n) + 1).
Proof.
  destruct (Z.log2_spec (Z.pos n)) as [Hlo Hhi]; [lia|].
  pose proof (Z.log2_nonneg (Z.pos n)) as H0.
  rewrite <- Z.add_1_r in Hhi.
  change (2 : Q) with (inject_Z 2).
  rewrite <- !Zpower_Qpower by lia.
  rewrite <- Zle_Qle, <- Zlt_Qlt. lia.
Qed.

(** The exponent [grid] finds is the one of its specification. *)
Lemma grid_spec (n d : positive) :
  2 ^ (grid n d + 52) <= Z.pos n # d /\ Z.pos n # d < 2 ^ (grid n d + 53).
Proof.
  unfold grid.
  set (a := Z.log2 (Z.pos n)). set (b := Z.log2 (Z.pos d)).
  destruct (log2_power n) as [Hn1 Hn2]. destruct (log2_power d) as [Hd1 Hd2].
  fold a in Hn1, Hn2. fold b in Hd1, Hd2.
  pose proof (two_power_pos b) as Hb.
  assert (Hd : 0 < inject_Z (Z.pos d)) by (change 0 with (inject_Z 0); rewrite <- Zlt_Qlt; lia).
  assert (Hhi : Z.pos n # d < 2 ^ (a - b - 52 + 53)).
  { replace (a - b - 52 + 53)%Z with ((a + 1) - b)%Z by lia.
    rewrite Qpower_minus, (Qmake_Qdiv (Z.pos n) d) by discriminate.
    apply Qlt_shift_div_r; [exact Hd|].
    pose proof (two_power_pos (a + 1)).
    assert (E : 2 ^ (a + 1) / 2 ^ b * inject_Z (Z.pos d)
                == 2 ^ (a + 1) * (inject_Z (Z.pos d) / 2 ^ b)) by (field; lra).
    rewrite E.
    assert (1 <= inject_Z (Z.pos d) / 2 ^ b) by (apply Qle_shift_div_l; [exact Hb | lra]).
    nra. }
  assert (Hlo : 2 ^ (a - b - 52 - 1 + 52) < Z.pos n # d).
  { replace (a - b - 52 - 1 + 52)%Z with (a - (b + 1))%Z by lia.
    rewrite Qpower_minus, (Qmake_Qdiv (Z.pos n) d) by discriminate.
    pose proof (two_power_pos (b + 1)) as Hb1. pose proof (two_power_pos a).
    apply Qlt_shift_div_l; [exact Hd|].
    assert (E : 2 ^ a / 2 ^ (b + 1) * inject_Z (Z.pos d)
                == 2 ^ a * (inject_Z (Z.pos d) / 2 ^ (b + 1))) by (field; lra).
    rewrite E.
    assert (inject_Z (Z.pos d) / 2 ^ (b + 1) < 1) by (apply Qlt_shift_div_r; [exact Hb1 | lra]).
    nra. }
  destruct (Qle_bool (2 ^ (a - b - 52 + 52)) (Z.pos n # d)) eqn:E.
  - apply Qle_bool_iff in E. split; [exact E | exact Hhi].
  - split; [by apply Qlt_le_weak|].
    apply Qnot_le_lt. intros H. apply Qle_bool_iff in H.
    replace (a - b - 52 - 1 + 53)%Z with (a - b - 52 + 52)%Z in H by lia. congruence.
Qed.

Lemma nearest_bounds (n d : positive) :
  2 ^ (grid n d + 52) <= nearest n d /\ nearest n d <= 2 ^ (grid n d + 53).
Proof.
  destruct (grid_spec n d) as [Hlo Hhi]. unfold nearest.
  set (e := grid n d) in *. pose proof (two_power_pos e) as He.
  set (u := (Z.pos n # d) / 2 ^ e).
  assert (H52 : inject_Z (2 ^ 52) <= u).
  { apply Qle_shift_div_l; [exact He|].
    rewrite Zpower_Qpower by lia. change (inject_Z 2) with (2 : Q).
    rewrite <- Qpower_plus by discriminate. by rewrite Z.add_comm. }
  assert (H53 : u <= inject_Z (2 ^ 53)).
  { apply Qle_shift_div_r; [exact He|].
    rewrite Zpower_Qpower by lia. change (inject_Z 2) with (2 : Q).
    rewrite <- Qpower_plus by discriminate. rewrite Z.add_comm. by apply Qlt_le_weak. }
  apply round_half_even_mono in H52, H53. rewrite round_half_even_Z in H52, H53.
  rewrite (Z.add_comm e 52), (Z.add_comm e 53), !Qpower_plus by discriminate.
  change (2 ^ 52) with (inject_Z (2 ^ 52)). change (2 ^ 53) with (inject_Z (2 ^ 53)).
  rewrite Zle_Qle in H52, H53.
  split; apply Qmult_le_compat_r; try exact H52; try exact H53; by apply Qlt_le_weak.
Qed.

Lemma nearest_mono (n d n' d' : positive) :
  Z.pos n # d <= Z.pos n' # d' -> nearest n d <= nearest n' d'.
Proof.
  intros Hle.
  destruct (grid_spec n d) as [Hlo _]. destruct (grid_spec n' d') as [_ Hhi'].
  assert (He : (grid n d <= grid n' d')%Z).
  { assert (H : 2 ^ (grid n d + 52) < 2 ^ (grid n' d' + 53)) by lra.
    apply Qpower_lt_compat_l_inv in H; [lia | reflexivity]. }
  destruct (Z.eq_dec (grid n d) (grid n' d')) as [E|N].
  - unfold nearest. rewrite <- E. pose proof (two_power_pos (grid n d)) as Hp.
    apply Qmult_le_compat_r; [|by apply Qlt_le_weak].
    rewrite <- Zle_Qle. apply round_half_even_mono.
    apply Qle_shift_div_l; [exact Hp|].
    assert (Ediv : (Z.pos n # d) / 2 ^ grid n d * 2 ^ grid n d == Z.pos n # d) by (field; lra).
    by rewrite Ediv.
  - destruct (nearest_bounds n d) as [_ H1]. destruct (nearest_bounds n' d') as [H2 _].
    assert (2 ^ (grid n d + 53) <= 2 ^ (grid n' d' + 52))
      by (apply Qpower_le_compat_l; [lia | discriminate]).
    lra.
Qed.

Lemma nearest_pos (n d : positive) : 0 < nearest n d.
Proof.
  destruct (nearest_bounds n d) as [H _].
  pose proof (two_power_pos (grid n d + 52)). lra.
Qed.

Lemma binary64_proper (u v : Q) : u == v -> binary64 u = binary64 v.
Proof. intros E. unfold binary64. by rewrite (Qred_complete u v E). Qed.

(** The sign of a number read off its reduced form. *)
Lemma Qred_cases (u : Q) :
  match Qred u with
  | Z0 # _ => u == 0
  | Z.pos n # d => u == Z.pos n # d /\ 0 < u
  | Z.neg n # d => u == - (Z.pos n # d) /\ u < 0
  end.
Proof.
  pose proof (Qred_correct u) as E.
  destruct (Qred u) as [[|n|n] d].
  - rewrite <- E. reflexivity.
  - split; [by rewrite <- E | rewrite <- E; reflexivity].
  - split; [by rewrite <- E | rewrite <- E; reflexivity].
Qed.

Theorem binary64_mono (u v : Q) : u <= v -> binary64 u <= binary64 v.
Proof.
  intros Huv. unfold binary64.
  pose proof (Qred_cases u) as Hu. pose proof (Qred_cases v) as Hv.
  destruct (Qred u) as [[|n|n] d]; destruct (Qred v) as [[|n'|n'] d'].
  - apply Qle_refl.
  - pose proof (nearest_pos n' d'). lra.
  - exfalso. destruct Hv as [_ Sv]. lra.
  - exfalso. destruct Hu as [_ Su]. lra.
  - destruct Hu as [Eu _], Hv as [Ev _]. apply nearest_mono. by rewrite <- Eu, <- Ev.
  - exfalso. destruct Hu as [_ Su], Hv as [_ Sv]. lra.
  - pose proof (nearest_pos n d). lra.
  - pose proof (nearest_pos n d). pose proof (nearest_pos n' d'). lra.
  - destruct Hu as [Eu _], Hv as [Ev _].
    assert (Z.pos n' # d' <= Z.pos n # d) by lra.
    pose proof (nearest_mono n' d' n d). lra.
Qed.

Lemma binary64_nonneg (u : Q) : 0 <= u -> 0 <= binary64 u.
Proof. intros H. apply (binary64_mono 0 u H). Qed.

Lemma binary64_one : binary64 1.0 == 1.
Proof. vm_compute. reflexivity. Qed.

Lemma Math_round_nonneg (u : Q) : 0 <= u -> 0 <= Math_round u.
Proof.
  intros H. unfold Math_round. change 0 with (inject_Z 0).
  rewrite <- Zle_Qle. change 0%Z with (Qfloor 0). apply Qfloor_resp_le. lra.
Qed.

Lemma Number_mul_nonneg (u v : Q) : 0 <= u -> 0 <= v -> 0 <= Number_mul u v.
Proof.
  intros Hu Hv. apply binary64_nonneg.
  apply binary64_nonneg in Hu, Hv. nra.
Qed.

Lemma Number_sub_nonneg (u v : Q) : v <= u -> 0 <= Number_sub u v.
Proof.
  intros H. apply binary64_nonneg. apply binary64_mono in H. lra.
Qed.

(** The sizes the script computes are not negative when the count is
    not and the ratio lies in [0, 1]. *)
Lemma sizes_nonneg (N r : Q) :
  0 <= N -> 0 <= r -> r <= 1 ->
  0 <= Math_round (Number_mul N (Number_sub 1.0 r))
  /\ 0 <= Math_round (Number_mul N r).
Proof.
  intros HN H0 H1. split; apply Math_round_nonneg, Number_mul_nonneg; try done.
  apply Number_sub_nonneg. lra.
Qed.

Lemma Number_mul_proper (u u' v v' : Q) :
  u == u' -> v == v' -> Number_mul u v = Number_mul u' v'.
Proof.
  intros Eu Ev. unfold Number_mul.
  by rewrite (binary64_proper u u' Eu), (binary64_proper v v' Ev).
Qed.

Lemma Number_sub_proper (u u' v v' : Q) :
  u == u' -> v == v' -> Number_sub u v = Number_sub u' v'.
Proof.
  intros Eu Ev. unfold Number_sub.
  by rewrite (binary64_proper u u' Eu), (binary64_proper v v' Ev).
Qed.

(** The products the script rounds for 100 particles and a ratio of a
    tenth: binary64 gives 90 and 10, as exact arithmetic does. *)
Lemma sizes_for_100_and_a_tenth (N r : Q) :
  N == 100 -> r == 0.1 ->
  Math_round (Number_mul N (Number_sub 1.0 r)) == 90
  /\ Math_round (Number_mul N r) == 10.
Proof.
  intros EN Er.
  rewrite (Number_sub_proper 1.0 1.0 r 0.1 (Qeq_refl _) Er).
  rewrite (Number_mul_proper N 100 _ _ EN (Qeq_refl _)).
  rewrite (Number_mul_proper N 100 r 0.1 EN Er).
  split; vm_compute; reflexivity.
Qed.

(** On these counts and ratios, the ratio, the two products and the
    difference computed by [binary64] are the numbers the Standard
    Library's binary64 operations give. *)
Example binary64_agrees_with_SpecFloat :
  Forall (fun '(N, n, d) =>
            let q := inject_Z n / inject_Z d in
            let r := SFquotient n d in
            let one := SFquotient 1 1 in
            let mul := SFmul 53 1024 in
            let sub := SFsub 53 1024 in
            binary64 q == SF2Q r /\
            Number_sub 1.0 q == SF2Q (sub one r) /\
            Number_mul (inject_Z N) q == SF2Q (mul (SFquotient N 1) r) /\
            Number_mul (inject_Z N) (Number_sub 1.0 q)
            == SF2Q (mul (SFquotient N 1) (sub one r)))
         [ (2000, 5, 100); (100, 1, 10); (10, 3, 10); (5, 9, 10); (5, 3, 10);
           (10, 105, 100); (5, - 1, 10); (999999, 37, 100); (123457, 1, 3) ]%Z.
Proof. repeat constructor; vm_compute; reflexivity. Qed.

(** Rounding is felt: for 5 particles and a ratio of 0.9 the script
    builds no snow and 5 sprites, where exact arithmetic would round
    0.5 up to one snow particle; for a ratio of 0.3 it builds 4 and 2. *)
Example sizes_for_5_particles :
  Math_round (Number_mul 5 (Number_sub 1.0 0.9)) == 0 /\
  Math_round (Number_mul 5 0.9) == 5 /\
  Math_round (5 * (1.0 - 0.9)) == 1 /\
  Math_round (Number_mul 5 (Number_sub 1.0 0.3)) == 4 /\
  Math_round (Number_mul 5 0.3) == 2.
Proof. repeat split; vm_compute; reflexivity. Qed.


Lemma generateUUID_run (w : World) : generateUUID w = (Normal tt, advance 4 w).
Proof. reflexivity. Qed.

(** Unfolds the updates of a world that is written out. *)
Ltac written_out :=
  cbv beta iota zeta delta
    [ upd_heap advance set_heap upd_host set_host set_drawn set_nextId
      set_geometries options host globals heap drawn random nextId geometries
      materials disposedGeometries disposedMaterials calls scale attributes
      array itemSize count version l_position l_velocityY l_amplitudeX l_angle
      Float32BufferAttribute isWebGLAvailable visualViewport devicePixelRatio
      elapsed byId body resizeListeners frameRequests console ].

Lemma newParticleSystem_run (v : Revision) (material : nat) (particleCount : Q) (w : World) :
  (0 <= Qtruncate particleCount)%Z ->
  newParticleSystem v material particleCount w =
  (Normal {| id := S (nextId (heap w)); geometry := nextId (heap w); material := material |},
   after_newParticleSystem v particleCount w).
Proof.
  intros Hpc.
  destruct w as [o [ok vp dpr rnd d el bi bo rl fr co] g [nid gs ms dg dm cl]].
  unfold newParticleSystem, after_newParticleSystem.
  cbv [new_BufferGeometry new_Points fresh Float32Array ToIndex].
  cbv [mbind M_bind mret M_ret gets modify throw defined].
  rewrite generateUUID_run.
  destruct (Z.ltb_spec (Qtruncate particleCount) 0) as [?|_]; [lia|].
  rewrite particles_run.
  unfold turns. rewrite length_seq.
  set (n := Z.to_nat (Qceiling particleCount)).
  set (len := Z.to_nat (Qtruncate particleCount)).
  clearbody n len.
  do 2 (erewrite setAttribute_run by (written_out; apply lookup_insert_eq)).
  destruct v.
  - do 3 (erewrite setAttribute_run by (written_out; apply lookup_insert_eq)).
    erewrite needsUpdate_run;
      [| written_out; apply lookup_insert_eq
       | cbn [attributes]; rewrite !lookup_insert; repeat case_decide; simplify_eq; done ].
    rewrite generateUUID_run. written_out.
    rewrite !insert_insert_eq, attributes_plain_order, fill_repeat.
    replace (4 + (6 * n + (4 + d)))%nat with (8 + 6 * n + d)%nat by lia.
    reflexivity.
  - do 3 (erewrite setAttribute_run by (written_out; apply lookup_insert_eq)).
    rewrite generateUUID_run. written_out.
    rewrite !insert_insert_eq, fill_repeat.
    replace (4 + (6 * n + (4 + d)))%nat with (8 + 6 * n + d)%nat by lia.
    reflexivity.
Qed.

(** A negative length stops [newParticleSystem] at its second statement,
    when only the empty geometry has been created. *)
Lemma newParticleSystem_negative (v : Revision) (material : nat) (particleCount : Q) (w : World) :
  (Qtruncate particleCount < 0)%Z ->
  newParticleSystem v material particleCount w =
  (Throw RangeError,
   upd_heap (fun h =>
     set_nextId (S (nextId (heap w)))
       (set_geometries (<[nextId (heap w) := {| attributes := ∅ |}]> (geometries h)) h))
     (advance 4 w)).
Proof.
  intros Hpc. unfold newParticleSystem.
  cbv [new_BufferGeometry fresh Float32Array ToIndex].
  cbv [mbind M_bind mret M_ret gets modify throw defined].
  rewrite generateUUID_run.
  destruct (Z.ltb_spec (Qtruncate particleCount) 0) as [_|?]; [|lia].
  reflexivity.
Qed.

(** The attributes of a freshly built particle system. *)
Lemma attribute_after_newParticleSystem v particleCount w p name :
  geometry p = nextId (heap w) ->
  attribute (after_newParticleSystem v particleCount w) p name =
  attributes
    (built (options w) (random (host w)) v (scale (globals w))
       (Z.to_nat (Qtruncate particleCount))
       (starts (4 + drawn (host w)) (Z.to_nat (Qceiling particleCount)))) !! name.
Proof.
  intros Hp. unfold attribute, after_newParticleSystem.
  cbn [heap upd_heap set_heap geometries set_nextId set_geometries].
  by rewrite Hp, lookup_insert_eq.
Qed.

Lemma built_position o rnd v sc len ks :
  attributes (built o rnd v sc len ks) !! "position"
  = Some (Float32BufferAttribute (flat_map (sample_position o rnd) ks) 3).
Proof. reflexivity. Qed.

Lemma built_scale o rnd v sc len ks :
  attributes (built o rnd v sc len ks) !! "scale"
  = Some {| array := repeat sc len; itemSize := 1;
            count := inject_Z (Z.of_nat (length (repeat sc len))) / 1;
            version := match v with Plain => 1%nat | Panel => 0%nat end |}.
Proof. reflexivity. Qed.

Lemma built_velocityY o rnd v sc len ks :
  attributes (built o rnd v sc len ks) !! "velocityY"
  = Some (Float32BufferAttribute (List.map (sample_velocityY o rnd) ks) 1).
Proof. reflexivity. Qed.

Lemma built_amplitudeX o rnd v sc len ks :
  attributes (built o rnd v sc len ks) !! "amplitudeX"
  = Some (Float32BufferAttribute (List.map (sample_amplitudeX o rnd) ks) 1).
Proof. reflexivity. Qed.

Lemma built_angle o rnd v sc len ks :
  attributes (built o rnd v sc len ks) !! "angle"
  = Some (Float32BufferAttribute (List.map (sample_angle o rnd) ks) 1).
Proof. reflexivity. Qed.

Lemma built_names o rnd v sc len ks name :
  is_Some (attributes (built o rnd v sc len ks) !! name) ->
  name ∈ ["position"; "scale"; "velocityY"; "amplitudeX"; "angle"].
Proof.
  unfold built. cbn [attributes]. rewrite !lookup_insert, lookup_empty.
  repeat case_decide; subst; intros [? ?]; try discriminate; set_solver.
Qed.

Lemma length_sample_positions o rnd ks :
  length (flat_map (sample_position o rnd) ks) = (3 * length ks)%nat.
Proof. induction ks as [|k ks IH]; cbn in *; [done | rewrite IH; lia]. Qed.

Lemma count_of_nat (k n : nat) (q : Q) :
  q == inject_Z (Z.of_nat k) -> k <> 0%nat ->
  inject_Z (Z.of_nat (k * n)) / q == inject_Z (Z.of_nat n).
Proof.
  intros -> Hk. rewrite Nat2Z.inj_mul, inject_Z_mult. field.
  change 0 with (inject_Z 0). rewrite inject_Z_injective. lia.
Qed.

Lemma count_one (n : nat) : inject_Z (Z.of_nat n) / 1 == inject_Z (Z.of_nat n).
Proof. field. Qed.

(** [newParticleSystem] on a count [n]: it returns, and the geometry of
    the object it returns is [built] for [n] scale slots and [n]
    particles. *)
Lemma newParticleSystem_count (v : Revision) (material n : nat) (w : World) :
  exists p w',
    newParticleSystem v material (inject_Z (Z.of_nat n)) w = (Normal p, w') /\
    w' = after_newParticleSystem v (inject_Z (Z.of_nat n)) w /\
    geometry p = nextId (heap w) /\
    forall name,
      attribute w' p name =
      attributes (built (options w) (random (host w)) v (scale (globals w)) n
                    (starts (4 + drawn (host w)) n)) !! name.
Proof.
  assert (Hn : (0 <= Qtruncate (inject_Z (Z.of_nat n)))%Z) by (rewrite Qtruncate_Z; lia).
  do 2 eexists. split; [by apply newParticleSystem_run|].
  split; [reflexivity|]. split; [reflexivity|].
  intros name. rewrite attribute_after_newParticleSystem by reflexivity.
  by rewrite Qtruncate_Z, Qceiling_Z, Nat2Z.id.
Qed.

(** C10.  For a count [n], the geometry [newParticleSystem] builds has
    exactly the attributes position, scale, velocityY, amplitudeX and
    angle; position holds [3 * n] numbers with item size 3, each of the
    others holds [n] numbers with item size 1, and every attribute
    reports the count [n]. *)
Theorem newParticleSystem_attributes_agree_on_count
    (v : Revision) (material n : nat) (w : World) :
  exists p w' pos sca vel amp ang,
    newParticleSystem v material (inject_Z (Z.of_nat n)) w = (Normal p, w') /\
    attribute w' p "position" = Some pos /\
    attribute w' p "scale" = Some sca /\
    attribute w' p "velocityY" = Some vel /\
    attribute w' p "amplitudeX" = Some amp /\
    attribute w' p "angle" = Some ang /\
    (forall name, is_Some (attribute w' p name) ->
       name ∈ ["position"; "scale"; "velocityY"; "amplitudeX"; "angle"]) /\
    length (array pos) = (3 * n)%nat /\
    itemSize pos == 3 /\
    count pos == inject_Z (Z.of_nat n) /\
    Forall (fun a => length (array a) = n /\ itemSize a == 1
                     /\ count a == inject_Z (Z.of_nat n))
           [sca; vel; amp; ang].
Proof.
  destruct (newParticleSystem_count v material n w) as (p & w' & Hrun & _ & _ & E).
  exists p, w'. do 5 eexists. split; [exact Hrun|].
  rewrite !E.
  split; [apply built_position|]. split; [apply built_scale|].
  split; [apply built_velocityY|]. split; [apply built_amplitudeX|].
  split; [apply built_angle|].
  split; [intros name; rewrite E; apply built_names|].
  split; [cbn; by rewrite length_sample_positions, starts_length|].
  split; [reflexivity|].
  split.
  - cbn. rewrite length_sample_positions, starts_length.
    by apply (count_of_nat 3 n).
  - repeat constructor; cbn;
      rewrite ?repeat_length, ?length_map, ?starts_length; try reflexivity;
      apply count_one.
Qed.

(** C2, as the code has it.  [newParticleSystem] returns for every
    count that is not negative, and for the count 0 every attribute
    buffer it builds is empty; a negative count is not taken for zero:
    the allocation of the scale buffer throws a RangeError. *)
Theorem newParticleSystem_throws_exactly_on_negative_count
    (v : Revision) (material : nat) (n : Z) (w : World) :
  ((0 <= n)%Z ->
     exists p w',
       newParticleSystem v material (inject_Z n) w = (Normal p, w') /\
       (n = 0%Z ->
        Forall (fun name => exists a, attribute w' p name = Some a /\ array a = [])
               ["position"; "scale"; "velocityY"; "amplitudeX"; "angle"])) /\
  ((n < 0)%Z ->
     fst (newParticleSystem v material (inject_Z n) w) = Throw RangeError).
Proof.
  split.
  - intros Hn.
    destruct (newParticleSystem_count v material (Z.to_nat n) w)
      as (p & w' & Hrun & _ & _ & E).
    rewrite Z2Nat.id in Hrun by exact Hn.
    exists p, w'. split; [exact Hrun|].
    intros ->. change (Z.to_nat 0) with 0%nat in E.
    repeat constructor; rewrite E; eexists; (split; [reflexivity|reflexivity]).
  - intros Hn. rewrite newParticleSystem_negative; [reflexivity|].
    by rewrite Qtruncate_Z.
Qed.

Lemma newParticleSystem_throws_exactly_on_negative_count_witness :
  (exists p w',
     newParticleSystem Panel 0 (inject_Z 0) (example_page true (default_options Panel))
     = (Normal p, w') /\
     (0%Z = 0%Z ->
      Forall (fun name => exists a, attribute w' p name = Some a /\ array a = [])
             ["position"; "scale"; "velocityY"; "amplitudeX"; "angle"])) /\
  fst (newParticleSystem Panel 0 (inject_Z (- 1))
         (example_page true (default_options Panel))) = Throw RangeError.
Proof.
  split.
  - apply (proj1 (newParticleSystem_throws_exactly_on_negative_count
                    Panel 0 0 (example_page true (default_options Panel)))).
    lia.
  - apply (proj2 (newParticleSystem_throws_exactly_on_negative_count
                    Panel 0 (- 1) (example_page true (default_options Panel)))).
    lia.
Defined.

(** C2, as stated, fails: with the count -1 the generator throws instead
    of building empty buffers, and a ratio of 1.5 makes the script itself
    stop with that exception. *)
Lemma negative_count_is_not_taken_for_zero :
  fst (newParticleSystem Panel 0 (- 1) (example_page true (default_options Panel)))
  = Throw RangeError /\
  snow_count (example_options Panel 10 1.5) == - 5 /\
  fst (main Panel (example_page true (example_options Panel 10 1.5)))
  = Throw RangeError.
Proof. split; [|split]; vm_compute; reflexivity. Qed.

Lemma example_random (ok : bool) : unit_interval (random (example_host ok)).
Proof.
  intros k. cbn [random example_host].
  pose proof (Nat.mod_upper_bound k 7 ltac:(lia)) as Hk.
  assert (E : inject_Z (Z.of_nat (k mod 7)) / 7 == Z.of_nat (k mod 7) # 7)
    by (unfold Qdiv, Qeq; cbn; lia).
  rewrite E. unfold Qle, Qlt. cbn. lia.
Qed.

Lemma sample_velocityY_within (o : Options) (rnd : nat -> Q) (k : nat) :
  unit_interval rnd -> - 1 <= velocityY o ->
  - (velocityY o + 1) <= sample_velocityY o rnd k /\
  sample_velocityY o rnd k <= Qmin (- velocityY o + 1) 0.
Proof.
  intros Hr Hv. destruct (Hr (3 + k)%nat) as [H0 H1].
  unfold sample_velocityY, Math_min.
  assert (Hle : - velocityY o - 1 <= Qmin (- velocityY o + 1) 0).
  { destruct (Q.min_spec (- velocityY o + 1) 0) as [[_ ->]|[_ ->]]; lra. }
  destruct (randFloat_within _ _ _ Hle H0 H1). split; lra.
Qed.

Lemma sample_amplitudeX_within (o : Options) (rnd : nat -> Q) (k : nat) :
  unit_interval rnd -> - 1 <= amplitudeX o ->
  Qmax (amplitudeX o - 1) 0 <= sample_amplitudeX o rnd k /\
  sample_amplitudeX o rnd k <= amplitudeX o + 1 /\
  0 <= sample_amplitudeX o rnd k.
Proof.
  intros Hr Ha. destruct (Hr (4 + k)%nat) as [H0 H1].
  unfold sample_amplitudeX, Math_max.
  assert (Hle : Qmax (amplitudeX o - 1) 0 <= amplitudeX o + 1).
  { destruct (Q.max_spec (amplitudeX o - 1) 0) as [[_ ->]|[_ ->]]; lra. }
  destruct (randFloat_within _ _ _ Hle H0 H1).
  pose proof (Q.le_max_r (amplitudeX o - 1) 0).
  repeat split; lra.
Qed.

(** C3.  When [Math.random] yields numbers of [0, 1) and the configured
    velocity [v] is at least -1, the velocity of every generated
    particle lies in [-(v + 1), min(-v + 1, 0)]; when the configured
    amplitude [a] is at least -1, the amplitude of every generated
    particle lies in [max(a - 1, 0), a + 1] and so is not negative.
    This covers 0 and every larger value of [v] and [a], whatever their
    size; -1 is the least value the panel gives either. *)
Theorem sampled_velocity_and_amplitude_within_bounds
    (v : Revision) (material n : nat) (w : World) :
  unit_interval (random (host w)) ->
  exists p w' vel amp,
    newParticleSystem v material (inject_Z (Z.of_nat n)) w = (Normal p, w') /\
    attribute w' p "velocityY" = Some vel /\
    attribute w' p "amplitudeX" = Some amp /\
    length (array vel) = n /\
    length (array amp) = n /\
    (- 1 <= velocityY (options w) ->
     Forall (fun y => - (velocityY (options w) + 1) <= y
                      /\ y <= Qmin (- velocityY (options w) + 1) 0)
            (array vel)) /\
    (- 1 <= amplitudeX (options w) ->
     Forall (fun x => Qmax (amplitudeX (options w) - 1) 0 <= x
                      /\ x <= amplitudeX (options w) + 1
                      /\ 0 <= x)
            (array amp)).
Proof.
  intros Hr.
  destruct (newParticleSystem_count v material n w) as (p & w' & Hrun & _ & _ & E).
  exists p, w'. do 2 eexists. split; [exact Hrun|].
  rewrite !E.
  split; [apply built_velocityY|]. split; [apply built_amplitudeX|].
  cbn [array Float32BufferAttribute].
  rewrite !length_map, starts_length.
  split; [reflexivity|]. split; [reflexivity|].
  split; intros Hge; apply Forall_forall; intros x Hx;
    apply list_elem_of_In, in_map_iff in Hx; destruct Hx as (k & <- & _).
  - by apply sample_velocityY_within.
  - by apply sample_amplitudeX_within.
Qed.

Lemma sampled_velocity_and_amplitude_within_bounds_witness :
  exists p w' vel amp,
    newParticleSystem Panel 0 (inject_Z (Z.of_nat 3))
      (example_page true (default_options Panel)) = (Normal p, w') /\
    attribute w' p "velocityY" = Some vel /\
    attribute w' p "amplitudeX" = Some amp /\
    Forall (fun y => - (2 + 1) <= y /\ y <= Qmin (- (2) + 1) 0) (array vel) /\
    Forall (fun x => Qmax (4 - 1) 0 <= x /\ x <= 4 + 1 /\ 0 <= x) (array amp).
Proof.
  destruct (sampled_velocity_and_amplitude_within_bounds Panel 0 3
              (example_page true (default_options Panel)) (example_random true))
    as (p & w' & vel & amp & Hrun & Hv & Ha & _ & _ & Hvel & Hamp).
  exists p, w', vel, amp.
  split; [exact Hrun|]. split; [exact Hv|]. split; [exact Ha|].
  split; [apply Hvel | apply Hamp]; vm_compute; discriminate.
Defined.


Lemma sample_positions_lookup (o : Options) (rnd : nat -> Q) :
  forall (ks : list nat) (i j k : nat),
    ks !! i = Some k -> (j < 3)%nat ->
    flat_map (sample_position o rnd) ks !! (3 * i + j)%nat
    = sample_position o rnd k !! j.
Proof.
  induction ks as [|k0 ks IH]; intros i j k Hk Hj; [done|].
  destruct i as [|i]; cbn [flat_map].
  - injection Hk as ->. rewrite lookup_app_l by (cbn; lia). f_equal.
  - rewrite lookup_app_r by (cbn; lia).
    replace (3 * S i + j - length (sample_position o rnd k0))%nat
      with (3 * i + j)%nat by (cbn; lia).
    by apply IH.
Qed.

(** C4.  When [Math.random] yields numbers of [0, 1) and the three
    ranges are not negative, the position of every generated particle
    lies within half the range on either side of 0 on each axis; each
    coordinate is computed from a draw of its own, the [j]-th of the six
    draws made for its particle, which follow the four made for the
    identifier of the geometry. *)
Theorem sampled_positions_within_half_range
    (v : Revision) (material n : nat) (w : World) :
  unit_interval (random (host w)) ->
  0 <= rangeX (options w) ->
  0 <= rangeY (options w) ->
  0 <= rangeZ (options w) ->
  exists p w' pos,
    newParticleSystem v material (inject_Z (Z.of_nat n)) w = (Normal p, w') /\
    attribute w' p "position" = Some pos /\
    length (array pos) = (3 * n)%nat /\
    forall i, (i < n)%nat ->
      let u j := random (host w) (j + (4 + drawn (host w) + 6 * i))%nat in
      let x := rangeX (options w) * (0.5 - u 0%nat) in
      let y := rangeY (options w) * (0.5 - u 1%nat) in
      let z := rangeZ (options w) * (0.5 - u 2%nat) in
      array pos !! (3 * i)%nat = Some x /\
      array pos !! (3 * i + 1)%nat = Some y /\
      array pos !! (3 * i + 2)%nat = Some z /\
      - (rangeX (options w) / 2) <= x /\ x <= rangeX (options w) / 2 /\
      - (rangeY (options w) / 2) <= y /\ y <= rangeY (options w) / 2 /\
      - (rangeZ (options w) / 2) <= z /\ z <= rangeZ (options w) / 2.
Proof.
  intros Hr HX HY HZ.
  destruct (newParticleSystem_count v material n w) as (p & w' & Hrun & _ & _ & E).
  exists p, w'. eexists. split; [exact Hrun|].
  rewrite E. split; [apply built_position|].
  cbn [array Float32BufferAttribute].
  split; [by rewrite length_sample_positions, starts_length|].
  intros i Hi.
  set (u := fun j => random (host w) (j + (4 + drawn (host w) + 6 * i))%nat).
  change (random (host w) (0 + (4 + drawn (host w) + 6 * i))) with (u 0%nat).
  change (random (host w) (1 + (4 + drawn (host w) + 6 * i))) with (u 1%nat).
  change (random (host w) (2 + (4 + drawn (host w) + 6 * i))) with (u 2%nat).
  pose proof (starts_lookup n (4 + drawn (host w)) i Hi) as Hk.
  split; [|split; [|split]].
  - replace (3 * i)%nat with (3 * i + 0)%nat by lia.
    by rewrite (sample_positions_lookup _ _ _ _ 0 _ Hk) by lia.
  - by rewrite (sample_positions_lookup _ _ _ _ 1 _ Hk) by lia.
  - by rewrite (sample_positions_lookup _ _ _ _ 2 _ Hk) by lia.
  - destruct (Hr (0 + (4 + drawn (host w) + 6 * i))%nat) as [? ?].
    destruct (Hr (1 + (4 + drawn (host w) + 6 * i))%nat) as [? ?].
    destruct (Hr (2 + (4 + drawn (host w) + 6 * i))%nat) as [? ?].
    destruct (randFloatSpread_within (rangeX (options w)) (u 0%nat)) as [? ?]; [done..|].
    destruct (randFloatSpread_within (rangeY (options w)) (u 1%nat)) as [? ?]; [done..|].
    destruct (randFloatSpread_within (rangeZ (options w)) (u 2%nat)) as [? ?]; [done..|].
    done.
Qed.

Lemma sampled_positions_within_half_range_witness :
  exists p w' pos,
    newParticleSystem Panel 0 (inject_Z (Z.of_nat 2))
      (example_page true (default_options Panel)) = (Normal p, w') /\
    attribute w' p "position" = Some pos /\
    exists x y z,
      array pos !! 3%nat = Some x /\
      array pos !! 4%nat = Some y /\
      array pos !! 5%nat = Some z /\
      - (400 / 2) <= x /\ x <= 400 / 2 /\
      - (400 / 2) <= y /\ y <= 400 / 2 /\
      - (100 / 2) <= z /\ z <= 100 / 2.
Proof.
  destruct (sampled_positions_within_half_range Panel 0 2
              (example_page true (default_options Panel)) (example_random true))
    as (p & w' & pos & Hrun & Hpos & _ & H);
    [vm_compute; discriminate..|].
  exists p, w', pos. split; [exact Hrun|]. split; [exact Hpos|].
  do 3 eexists. exact (H 1%nat ltac:(lia)).
Defined.

(** ** Running the script *)

(** Runs the straight-line part of a computation: unfolds the script's
    functions and the record updates, and leaves alone arithmetic, maps,
    the particle loop and [newParticleSystem]. *)
Ltac exec :=
  cbv beta iota zeta delta
    [ mbind M_bind mret M_ret gets modify throw defined fmap option_fmap option_map
      fresh the_material update_uniforms the_scene update_scene
      scene_add scene_remove the_camera update_camera the_renderer
      update_renderer renderer_render body_appendChild byId_appendChild
      addEventListener_resize requestAnimationFrame console_table stats_update
      geometry_dispose material_dispose called
      newParticleMaterial createGUI init render tick start_up main
      with_uTime with_rangeY with_children with_background with_fog new_Fog
      with_position_z with_aspect setSize setPixelRatio TextureLoader_load with_flipY
      upd_host upd_globals upd_heap advance after_newParticleSystem
      set_options set_host set_globals set_heap
      set_visualViewport set_drawn set_elapsed set_byId set_body
      set_resizeListeners set_frameRequests set_console
      set_windowWidth set_windowHeight set_windowAspectRatio set_scale set_scene
      set_camera set_renderer set_stats set_snowSprite set_sprite set_snowMat
      set_spriteMat set_gui
      set_nextId set_geometries set_materials set_disposedGeometries
      set_disposedMaterials set_calls
      options host globals heap
      isWebGLAvailable visualViewport devicePixelRatio random drawn elapsed byId
      body resizeListeners frameRequests console
      windowWidth windowHeight windowAspectRatio scale scene camera renderer stats
      snowSprite sprite snowMat spriteMat gui
      nextId geometries materials disposedGeometries disposedMaterials calls
      background scene_fog children
      id geometry material
      remove_first ].

(** Reads an observation off a world that is written out. *)
Ltac observe :=
  unfold particles, attribute, systems;
  cbn [ globals heap scene geometries children ].

Ltac lookups :=
  repeat (rewrite lookup_insert_eq || rewrite lookup_insert_ne by lia).

(** The count of the position attribute of a built geometry. *)
Lemma built_particles o rnd v sc len d (n : nat) :
  exists c,
    count <$> attributes (built o rnd v sc len (starts d n)) !! "position" = Some c /\
    c == inject_Z (Z.of_nat n).
Proof.
  eexists. split; [by rewrite built_position|].
  cbn. rewrite length_sample_positions, starts_length.
  by apply (count_of_nat 3 n).
Qed.

Lemma built_particles_round o rnd v sc len d (u : Q) :
  0 <= u ->
  exists c,
    count <$> attributes
                (built o rnd v sc len
                   (starts d (Z.to_nat (Qceiling (Math_round u))))) !! "position"
    = Some c /\
    c == Math_round u /\ 0 <= c.
Proof.
  intros Hu.
  destruct (built_particles o rnd v sc len d (Z.to_nat (Qceiling (Math_round u))))
    as (c & Hc & E).
  exists c. split; [exact Hc|].
  rewrite Qceiling_round, Z2Nat.id in E by by apply round_nonneg.
  split; [exact E|].
  rewrite E. change 0 with (inject_Z 0). rewrite <- Zle_Qle. by apply round_nonneg.
Qed.

(** C1.  When the capability check succeeds, the particle count [N] is
    not negative and the ratio [r] lies in [0, 1], the script builds a
    scene with exactly two particle systems: first the snow, of
    round(N * (1 - r)) particles, then the sprites, of round(N * r)
    particles, the difference and the products being those of binary64
    arithmetic; neither count is negative, and for N = 100 and r = 0.1
    they are 90 and 10. *)
Theorem scene_has_snow_and_sprite_systems_of_rounded_sizes (v : Revision) (w : World) :
  isWebGLAvailable (host w) = true ->
  0 <= particleCount (options w) ->
  0 <= ratio (options w) ->
  ratio (options w) <= 1 ->
  exists w' snow sprite a b,
    main v w = (Normal tt, w') /\
    systems w' = [snow; sprite] /\
    id snow <> id sprite /\
    geometry snow <> geometry sprite /\
    Some (material snow) = snowMat (globals w') /\
    Some (material sprite) = spriteMat (globals w') /\
    particles w' snow = Some a /\
    particles w' sprite = Some b /\
    a == Math_round (Number_mul (particleCount (options w))
                       (Number_sub 1.0 (ratio (options w)))) /\
    b == Math_round (Number_mul (particleCount (options w)) (ratio (options w))) /\
    0 <= a /\ 0 <= b /\
    (particleCount (options w) == 100 -> ratio (options w) == 0.1 ->
     a == 90 /\ b == 10).
Proof.
  intros Hok HN Hr0 Hr1.
  assert (Hs : 0 <= Number_mul (particleCount (options w))
                      (Number_sub 1.0 (ratio (options w))))
    by (apply Number_mul_nonneg, Number_sub_nonneg; [done | lra]).
  assert (Hp : 0 <= Number_mul (particleCount (options w)) (ratio (options w)))
    by (by apply Number_mul_nonneg).
  pose proof (round_nonneg _ Hs) as H1.
  pose proof (round_nonneg _ Hp) as H2.
  destruct w as [o [ok vp dpr rnd d el bi bo rl fr co] g [nid gs ms dg dm cl]].
  change (ok = true) in Hok. subst ok.
  change (options _) with o in *.
  set (s1 := Number_mul (particleCount o) (Number_sub 1.0 (ratio o))) in *.
  set (s2 := Number_mul (particleCount o) (ratio o)) in *.
  set (len1 := Z.to_nat (Qtruncate (Math_round s1))).
  set (len2 := Z.to_nat (Qtruncate (Math_round s2))).
  destruct (built_particles_round o rnd v (snd vp) len1 (4 + d) _ Hs) as (a & Ha & Ea & Ha0).
  destruct (built_particles_round o rnd v (snd vp) len2
              (4 + (8 + 6 * Z.to_nat (Qceiling (Math_round s1)) + d))
              _ Hp) as (b & Hb & Eb & Hb0).
  destruct v, (fog o) eqn:Hfog.
  all: do 3 eexists; exists a, b.
  all: split;
    [ exec; rewrite Hfog; exec; fold s1 s2;
      rewrite newParticleSystem_run by (by rewrite Qtruncate_round); exec;
      rewrite newParticleSystem_run by (by rewrite Qtruncate_round); exec;
      lookups; exec; lookups; exec;
      cbn [app Nat.eqb]; rewrite (proj2 (Nat.eqb_neq _ _)) by lia;
      reflexivity |].
  all: split; [observe; cbn [app]; reflexivity|].
  all: split; [cbn; lia|].
  all: split; [cbn; lia|].
  all: split; [reflexivity|].
  all: split; [reflexivity|].
  all: split; [observe; cbn [geometry]; lookups; exact Ha|].
  all: split; [observe; cbn [geometry]; lookups; exact Hb|].
  all: split; [exact Ea|].
  all: split; [exact Eb|].
  all: split; [exact Ha0|].
  all: split; [exact Hb0|].
  all: intros EN Er; rewrite Ea, Eb.
  all: exact (sizes_for_100_and_a_tenth _ _ EN Er).
Qed.

Lemma scene_has_snow_and_sprite_systems_of_rounded_sizes_witness :
  exists w' snow sprite a b,
    main Panel (example_page true (example_options Panel 100 0.1)) = (Normal tt, w') /\
    systems w' = [snow; sprite] /\
    particles w' snow = Some a /\
    particles w' sprite = Some b /\
    a == 90 /\ b == 10.
Proof.
  destruct (scene_has_snow_and_sprite_systems_of_rounded_sizes Panel
              (example_page true (example_options Panel 100 0.1)))
    as (w' & snow & sprite & a & b & Hrun & Hsys & _ & _ & _ & _ & Ha & Hb
        & _ & _ & _ & _ & H);
    [reflexivity | vm_compute; discriminate..|].
  exists w', snow, sprite, a, b.
  split; [exact Hrun|]. split; [exact Hsys|]. split; [exact Ha|]. split; [exact Hb|].
  apply H; reflexivity.
Defined.

(** ** What a computation leaves alone *)

Section Preserves.

Context {B : Type} (f : World -> B).

Lemma preserves_ret {A} (a : A) : preserves f (mret a).
Proof. by intros w. Qed.

Lemma preserves_throw {A} (e : Exn) : preserves f (throw e : M A).
Proof. by intros w. Qed.

Lemma preserves_gets {A} (g : World -> A) : preserves f (gets g).
Proof. by intros w. Qed.

Lemma preserves_defined {A} (o : option A) : preserves f (defined o).
Proof. by destruct o; intros w. Qed.

Lemma preserves_modify (g : World -> World) :
  (forall w, f (g w) = f w) -> preserves f (modify g).
Proof. intros H w. apply H. Qed.

Lemma preserves_bind {A C} (c : M A) (k : A -> M C) :
  preserves f c -> (forall a, preserves f (k a)) -> preserves f (c ≫= k).
Proof.
  intros Hc Hk w. rewrite bind_run. specialize (Hc w).
  destruct (c w) as [[a|e] w1]; cbn in *; [|done].
  by rewrite Hk.
Qed.

Lemma preserves_foldM {A S} (body : A -> S -> M S) (l : list A) :
  (forall i s, preserves f (body i s)) -> forall s, preserves f (foldM body l s).
Proof.
  intros Hb. induction l as [|i l IH]; intros s; cbn [foldM].
  - apply preserves_ret.
  - apply preserves_bind; [apply Hb | apply IH].
Qed.

Lemma preserves_while (fuel : nat) (cond : M bool) (body : M unit) :
  preserves f cond -> preserves f body -> preserves f (while fuel cond body).
Proof.
  intros Hc Hb. induction fuel as [|fuel IH]; cbn [while].
  - apply preserves_bind; [done|]. intros []; [apply preserves_throw | apply preserves_ret].
  - apply preserves_bind; [done|]. intros []; [|apply preserves_ret].
    apply preserves_bind; [done|]. intros _. apply IH.
Qed.

End Preserves.

Lemma body_appendChild_preserves_messages (e : Element) :
  is_message e = false -> preserves shown_messages (body_appendChild e).
Proof.
  intros He w. unfold shown_messages, body_appendChild. cbn.
  rewrite List.filter_app. cbn. by rewrite He, app_nil_r.
Qed.

(** Breaks a computation into its statements and shows that each leaves
    the observation alone; record updates are settled by computation. *)
Ltac head_of c :=
  lazymatch c with
  | ?h _ => head_of h
  | _ => c
  end.

Ltac preserve_step :=
  lazymatch goal with
  | |- preserves _ (mret _) => apply preserves_ret
  | |- preserves _ (throw _) => apply preserves_throw
  | |- preserves _ (gets _) => apply preserves_gets
  | |- preserves _ (defined _) => apply preserves_defined
  | |- preserves _ (modify _) => apply preserves_modify; intros ?; reflexivity
  | |- preserves _ (mbind _ _) => apply preserves_bind; [|intros ?]
  | |- preserves _ (foldM _ _ _) => apply preserves_foldM; intros ? ?
  | |- preserves _ (while _ _ _) => apply preserves_while
  | |- preserves _ (match ?x with _ => _ end) => destruct x
  | |- preserves shown_messages (body_appendChild _) =>
      apply body_appendChild_preserves_messages; reflexivity
  | |- preserves _ Math_random => intros ?; reflexivity
  | |- preserves _ fresh => intros ?; reflexivity
  | |- preserves _ ?c => let h := head_of c in unfold h
  end.

Ltac preserve := repeat preserve_step.

Lemma start_up_preserves_messages v : preserves shown_messages (start_up v).
Proof.
  preserve.
Qed.

(** C9.  When the capability check fails and the page has an element
    with the id [container], the script returns after appending the
    message to that element and does nothing else: its variables (scene,
    camera, renderer and the rest) are left as they were, no three.js
    object is allocated, no frame callback or resize listener is
    registered and nothing is added to the body.  When the check
    succeeds, the children of the elements reachable by id are left as
    they were and no message is added to the body, however the script
    ends. *)
Theorem capability_check_gates_start_up (v : Revision) (w : World) :
  (forall kids,
     isWebGLAvailable (host w) = false ->
     byId (host w) !! "container" = Some kids ->
     exists w',
       main v w = (Normal tt, w') /\
       byId (host w') = <["container" := kids ++ [WebGLErrorMessage]]> (byId (host w)) /\
       globals w' = globals w /\
       heap w' = heap w /\
       frameRequests (host w') = frameRequests (host w) /\
       resizeListeners (host w') = resizeListeners (host w) /\
       body (host w') = body (host w) /\
       options w' = options w) /\
  (isWebGLAvailable (host w) = true ->
   shown_messages (snd (main v w)) = shown_messages w).
Proof.
  split.
  - intros kids Hok Hc.
    destruct w as [o [ok vp dpr rnd d el bi bo rl fr co] g hp].
    cbn in Hok, Hc. subst ok.
    eexists. split.
    + exec. rewrite Hc. reflexivity.
    + by repeat split.
  - intros Hok. unfold main. rewrite bind_run. unfold gets.
    rewrite Hok. apply (start_up_preserves_messages v).
Qed.

Lemma capability_check_gates_start_up_witness :
  (exists w',
     main Plain (example_page false (default_options Plain)) = (Normal tt, w') /\
     byId (host w') !! "container" = Some [WebGLErrorMessage] /\
     scene (globals w') = None /\
     camera (globals w') = None /\
     renderer (globals w') = None /\
     heap w' = empty_heap /\
     frameRequests (host w') = []) /\
  shown_messages (snd (main Panel (example_page true (default_options Panel))))
  = ({[ "container" := [] ]}, []).
Proof.
  split.
  - destruct (proj1 (capability_check_gates_start_up Plain
                       (example_page false (default_options Plain))) [])
      as (w' & Hrun & Hid & Hg & Hh & Hf & _); [reflexivity..|].
    exists w'. split; [exact Hrun|].
    rewrite Hid, Hg, Hh, Hf. by repeat split.
  - rewrite (proj2 (capability_check_gates_start_up Panel
                      (example_page true (default_options Panel)))); reflexivity.
Defined.

(** ** Resizing *)

Lemma the_scene_run w s : scene (globals w) = Some s -> the_scene w = (Normal s, w).
Proof. intros H. unfold the_scene. cbv [mbind M_bind gets defined]. by rewrite H. Qed.

(** Unfolds the plumbing of the monad only. *)
Ltac plumb :=
  cbv beta iota zeta delta [mbind M_bind mret M_ret gets modify throw defined].

Lemma Float32Array_run (len : Q) (w : World) :
  (0 <= Qtruncate len)%Z ->
  Float32Array len w = (Normal (repeat 0 (Z.to_nat (Qtruncate len))), w).
Proof.
  intros H. unfold Float32Array, ToIndex. plumb.
  by destruct (Z.ltb_spec (Qtruncate len) 0) as [?|_]; [lia|].
Qed.

Lemma alter_known {A} (f : A -> A) (i : nat) (x : A) (m : gmap nat A) :
  m !! i = Some x -> alter f i m = <[i := f x]> m.
Proof.
  intros H. apply map_eq. intros j.
  rewrite lookup_alter, lookup_insert. case_decide; [subst; by rewrite H | done].
Qed.

Lemma rescale_position v h g :
  attributes (rescale v h g) !! "position" = attributes g !! "position".
Proof.
  unfold rescale. destruct (attributes g !! "position") eqn:E; [|done].
  cbn. by rewrite lookup_insert_ne.
Qed.

Lemma rescale_other v h g name :
  name <> "scale" -> attributes (rescale v h g) !! name = attributes g !! name.
Proof.
  intros Hn. unfold rescale. destruct (attributes g !! "position"); [|done].
  cbn. by rewrite lookup_insert_ne.
Qed.

Lemma rescale_scale v h g pos :
  attributes g !! "position" = Some pos ->
  attributes (rescale v h g) !! "scale" = Some (new_scale v h pos).
Proof. intros E. unfold rescale. rewrite E. cbn. by rewrite lookup_insert_eq. Qed.

Lemma rescale_idem v h g : rescale v h (rescale v h g) = rescale v h g.
Proof.
  assert (E := rescale_position v h g).
  destruct (attributes g !! "position") as [pos|] eqn:Ep.
  - unfold rescale at 1. rewrite E. unfold rescale. rewrite Ep. cbn.
    by rewrite insert_insert_eq.
  - unfold rescale at 1. rewrite E. done.
Qed.

(** One turn of the loop rescales the geometry of the child it visits. *)
Lemma resize_child_run v i w s child g pos :
  scene (globals w) = Some s ->
  children s !! i = Some child ->
  geometries (heap w) !! geometry child = Some g ->
  attributes g !! "position" = Some pos ->
  (0 <= Qtruncate (count pos))%Z ->
  resize_child v i w =
  (Normal tt,
   upd_heap (fun h =>
     set_geometries (alter (rescale v (scale (globals w))) (geometry child) (geometries h)) h) w).
Proof.
  intros Hs Hc Hg Hp Hn. unfold resize_child.
  rewrite (bind_normal _ _ _ _ _ (the_scene_run w s Hs)). rewrite Hc.
  unfold getAttribute, the_geometry. plumb. rewrite Hg, Hp.
  rewrite (Float32Array_run _ _ Hn).
  erewrite setAttribute_run by exact Hg.
  unfold upd_heap. cbv beta.
  rewrite (alter_known _ _ _ _ Hg). unfold rescale. rewrite Hp.
  rewrite fill_repeat.
  destruct v.
  - reflexivity.
  - erewrite needsUpdate_run;
      [| cbn; apply lookup_insert_eq | cbn; apply lookup_insert_eq ].
    unfold upd_heap, set_heap, set_geometries. cbn.
    by rewrite !insert_insert_eq.
Qed.

Lemma has_position_inv w p :
  has_position w p = true ->
  exists g pos,
    geometries (heap w) !! geometry p = Some g /\
    attributes g !! "position" = Some pos /\
    (0 <= Qtruncate (count pos))%Z.
Proof.
  unfold has_position, attribute. intros H.
  destruct (geometries (heap w) !! geometry p) as [g|]; [|done].
  cbn in H. destruct (attributes g !! "position") as [pos|] eqn:E; [|done].
  exists g, pos. split; [done|]. split; [done|]. by apply Z.leb_le.
Qed.

Lemma has_position_alter v h gid w p :
  has_position
    (upd_heap (fun hp => set_geometries (alter (rescale v h) gid (geometries hp)) hp) w) p
  = has_position w p.
Proof.
  unfold has_position, attribute. cbn.
  rewrite lookup_alter. case_decide; [subst|done].
  destruct (geometries (heap w) !! geometry p) as [g|]; [|done].
  cbn. by rewrite rescale_position.
Qed.

Lemma upd_heap_geometries_twice (f1 f2 : gmap nat BufferGeometry -> gmap nat BufferGeometry) w :
  upd_heap (fun h => set_geometries (f2 (geometries h)) h)
    (upd_heap (fun h => set_geometries (f1 (geometries h)) h) w)
  = upd_heap (fun h => set_geometries (f2 (f1 (geometries h))) h) w.
Proof. reflexivity. Qed.

Lemma upd_heap_geometries_id w :
  upd_heap (fun h => set_geometries (geometries h) h) w = w.
Proof. by destruct w as [? ? ? []]. Qed.

Lemma forallb_pointwise {A} (f g : A -> bool) (l : list A) :
  (forall x, f x = g x) -> forallb f l = forallb g l.
Proof. intros H. induction l as [|x l IH]; cbn; [done | by rewrite H, IH]. Qed.

(** The loop of [onWindowResize] rescales the geometry of every child. *)
Lemma resize_loop_run v : forall (cs2 cs1 : list Points) (w : World) (s : Scene),
  scene (globals w) = Some s ->
  children s = cs1 ++ cs2 ->
  forallb (has_position w) cs2 = true ->
  forM (resize_child v) (seq (length cs1) (length cs2)) w =
  (Normal tt,
   upd_heap (fun h =>
     set_geometries (rescale_all v (scale (globals w)) cs2 (geometries h)) h) w).
Proof.
  induction cs2 as [|p cs2 IH]; intros cs1 w s Hs Hc Hall.
  - cbn. by rewrite upd_heap_geometries_id.
  - cbn [forallb] in Hall. apply andb_true_iff in Hall as [Hp Hall].
    destruct (has_position_inv _ _ Hp) as (g & pos & Hg & Hpos & Hn).
    cbn [length seq]. unfold forM in *. cbn [foldM].
    assert (Hi : children s !! length cs1 = Some p).
    { rewrite Hc. by rewrite list_lookup_middle. }
    rewrite (bind_normal _ _ _ _ _ (resize_child_run v _ w s p g pos Hs Hi Hg Hpos Hn)).
    set (w1 := upd_heap _ w).
    specialize (IH (cs1 ++ [p]) w1 s).
    rewrite length_app, Nat.add_1_r in IH. rewrite IH.
    + subst w1. by rewrite upd_heap_geometries_twice.
    + exact Hs.
    + by rewrite <- app_assoc.
    + subst w1. rewrite <- Hall. apply forallb_pointwise.
      intros q. apply has_position_alter.
Qed.

Lemma rescale_all_lookup v h : forall (cs : list Points) (gs : gmap nat BufferGeometry) gid,
  rescale_all v h cs gs !! gid =
  if decide (gid ∈ geometry <$> cs) then rescale v h <$> gs !! gid else gs !! gid.
Proof.
  induction cs as [|p cs IH]; intros gs gid.
  - cbn. rewrite decide_False; [done | apply not_elem_of_nil].
  - change (rescale_all v h (p :: cs) gs)
      with (rescale_all v h cs (alter (rescale v h) (geometry p) gs)).
    rewrite fmap_cons, IH, lookup_alter.
    destruct (decide (geometry p = gid)) as [<-|Hne].
    + rewrite (decide_True (P := _ ∈ _ :: _)) by (apply elem_of_cons; by left).
      destruct (gs !! geometry p); cbn; [|by case_decide].
      rewrite rescale_idem. by case_decide.
    + destruct (decide (gid ∈ geometry <$> cs)) as [Hin|Hnin].
      * by rewrite decide_True by (apply elem_of_cons; by right).
      * rewrite decide_False; [done|]. apply not_elem_of_cons. split; congruence.
Qed.

Lemma ready_inv w :
  ready w = true ->
  exists s c r,
    scene (globals w) = Some s /\ camera (globals w) = Some c /\
    renderer (globals w) = Some r /\
    forallb (has_position w) (children s) = true.
Proof.
  unfold ready, systems. intros H.
  repeat (apply andb_true_iff in H as [H ?]).
  destruct (scene (globals w)) as [s|]; [|done].
  destruct (camera (globals w)) as [c|]; [|done].
  destruct (renderer (globals w)) as [r|]; [|done].
  by exists s, c, r.
Qed.

(** C5.  In a state where start-up has succeeded, the resize handler
    returns; the scene keeps its particle systems; for each of them the
    scale attribute becomes a buffer with one slot per particle (the
    count of its position attribute), every slot holding the new
    viewport height; every other attribute, position, velocityY,
    amplitudeX and angle among them, is the attribute it was, and so is
    the particle count. *)
Theorem resize_rewrites_only_the_scale_buffers (v : Revision) (w : World) :
  ready w = true ->
  let h := snd (visualViewport (host w)) in
  exists w',
    onWindowResize v w = (Normal tt, w') /\
    systems w' = systems w /\
    forall p, p ∈ systems w ->
      (exists pos sca,
         attribute w p "position" = Some pos /\
         attribute w' p "scale" = Some sca /\
         length (array sca) = Z.to_nat (Qtruncate (count pos)) /\
         Forall (fun slot => slot = h) (array sca)) /\
      (forall name, name <> "scale" -> attribute w' p name = attribute w p name) /\
      particles w' p = particles w p.
Proof.
  intros Hready h.
  destruct (ready_inv w Hready) as (s & c & r & Hs & Hc & Hr & Hall).
  destruct w as [o [ok vp dpr rnd d el bi bo rl fr co]
                   [ww wh war sc scn cam rdr st ss sp sm pm gu] [nid gs ms dg dm cl]].
  cbn in Hs, Hc, Hr, h. subst scn cam rdr h.
  destruct s as [bg fg cs]. cbn [children] in Hall.
  unfold onWindowResize. exec.
  erewrite (resize_loop_run v cs [] _ {| background := bg; scene_fog := fg; children := cs |});
    [|reflexivity|reflexivity|exact Hall].
  exec.
  eexists. split; [reflexivity|].
  split; [reflexivity|].
  observe.
  intros p Hp.
  assert (Hin : geometry p ∈ geometry <$> cs) by (by apply list_elem_of_fmap_2).
  assert (Hpos : has_position
             {| options := o;
                host := {| isWebGLAvailable := ok; visualViewport := vp;
                           devicePixelRatio := dpr; random := rnd; drawn := d;
                           elapsed := el; byId := bi; body := bo;
                           resizeListeners := rl; frameRequests := fr; console := co |};
                globals := {| windowWidth := ww; windowHeight := wh;
                              windowAspectRatio := war; scale := sc;
                              scene := Some {| background := bg; scene_fog := fg;
                                               children := cs |};
                              camera := Some c; renderer := Some r; stats := st;
                              snowSprite := ss; sprite := sp; snowMat := sm;
                              spriteMat := pm; gui := gu |};
                heap := {| nextId := nid; geometries := gs; materials := ms;
                           disposedGeometries := dg; disposedMaterials := dm; calls := cl |} |} p = true).
  { rewrite forallb_forall in Hall. apply Hall. by apply list_elem_of_In. }
  destruct (has_position_inv _ _ Hpos) as (g & pos & Hg & Hpg & Hn).
  cbn in Hg.
  assert (E : forall name,
             rescale_all v vp.2 cs gs !! geometry p ≫= (fun g => attributes g !! name)
             = attributes (rescale v vp.2 g) !! name).
  { intros name. rewrite rescale_all_lookup, decide_True by exact Hin. by rewrite Hg. }
  split; [|split].
  - exists pos, (new_scale v vp.2 pos).
    split; [by rewrite Hg|].
    split; [rewrite E; by apply rescale_scale|].
    cbn. split; [apply repeat_length|].
    apply Forall_forall. intros x Hx. apply list_elem_of_In in Hx.
    by apply repeat_spec in Hx.
  - intros name Hname. rewrite E, Hg. cbn. by apply rescale_other.
  - rewrite E, Hg. cbn. by rewrite rescale_position.
Qed.

Lemma resize_rewrites_only_the_scale_buffers_witness :
  let w := upd_host (set_visualViewport (1024, 768)) (example_scene Panel 10 0.3) in
  exists w',
    onWindowResize Panel w = (Normal tt, w') /\
    length (systems w) = 2%nat /\
    forall p, p ∈ systems w ->
      exists pos sca,
        attribute w p "position" = Some pos /\
        attribute w' p "scale" = Some sca /\
        length (array sca) = Z.to_nat (Qtruncate (count pos)) /\
        Forall (fun slot => slot = 768) (array sca).
Proof.
  intros w.
  destruct (resize_rewrites_only_the_scale_buffers Panel w) as (w' & Hrun & _ & H);
    [vm_compute; reflexivity|].
  exists w'. split; [exact Hrun|]. split; [vm_compute; reflexivity|].
  intros p Hp. exact (proj1 (H p Hp)).
Defined.

(** ** Rebuilding *)

(** The loop of [remakeSystem] empties the scene, one child a turn, and
    calls [dispose] on the geometry and the material of each, in the
    order of the children. *)
Lemma dispose_children_run : forall (cs : list Points) (fuel : nat) (w : World) (s : Scene),
  scene (globals w) = Some s ->
  children s = cs ->
  (length cs <= fuel)%nat ->
  dispose_children fuel w =
  (Normal tt,
   upd_heap (fun h =>
     set_calls (calls h ++ flat_map disposal cs)
       (set_disposedMaterials (rev (material <$> cs) ++ disposedMaterials h)
          (set_disposedGeometries (rev (geometry <$> cs) ++ disposedGeometries h) h)))
     (upd_globals (set_scene (Some (with_children [] s))) w)).
Proof.
  induction cs as [|p cs IH]; intros fuel w s Hs Hc Hfuel.
  - destruct w as [o hst [ww wh war sc scn cam rdr st ss sp sm pm gu] [nid gs ms dg dm cl]].
    destruct s as [bg fg cs]. cbn in Hs, Hc. subst scn cs.
    unfold dispose_children.
    destruct fuel; cbn [while]; exec; cbn [flat_map]; by rewrite app_nil_r.
  - destruct fuel as [|fuel]; [cbn in Hfuel; lia|].
    destruct w as [o hst [ww wh war sc scn cam rdr st ss sp sm pm gu] [nid gs ms dg dm cl]].
    destruct s as [bg fg cs0]. cbn in Hs, Hc. subst scn cs0.
    unfold dispose_children in *. cbn [while]. exec.
    cbn [length Nat.ltb Nat.leb lookup list_lookup]. exec. rewrite Nat.eqb_refl.
    erewrite IH; [|reflexivity|reflexivity|cbn in Hfuel; lia].
    exec. rewrite !fmap_cons. cbn [rev flat_map disposal]. by rewrite <- !app_assoc.
Qed.

Lemma rebuildable_inv w :
  rebuildable w = true ->
  exists s m1 m2 x1 x2,
    scene (globals w) = Some s /\
    snowMat (globals w) = Some m1 /\ materials (heap w) !! m1 = Some x1 /\
    spriteMat (globals w) = Some m2 /\ materials (heap w) !! m2 = Some x2 /\
    (forall i, i ∈ disposedGeometries (heap w) -> (i < nextId (heap w))%nat) /\
    (forall p, p ∈ children s -> (geometry p < nextId (heap w))%nat).
Proof.
  unfold rebuildable, systems, material_ready, below_next. intros H.
  repeat (apply andb_true_iff in H as [H ?]).
  destruct (scene (globals w)) as [s|]; [|done].
  destruct (snowMat (globals w)) as [m1|]; [|done].
  destruct (spriteMat (globals w)) as [m2|]; [|done].
  destruct (materials (heap w) !! m1) as [x1|] eqn:E1; [|done].
  destruct (materials (heap w) !! m2) as [x2|] eqn:E2; [|done].
  exists s, m1, m2, x1, x2. do 5 (split; [done|]).
  split.
  - intros i Hi. apply list_elem_of_In in Hi.
    match goal with
    | Hd : forallb _ (disposedGeometries _) = true |- _ =>
        rewrite forallb_forall in Hd; apply Hd in Hi
    end.
    by apply Nat.ltb_lt.
  - intros p Hp. apply list_elem_of_In in Hp.
    match goal with
    | Hd : forallb _ (children _) = true |- _ =>
        rewrite forallb_forall in Hd; apply Hd in Hp
    end.
    by apply Nat.ltb_lt.
Qed.

(** C6.  In a state where the scene and both materials exist, with a
    particle count that is not negative and a ratio in [0, 1],
    [remakeSystem] returns.  The calls it makes on the scene graph are,
    in this order: for each particle system that was in the scene, its
    removal, then [dispose] on its geometry, then [dispose] on its
    material; and, after the last of these, the addition of the two
    replacements, the snow before the sprites.  The loop builds
    nothing.  Afterwards the scene holds exactly the two replacements,
    on geometries with the next free identifiers, with the sizes
    rounded from the binary64 products; no object of the scene refers
    to a disposed geometry, and no particle system that was in the
    scene is in it any more.  Every controller of the Simulation folder
    calls [remakeSystem]. *)
Theorem rebuild_disposes_old_systems_then_adds_two (fuel : nat) (w : World) :
  rebuildable w = true ->
  0 <= particleCount (options w) ->
  0 <= ratio (options w) ->
  ratio (options w) <= 1 ->
  (length (systems w) <= fuel)%nat ->
  exists w1 w' snow sprite a b,
    dispose_children fuel w = (Normal tt, w1) /\
    systems w1 = [] /\
    (forall p, p ∈ systems w ->
       geometry p ∈ disposedGeometries (heap w1) /\
       material p ∈ disposedMaterials (heap w1)) /\
    geometries (heap w1) = geometries (heap w) /\
    nextId (heap w1) = nextId (heap w) /\
    remakeSystem fuel w = (Normal tt, w') /\
    systems w' = [snow; sprite] /\
    calls (heap w')
      = calls (heap w) ++ flat_map disposal (systems w) ++ [Added snow; Added sprite] /\
    geometry snow = nextId (heap w) /\
    geometry sprite = S (S (nextId (heap w))) /\
    Some (material snow) = snowMat (globals w) /\
    Some (material sprite) = spriteMat (globals w) /\
    particles w' snow = Some a /\
    particles w' sprite = Some b /\
    a == Math_round (Number_mul (particleCount (options w))
                       (Number_sub 1.0 (ratio (options w)))) /\
    b == Math_round (Number_mul (particleCount (options w)) (ratio (options w))) /\
    disposedGeometries (heap w') = disposedGeometries (heap w1) /\
    disposedMaterials (heap w') = disposedMaterials (heap w1) /\
    (forall p, p ∈ systems w' -> geometry p ∉ disposedGeometries (heap w')) /\
    (forall p, p ∈ systems w -> p ∉ systems w') /\
    (forall c, c ∈ controllers (options w) -> folder c = "Simulation" ->
       callback c = RemakeSystem /\
       forall value, run_callback fuel (callback c) value w = remakeSystem fuel w).
Proof.
  intros Hre HN Hr0 Hr1 Hfuel.
  destruct (rebuildable_inv w Hre) as (s & m1 & m2 & x1 & x2 & Hs & Hm1 & Hx1 & Hm2 & Hx2 & Hdg & Hcs).
  assert (Hsn : 0 <= Number_mul (particleCount (options w))
                       (Number_sub 1.0 (ratio (options w))))
    by (apply Number_mul_nonneg, Number_sub_nonneg; [done | lra]).
  assert (Hsp : 0 <= Number_mul (particleCount (options w)) (ratio (options w)))
    by (by apply Number_mul_nonneg).
  pose proof (round_nonneg _ Hsn) as H1.
  pose proof (round_nonneg _ Hsp) as H2.
  unfold systems in Hfuel. rewrite Hs in Hfuel.
  pose proof (dispose_children_run (children s) fuel w s Hs eq_refl Hfuel) as Hloop.
  destruct w as [o [ok vp dpr rnd d el bi bo rl fr co]
                   [ww wh war sc scn cam rdr st ss sp sm pm gu] [nid gs ms dg dm cl]].
  destruct s as [bg fg cs].
  cbn in Hs, Hm1, Hx1, Hm2, Hx2, Hdg, Hcs, Hfuel. subst scn sm pm.
  change (options _) with o in *.
  assert (Hx2' : exists x, <[m1 := {| uniforms := with_rangeY (rangeY o) (uniforms x1);
                      USE_SIZEATTENUATION := USE_SIZEATTENUATION x1;
                      m_vertexShader := m_vertexShader x1;
                      m_fragmentShader := m_fragmentShader x1;
                      transparent := transparent x1;
                      m_fog := m_fog x1 |}]> ms !! m2 = Some x).
  { rewrite lookup_insert. case_decide; eauto. }
  destruct Hx2' as [x Hx]. unfold with_rangeY in Hx.
  set (s1 := Number_mul (particleCount o) (Number_sub 1.0 (ratio o))) in *.
  set (s2 := Number_mul (particleCount o) (ratio o)) in *.
  set (len1 := Z.to_nat (Qtruncate (Math_round s1))).
  set (len2 := Z.to_nat (Qtruncate (Math_round s2))).
  destruct (built_particles_round o rnd Panel sc len1 (4 + d) _ Hsn)
    as (a & Ha & Ea & _).
  destruct (built_particles_round o rnd Panel sc len2
              (4 + (8 + 6 * Z.to_nat (Qceiling (Math_round s1)) + d)) _ Hsp)
    as (b & Hb & Eb & _).
  do 4 eexists. exists a, b.
  split; [exact Hloop|].
  split; [reflexivity|].
  split.
  { observe. cbn [disposedGeometries disposedMaterials upd_heap set_heap heap
                  set_disposedMaterials set_disposedGeometries upd_globals set_globals].
    intros p Hp. apply list_elem_of_In in Hp.
    split; apply list_elem_of_In, in_or_app; left; apply -> in_rev; by apply in_map. }
  split; [reflexivity|]. split; [reflexivity|].
  split.
  { unfold remakeSystem. rewrite (bind_normal _ _ _ _ _ Hloop).
    exec. rewrite Hx1. exec. rewrite Hx. exec. fold s1 s2.
    rewrite newParticleSystem_run by (by rewrite Qtruncate_round). exec.
    rewrite newParticleSystem_run by (by rewrite Qtruncate_round). exec.
    cbn [app Nat.eqb]. rewrite (proj2 (Nat.eqb_neq _ _)) by lia.
    reflexivity. }
  split; [observe; cbn [app]; reflexivity|].
  split; [observe; cbn [heap calls]; by rewrite <- !app_assoc|].
  split; [reflexivity|]. split; [reflexivity|].
  split; [reflexivity|]. split; [reflexivity|].
  split; [observe; cbn [geometry]; lookups; exact Ha|].
  split; [observe; cbn [geometry]; lookups; exact Hb|].
  split; [exact Ea|].
  split; [exact Eb|].
  split; [reflexivity|]. split; [reflexivity|].
  assert (Hold : forall i,
            i ∈ rev (geometry <$> cs) ++ dg -> (i < nid)%nat).
  { intros i Hi. apply elem_of_app in Hi as [Hi|Hi]; [|by apply Hdg].
    apply list_elem_of_In in Hi. apply in_rev, in_map_iff in Hi.
    destruct Hi as (p & <- & Hp). apply Hcs. by apply list_elem_of_In. }
  split.
  { observe. cbn [heap disposedGeometries].
    intros p Hp Hin. apply Hold in Hin.
    apply elem_of_cons in Hp as [->|Hp]; [cbn in Hin; lia|].
    apply list_elem_of_singleton in Hp as ->. cbn in Hin; lia. }
  split.
  { observe. intros p Hp Hin. apply Hcs in Hp.
    apply elem_of_cons in Hin as [->|Hin]; [cbn in Hp; lia|].
    apply list_elem_of_singleton in Hin as ->. cbn in Hp; lia. }
  intros c Hc Hf.
  repeat (apply elem_of_cons in Hc as [->|Hc]; [try discriminate Hf; by split|]).
  by apply not_elem_of_nil in Hc.
Qed.

Lemma rebuild_disposes_old_systems_then_adds_two_witness :
  let w := example_scene Panel 10 0.3 in
  exists w1 w' snow sprite a b,
    dispose_children 2 w = (Normal tt, w1) /\
    systems w1 = [] /\
    remakeSystem 2 w = (Normal tt, w') /\
    length (systems w) = 2%nat /\
    systems w' = [snow; sprite] /\
    calls (heap w')
      = calls (heap w) ++ flat_map disposal (systems w) ++ [Added snow; Added sprite] /\
    particles w' snow = Some a /\
    particles w' sprite = Some b /\
    a == 7 /\ b == 3 /\
    (forall p, p ∈ systems w -> geometry p ∈ disposedGeometries (heap w')) /\
    (forall p, p ∈ systems w' -> geometry p ∉ disposedGeometries (heap w')).
Proof.
  intros w.
  destruct (rebuild_disposes_old_systems_then_adds_two 2 w)
    as (w1 & w' & snow & sprite & a & b & Hloop & Hempty & Hdisp & _ & _ & Hrun
        & Hsys & Hcalls & _ & _ & _ & _ & Ha & Hb & Ea & Eb & Hdg & _ & Hfresh & _);
    [vm_compute; reflexivity | vm_compute; discriminate.. | vm_compute; lia |].
  exists w1, w', snow, sprite, a, b.
  split; [exact Hloop|]. split; [exact Hempty|]. split; [exact Hrun|].
  split; [vm_compute; reflexivity|]. split; [exact Hsys|].
  split; [exact Hcalls|].
  split; [exact Ha|]. split; [exact Hb|].
  split; [rewrite Ea; vm_compute; reflexivity|].
  split; [rewrite Eb; vm_compute; reflexivity|].
  split; [|exact Hfresh].
  intros p Hp. rewrite Hdg. exact (proj1 (Hdisp p Hp)).
Defined.

(** ** Start-up establishes what the handlers need *)

Lemma Qtruncate_nonneg (u : Q) : 0 <= u -> (0 <= Qtruncate u)%Z.
Proof.
  intros H. unfold Qtruncate.
  destruct (Qle_bool 0 u) eqn:E.
  - change 0%Z with (Qfloor 0). by apply Qfloor_resp_le.
  - apply not_true_iff_false in E. by rewrite Qle_bool_iff in E.
Qed.

Lemma built_has_position o rnd v sc len ks :
  match attributes (built o rnd v sc len ks) !! "position" with
  | Some pos => (0 <=? Qtruncate (count pos))%Z
  | None => false
  end = true.
Proof.
  rewrite built_position. apply Z.leb_le, Qtruncate_nonneg. cbn [count Float32BufferAttribute].
  apply Qle_shift_div_l; [reflexivity|]. rewrite Qmult_0_l.
  change 0 with (inject_Z 0). rewrite <- Zle_Qle. lia.
Qed.

(** After a successful start-up the scene, the camera and the renderer
    exist and both children of the scene are particle systems; in the
    revision with the panel, and when no geometry beyond those allocated
    had been disposed, [remakeSystem] can run. *)
Lemma start_up_leaves_the_page_ready (v : Revision) (w : World) :
  isWebGLAvailable (host w) = true ->
  0 <= particleCount (options w) ->
  0 <= ratio (options w) ->
  ratio (options w) <= 1 ->
  fst (main v w) = Normal tt /\
  ready (snd (main v w)) = true /\
  (forallb (below_next w) (disposedGeometries (heap w)) = true ->
   rebuildable (snd (main v w)) = true).
Proof.
  intros Hok HN Hr0 Hr1.
  assert (Hs : 0 <= Number_mul (particleCount (options w))
                      (Number_sub 1.0 (ratio (options w))))
    by (apply Number_mul_nonneg, Number_sub_nonneg; [done | lra]).
  assert (Hp : 0 <= Number_mul (particleCount (options w)) (ratio (options w)))
    by (by apply Number_mul_nonneg).
  pose proof (round_nonneg _ Hs) as H1.
  pose proof (round_nonneg _ Hp) as H2.
  destruct w as [o [ok vp dpr rnd d el bi bo rl fr co] g [nid gs ms dg dm cl]].
  change (ok = true) in Hok. subst ok.
  change (options _) with o in *.
  unfold below_next. cbn [heap nextId disposedGeometries].
  destruct v, (fog o) eqn:Hfog.
  all: exec; rewrite Hfog; exec.
  all: rewrite newParticleSystem_run by (by rewrite Qtruncate_round); exec.
  all: rewrite newParticleSystem_run by (by rewrite Qtruncate_round); exec.
  all: lookups; exec; lookups; exec.
  all: cbn [app Nat.eqb]; rewrite (proj2 (Nat.eqb_neq _ _)) by lia.
  all: cbn [fst snd].
  all: split; [reflexivity|].
  all: unfold ready, rebuildable, material_ready, has_position, below_next.
  all: observe.
  all: cbn [camera renderer snowMat spriteMat materials nextId disposedGeometries
            geometry is_some forallb andb app].
  all: lookups; cbn [is_some andb option_bind mbind].
  all: rewrite !built_has_position.
  all: split; [reflexivity|].
  all: intros Hdg; rewrite !andb_true_r.
  all: repeat (apply andb_true_iff; split); try (apply Nat.ltb_lt; lia).
  all: rewrite forallb_forall in Hdg |- *; intros i Hi.
  all: apply Hdg, Nat.ltb_lt in Hi; apply Nat.ltb_lt; lia.
Qed.

(** ** Events *)

(** A resize of the viewport runs the handler registered by [init] on
    the page with its new size. *)
Lemma resize_event_runs_the_handler (v : Revision) (fuel : nat) (wd ht : Q) (w : World) :
  resizeListeners (host w) = [OnWindowResize] ->
  dispatch v fuel (Resize wd ht) w
  = onWindowResize v (upd_host (set_visualViewport (wd, ht)) w).
Proof.
  intros Hl. unfold dispatch, forM. plumb. cbn [host upd_host set_host resizeListeners
    set_visualViewport]. rewrite Hl. cbn [foldM run_handler]. plumb.
  by destruct (onWindowResize v _) as [[[]|e] w'].
Qed.


(** ** The handlers keep what they need *)

(** [onWindowResize] leaves a ready page ready: another resize can
    follow. *)
Lemma resize_keeps_the_page_ready (v : Revision) (w : World) :
  ready w = true -> ready (snd (onWindowResize v w)) = true.
Proof.
  intros Hready.
  destruct (ready_inv w Hready) as (s & c & r & Hs & Hc & Hr & Hall).
  destruct w as [o [ok vp dpr rnd d el bi bo rl fr co]
                   [ww wh war sc scn cam rdr st ss sp sm pm gu] [nid gs ms dg dm cl]].
  cbn in Hs, Hc, Hr. subst scn cam rdr.
  destruct s as [bg fg cs]. cbn [children] in Hall.
  unfold onWindowResize. exec.
  erewrite (resize_loop_run v cs [] _ {| background := bg; scene_fog := fg; children := cs |});
    [|reflexivity|reflexivity|exact Hall].
  exec. cbn [snd]. unfold ready. observe. cbn [camera renderer is_some andb].
  rewrite <- Hall. apply forallb_pointwise. intros p.
  unfold has_position. observe.
  rewrite rescale_all_lookup. case_decide; [|done].
  destruct (gs !! geometry p) as [g|]; [|done]. cbn.
  by rewrite rescale_position.
Qed.


(* ================================================================== *)
(** * Further properties *)

(** ** The update loop *)

Lemma tickable_inv v w :
  tickable v w = true ->
  exists s c r m1 m2 x1 x2,
    scene (globals w) = Some s /\ camera (globals w) = Some c /\
    renderer (globals w) = Some r /\
    snowMat (globals w) = Some m1 /\ materials (heap w) !! m1 = Some x1 /\
    spriteMat (globals w) = Some m2 /\ materials (heap w) !! m2 = Some x2 /\
    (v = Panel -> exists k, stats (globals w) = Some k).
Proof.
  unfold tickable, material_ready. intros H.
  repeat (apply andb_true_iff in H as [H ?]).
  destruct (scene (globals w)) as [s|]; [|done].
  destruct (camera (globals w)) as [c|]; [|done].
  destruct (renderer (globals w)) as [r|]; [|done].
  destruct (snowMat (globals w)) as [m1|]; [|done].
  destruct (spriteMat (globals w)) as [m2|]; [|done].
  destruct (materials (heap w) !! m1) as [x1|] eqn:E1; [|done].
  destruct (materials (heap w) !! m2) as [x2|] eqn:E2; [|done].
  exists s, c, r, m1, m2, x1, x2. do 7 (split; [done|]).
  intros ->. destruct (stats (globals w)) as [k|]; [eauto|done].
Qed.

(** Changing the uniforms of a material that exists, as
    [update_uniforms] does it. *)
Lemma update_uniforms_run (mat : nat) (f : Uniforms -> Uniforms) (w : World) :
  is_some (materials (heap w) !! mat) = true ->
  update_uniforms mat f w =
  (Normal tt,
   upd_heap (fun h => set_materials (alter (with_uniforms f) mat (materials h)) h) w).
Proof.
  intros H. destruct (materials (heap w) !! mat) as [x|] eqn:E; [|done].
  unfold update_uniforms, the_material. plumb. rewrite E.
  unfold upd_heap. cbv beta. by rewrite (alter_known _ _ _ _ E).
Qed.

Lemma is_some_alter {A} (f : A -> A) (i j : nat) (m : gmap nat A) :
  is_some (alter f i m !! j) = is_some (m !! j).
Proof. rewrite lookup_alter. case_decide; [subst|done]. by destruct (m !! j). Qed.

Lemma tick_run (v : Revision) (w : World) :
  tickable v w = true -> tick v w = (Normal tt, after_tick v w).
Proof.
  intros Ht.
  destruct (tickable_inv v w Ht)
    as (s & c & r & m1 & m2 & x1 & x2 & Hs & Hc & Hr & Hm1 & Hx1 & Hm2 & Hx2 & Hst).
  destruct w as [o [ok vp dpr rnd d el bi bo rl fr co]
                   [ww wh war sc scn cam rdr st ss sp sm pm gu] [nid gs ms dg dm cl]].
  cbn in Hs, Hc, Hr, Hm1, Hx1, Hm2, Hx2, Hst. subst scn cam rdr sm pm.
  assert (Hx : exists x, alter (with_uniforms (with_uTime el)) m1 ms !! m2 = Some x).
  { rewrite lookup_alter. case_decide; [subst; rewrite Hx1|]; eauto. }
  destruct Hx as (x & Hx).
  unfold after_tick, retouched.
  cbn [globals heap host snowMat spriteMat materials elapsed].
  rewrite (alter_known _ _ _ _ Hx). rewrite (alter_known _ _ _ _ Hx1) in Hx |- *.
  unfold with_uniforms in *. unfold with_uTime in Hx.
  destruct v.
  - exec. rewrite Hx1. exec. rewrite Hx. exec. reflexivity.
  - destruct (Hst eq_refl) as [k ->].
    exec. rewrite Hx1. exec. rewrite Hx. exec. reflexivity.
Qed.

(** The uniforms of a material after both materials of the script have
    been changed by [f]: changed by [f] when it is one of the two, as
    they were otherwise. *)
Lemma retouched_lookup (f : Uniforms -> Uniforms) (w : World) (m : nat) :
  (forall u, f (f u) = f u) ->
  uniforms <$> retouched f w !! m =
  (if decide (snowMat (globals w) = Some m \/ spriteMat (globals w) = Some m)
   then f else fun u => u) <$> (uniforms <$> materials (heap w) !! m).
Proof.
  intros Hf. unfold retouched.
  destruct (snowMat (globals w)) as [m1|], (spriteMat (globals w)) as [m2|];
    rewrite ?lookup_alter;
    repeat case_decide; simplify_eq;
    destruct (materials (heap w) !! m) as [x|]; cbn; rewrite ?Hf; try done;
    exfalso; intuition congruence.
Qed.

Lemma is_some_retouched (f : Uniforms -> Uniforms) (w : World) (m : nat) :
  is_some (retouched f w !! m) = is_some (materials (heap w) !! m).
Proof.
  unfold retouched.
  destruct (snowMat (globals w)), (spriteMat (globals w)); by rewrite ?is_some_alter.
Qed.

(** X1.  One call of the update loop, in a state where scene, camera,
    renderer and both materials exist: it returns; both materials get
    the reading of the clock as their time and keep their other
    uniforms; every other material is as it was; one more call is
    requested and one more frame is rendered; the scene, the camera, the
    geometries, the options, the listeners and the random source are
    left alone. *)
Theorem tick_sets_the_time_and_requests_the_next_frame (v : Revision) (w : World) :
  tickable v w = true ->
  exists w',
    tick v w = (Normal tt, w') /\
    uniforms_of w' (snowMat (globals w'))
      = with_uTime (elapsed (host w)) <$> uniforms_of w (snowMat (globals w)) /\
    uniforms_of w' (spriteMat (globals w'))
      = with_uTime (elapsed (host w)) <$> uniforms_of w (spriteMat (globals w)) /\
    (forall m, snowMat (globals w) <> Some m -> spriteMat (globals w) <> Some m ->
       materials (heap w') !! m = materials (heap w) !! m) /\
    frameRequests (host w') = frameRequests (host w) ++ [Tick] /\
    (frames <$> renderer (globals w')) = (S <$> (frames <$> renderer (globals w))) /\
    scene (globals w') = scene (globals w) /\
    camera (globals w') = camera (globals w) /\
    geometries (heap w') = geometries (heap w) /\
    nextId (heap w') = nextId (heap w) /\
    disposedGeometries (heap w') = disposedGeometries (heap w) /\
    disposedMaterials (heap w') = disposedMaterials (heap w) /\
    options w' = options w /\
    drawn (host w') = drawn (host w) /\
    resizeListeners (host w') = resizeListeners (host w) /\
    body (host w') = body (host w).
Proof.
  intros Ht. exists (after_tick v w). split; [by apply tick_run|].
  assert (Hu : forall o : option nat,
            o = snowMat (globals w) \/ o = spriteMat (globals w) ->
            uniforms_of (after_tick v w) o
            = with_uTime (elapsed (host w)) <$> uniforms_of w o).
  { intros [m|] Ho; [|done]. unfold uniforms_of. cbn.
    pose proof (retouched_lookup (with_uTime (elapsed (host w))) w m
                  (fun u => eq_refl)) as E.
    rewrite decide_True in E by (destruct Ho; auto).
    destruct (retouched _ w !! m), (materials (heap w) !! m); cbn in *; congruence. }
  split; [destruct v; apply Hu; by left|].
  split; [destruct v; apply Hu; by right|].
  split.
  { intros m H1 H2. cbn. unfold retouched.
    destruct (snowMat (globals w)) as [m1|], (spriteMat (globals w)) as [m2|];
      rewrite ?lookup_alter_ne; congruence. }
  split; [reflexivity|].
  split; [cbn; by destruct (renderer (globals w))|].
  by destruct v.
Qed.

Lemma tick_sets_the_time_and_requests_the_next_frame_witness :
  let w := upd_host (set_elapsed 2.5) (example_scene Panel 10 0.3) in
  exists w',
    tick Panel w = (Normal tt, w') /\
    (u_uTime <$> uniforms_of w' (snowMat (globals w'))) = Some 2.5 /\
    (u_uTime <$> uniforms_of w' (spriteMat (globals w'))) = Some 2.5 /\
    frameRequests (host w') = [Tick; Tick] /\
    (frames <$> renderer (globals w')) = Some 2%nat.
Proof.
  intros w.
  destruct (tick_sets_the_time_and_requests_the_next_frame Panel w)
    as (w' & Hrun & H1 & H2 & _ & Hf & Hr & _); [vm_compute; reflexivity|].
  exists w'. split; [exact Hrun|].
  split; [rewrite H1; vm_compute; reflexivity|].
  split; [rewrite H2; vm_compute; reflexivity|].
  split; [rewrite Hf; vm_compute; reflexivity|].
  rewrite Hr; vm_compute; reflexivity.
Defined.

(** ** The resize handler *)

Lemma onWindowResize_run (v : Revision) (w : World) :
  ready w = true -> onWindowResize v w = (Normal tt, after_onWindowResize v w).
Proof.
  intros Hready.
  destruct (ready_inv w Hready) as (s & c & r & Hs & Hc & Hr & Hall).
  destruct w as [o [ok vp dpr rnd d el bi bo rl fr co]
                   [ww wh war sc scn cam rdr st ss sp sm pm gu] [nid gs ms dg dm cl]].
  cbn in Hs, Hc, Hr. subst scn cam rdr.
  destruct s as [bg fg cs]. cbn [children] in Hall.
  unfold onWindowResize, after_onWindowResize. exec.
  erewrite (resize_loop_run v cs [] _ {| background := bg; scene_fog := fg; children := cs |});
    [|reflexivity|reflexivity|exact Hall].
  exec. observe. reflexivity.
Qed.

Lemma ready_after_tick v w : ready (after_tick v w) = ready w.
Proof.
  unfold ready, after_tick. cbn.
  assert (E : forall g : Globals,
            (scene (match v with Panel => set_stats (S <$> stats g) g | Plain => g end),
             camera (match v with Panel => set_stats (S <$> stats g) g | Plain => g end))
            = (scene g, camera g)) by (by destruct v).
  unfold systems. cbn.
  injection (E (globals w)) as -> ->.
  by destruct (renderer (globals w)).
Qed.

Lemma tickable_after_tick v w : tickable v (after_tick v w) = tickable v w.
Proof.
  unfold tickable, material_ready, after_tick.
  destruct v; cbn;
    destruct (renderer (globals w)), (stats (globals w)),
      (snowMat (globals w)), (spriteMat (globals w)); cbn;
    by rewrite ?is_some_retouched.
Qed.

Lemma tickable_after_onWindowResize v w :
  tickable v (after_onWindowResize v w) = tickable v w.
Proof.
  unfold tickable, material_ready, after_onWindowResize. cbn.
  by destruct (renderer (globals w)), (camera (globals w)).
Qed.

Lemma ready_after_onWindowResize v w :
  ready w = true -> ready (after_onWindowResize v w) = true.
Proof.
  intros H. pose proof (resize_keeps_the_page_ready v w H) as E.
  by rewrite (onWindowResize_run v w H) in E.
Qed.

(** The host's part in a resize and in a display refresh. *)
Lemma dispatch_resize_run v fuel wd ht w :
  running v w ->
  dispatch v fuel (Resize wd ht) w =
  (Normal tt, after_onWindowResize v (upd_host (set_visualViewport (wd, ht)) w)).
Proof.
  intros (Hr & _ & Hl & _). unfold dispatch. plumb. cbn [host upd_host set_host].
  cbn [resizeListeners set_visualViewport]. rewrite Hl.
  unfold forM. cbn [foldM run_handler]. plumb.
  by rewrite onWindowResize_run.
Qed.

Lemma dispatch_frame_run v fuel time w :
  running v w ->
  dispatch v fuel (AnimationFrame time) w =
  (Normal tt,
   after_tick v (upd_host (fun h => set_frameRequests [] (set_elapsed time h)) w)).
Proof.
  intros (_ & Ht & _ & Hf). unfold dispatch. plumb. cbn [host upd_host set_host].
  cbn [frameRequests set_elapsed]. rewrite Hf.
  unfold forM. cbn [foldM run_handler]. plumb.
  by rewrite tick_run.
Qed.

Lemma running_after_resize v wd ht w :
  running v w ->
  running v (after_onWindowResize v (upd_host (set_visualViewport (wd, ht)) w)).
Proof.
  intros (Hr & Ht & Hl & Hf). split; [|split; [|split]].
  - by apply ready_after_onWindowResize.
  - by rewrite tickable_after_onWindowResize.
  - exact Hl.
  - exact Hf.
Qed.

Lemma running_after_frame v time w :
  running v w ->
  running v (after_tick v (upd_host (fun h => set_frameRequests [] (set_elapsed time h)) w)).
Proof.
  intros (Hr & Ht & Hl & Hf). split; [|split; [|split]].
  - by rewrite ready_after_tick.
  - by rewrite tickable_after_tick.
  - exact Hl.
  - reflexivity.
Qed.

(** X2.  [onWindowResize], in a state where scene, camera and renderer exist
    and every child of the scene is a particle system: it returns; the
    variables for the window size and the scale take the size of the
    viewport; the camera gets the new aspect ratio and its projection
    matrix is recomputed from it, with the field of view, the planes
    and the position it had; the renderer gets the new size and keeps
    its pixel ratio.  The variable [windowAspectRatio] is not written,
    and the materials, the options and everything of the host are left
    alone: no random number is drawn and nothing is allocated or
    disposed.  (For a viewport of height 0 the script divides by zero,
    which the rationals do not render.) *)
Theorem resize_fits_camera_and_renderer_to_the_viewport (v : Revision) (w : World) :
  ready w = true ->
  ~ snd (visualViewport (host w)) == 0 ->
  let wd := fst (visualViewport (host w)) in
  let ht := snd (visualViewport (host w)) in
  exists w' c c' r r',
    onWindowResize v w = (Normal tt, w') /\
    camera (globals w) = Some c /\ camera (globals w') = Some c' /\
    renderer (globals w) = Some r /\ renderer (globals w') = Some r' /\
    windowWidth (globals w') = wd /\
    windowHeight (globals w') = ht /\
    scale (globals w') = ht /\
    aspect c' = wd / ht /\
    projectionMatrix c' = (fov c, wd / ht, near c, far c) /\
    (fov c', near c', far c', position_z c') = (fov c, near c, far c, position_z c) /\
    (width r', height r') = (wd, ht) /\
    (pixelRatio r', frames r', antialias r') = (pixelRatio r, frames r, antialias r) /\
    windowAspectRatio (globals w') = windowAspectRatio (globals w) /\
    materials (heap w') = materials (heap w) /\
    nextId (heap w') = nextId (heap w) /\
    disposedGeometries (heap w') = disposedGeometries (heap w) /\
    disposedMaterials (heap w') = disposedMaterials (heap w) /\
    options w' = options w /\
    host w' = host w.
Proof.
  intros Hready _ wd ht.
  destruct (ready_inv w Hready) as (s & c & r & Hs & Hc & Hr & _).
  exists (after_onWindowResize v w), c,
    (updateProjectionMatrix (with_aspect (wd / ht) c)), r, (setSize wd ht r).
  split; [by apply onWindowResize_run|].
  split; [exact Hc|]. split; [cbn; by rewrite Hc|].
  split; [exact Hr|]. split; [cbn; by rewrite Hr|].
  by repeat split.
Qed.

Lemma resize_fits_camera_and_renderer_to_the_viewport_witness :
  let w := upd_host (set_visualViewport (1024, 768)) (example_scene Panel 10 0.3) in
  exists w' c' r',
    onWindowResize Panel w = (Normal tt, w') /\
    camera (globals w') = Some c' /\
    renderer (globals w') = Some r' /\
    scale (globals w') = 768 /\
    aspect c' = 1024 / 768 /\
    (width r', height r') = (1024, 768).
Proof.
  intros w.
  destruct (resize_fits_camera_and_renderer_to_the_viewport Panel w)
    as (w' & c & c' & r & r' & Hrun & _ & Hc & _ & Hr & _ & _ & Hsc & Ha & _ & _ & Hsz & _);
    [vm_compute; reflexivity | vm_compute; discriminate |].
  exists w', c', r'.
  split; [exact Hrun|]. split; [exact Hc|]. split; [exact Hr|].
  split; [exact Hsc|]. split; [exact Ha|]. exact Hsz.
Defined.

Lemma rescale_all_idem v h cs gs :
  rescale_all v h cs (rescale_all v h cs gs) = rescale_all v h cs gs.
Proof.
  apply map_eq. intros i. rewrite !rescale_all_lookup.
  case_decide; [|done].
  destruct (gs !! i); cbn; [|done]. by rewrite rescale_idem.
Qed.

Lemma after_onWindowResize_idem v w :
  after_onWindowResize v (after_onWindowResize v w) = after_onWindowResize v w.
Proof.
  destruct w as [o hst [ww wh war sc scn cam rdr st ss sp sm pm gu] [nid gs ms dg dm cl]].
  unfold after_onWindowResize. observe. exec.
  rewrite rescale_all_idem. by destruct cam, rdr.
Qed.

(** X3.  A second resize for the same viewport changes nothing: the handler
    run on the state it has left returns that state. *)
Theorem resize_twice_is_resize_once (v : Revision) (w : World) :
  ready w = true ->
  exists w',
    onWindowResize v w = (Normal tt, w') /\
    onWindowResize v w' = (Normal tt, w') /\
    (onWindowResize v;; onWindowResize v) w = onWindowResize v w.
Proof.
  intros Hready. exists (after_onWindowResize v w).
  assert (E2 : onWindowResize v (after_onWindowResize v w)
               = (Normal tt, after_onWindowResize v w)).
  { rewrite onWindowResize_run by (by apply ready_after_onWindowResize).
    by rewrite after_onWindowResize_idem. }
  split; [by apply onWindowResize_run|]. split; [exact E2|].
  rewrite (bind_normal _ _ _ _ _ (onWindowResize_run v w Hready)).
  by rewrite E2, onWindowResize_run.
Qed.

Lemma resize_twice_is_resize_once_witness :
  let w := upd_host (set_visualViewport (1024, 768)) (example_scene Plain 10 0.3) in
  exists w',
    onWindowResize Plain w = (Normal tt, w') /\
    onWindowResize Plain w' = (Normal tt, w').
Proof.
  intros w.
  destruct (resize_twice_is_resize_once Plain w) as (w' & H1 & H2 & _);
    [vm_compute; reflexivity|].
  exists w'. split; [exact H1 | exact H2].
Defined.

Lemma after_tick_onWindowResize v w :
  after_tick v (after_onWindowResize v w) = after_onWindowResize v (after_tick v w).
Proof.
  destruct w as [o hst [ww wh war sc scn cam rdr st ss sp sm pm gu] [nid gs ms dg dm cl]].
  unfold after_tick, after_onWindowResize, retouched. observe.
  destruct v; exec; by destruct cam, rdr.
Qed.

(** X4.  The update loop and the resize handler do not interfere: a frame
    then a resize leave the state that the resize then the frame
    leave. *)
Theorem tick_and_resize_commute (v : Revision) (w : World) :
  ready w = true ->
  tickable v w = true ->
  exists w',
    (tick v;; onWindowResize v) w = (Normal tt, w') /\
    (onWindowResize v;; tick v) w = (Normal tt, w').
Proof.
  intros Hr Ht. exists (after_tick v (after_onWindowResize v w)). split.
  - rewrite (bind_normal _ _ _ _ _ (tick_run v w Ht)).
    rewrite onWindowResize_run by (by rewrite ready_after_tick).
    by rewrite after_tick_onWindowResize.
  - rewrite (bind_normal _ _ _ _ _ (onWindowResize_run v w Hr)).
    by rewrite tick_run by (by rewrite tickable_after_onWindowResize).
Qed.

Lemma tick_and_resize_commute_witness :
  let w := upd_host (set_visualViewport (1024, 768)) (example_scene Panel 10 0.3) in
  exists w',
    (tick Panel;; onWindowResize Panel) w = (Normal tt, w') /\
    (onWindowResize Panel;; tick Panel) w = (Normal tt, w').
Proof.
  intros w. apply (tick_and_resize_commute Panel w); vm_compute; reflexivity.
Defined.

(** ** Any number of frames and resizes *)

Lemma undisturbed_refl w : undisturbed w w.
Proof. by repeat split. Qed.

Lemma undisturbed_trans w1 w2 w3 :
  undisturbed w1 w2 -> undisturbed w2 w3 -> undisturbed w1 w3.
Proof.
  intros (A1 & A2 & A3 & A4 & A5 & A6 & A7 & A8 & A9 & A10)
         (B1 & B2 & B3 & B4 & B5 & B6 & B7 & B8 & B9 & B10).
  split; [congruence|]. split; [intros p name Hn; by rewrite B2, A2|].
  repeat split; congruence.
Qed.

Lemma undisturbed_after_tick v f w :
  undisturbed w (after_tick v (upd_host f w)) <->
  drawn (f (host w)) = drawn (host w) /\ body (f (host w)) = body (host w).
Proof.
  unfold undisturbed, after_tick, systems, attribute.
  destruct v; cbn; intuition.
Qed.

Lemma undisturbed_after_onWindowResize v sz w :
  undisturbed w (after_onWindowResize v (upd_host (set_visualViewport sz) w)).
Proof.
  unfold undisturbed, after_onWindowResize.
  split; [reflexivity|]. split; [|by repeat split].
  intros p name Hn. unfold attribute. cbn.
  rewrite rescale_all_lookup. case_decide; [|done].
  destruct (geometries (heap w) !! geometry p); cbn; [|done].
  by apply rescale_other.
Qed.

Lemma uniforms_of_after_tick v w (o : option nat) :
  o = snowMat (globals w) \/ o = spriteMat (globals w) ->
  uniforms_of (after_tick v w) o = with_uTime (elapsed (host w)) <$> uniforms_of w o.
Proof.
  destruct o as [m|]; [|done]. intros Ho. unfold uniforms_of. cbn.
  pose proof (retouched_lookup (with_uTime (elapsed (host w))) w m
                (fun u => eq_refl)) as E.
  rewrite decide_True in E by (destruct Ho; auto).
  destruct (retouched _ w !! m), (materials (heap w) !! m); cbn in *; congruence.
Qed.

Lemma frames_after_tick v w :
  frames <$> renderer (globals (after_tick v w)) = S <$> (frames <$> renderer (globals w)).
Proof. cbn. by destruct (renderer (globals w)). Qed.

Lemma mats_after_tick v w :
  snowMat (globals (after_tick v w)) = snowMat (globals w) /\
  spriteMat (globals (after_tick v w)) = spriteMat (globals w) /\
  scale (globals (after_tick v w)) = scale (globals w) /\
  visualViewport (host (after_tick v w)) = visualViewport (host w).
Proof. by destruct v. Qed.

(** X5.  Whatever resizes and display refreshes arrive, in whatever order,
    once start-up has succeeded: every one is handled without an
    exception and leaves the page ready for the next, with the resize
    handler still the one listener and one frame requested.  The scene
    keeps its particle systems, and they their particles and every
    attribute but scale; no random number is drawn and nothing is
    allocated or disposed; the options are not written.  Both materials
    carry the time of the last refresh, the renderer has drawn one frame
    for each refresh, and the scale is the height of the last size. *)
Theorem frames_and_resizes_keep_the_page_running
    (v : Revision) (fuel : nat) (es : list Event) (w : World) :
  running v w ->
  forallb host_event es = true ->
  exists w',
    run v fuel es w = (Normal tt, w') /\
    running v w' /\
    systems w' = systems w /\
    (forall p name, name <> "scale" -> attribute w' p name = attribute w p name) /\
    (forall p, particles w' p = particles w p) /\
    options w' = options w /\
    drawn (host w') = drawn (host w) /\
    nextId (heap w') = nextId (heap w) /\
    disposedGeometries (heap w') = disposedGeometries (heap w) /\
    disposedMaterials (heap w') = disposedMaterials (heap w) /\
    uniforms_of w' (snowMat (globals w'))
      = match last_frame es with
        | Some time => with_uTime time <$> uniforms_of w (snowMat (globals w))
        | None => uniforms_of w (snowMat (globals w))
        end /\
    uniforms_of w' (spriteMat (globals w'))
      = match last_frame es with
        | Some time => with_uTime time <$> uniforms_of w (spriteMat (globals w))
        | None => uniforms_of w (spriteMat (globals w))
        end /\
    (frames <$> renderer (globals w'))
      = (Nat.add (length (List.filter is_frame es)) <$> (frames <$> renderer (globals w))) /\
    scale (globals w')
      = match last_size es with
        | Some sz => snd sz
        | None => scale (globals w)
        end.
Proof.
  intros Hrun Hes.
  enough (exists w',
    run v fuel es w = (Normal tt, w') /\ running v w' /\ undisturbed w w' /\
    (forall o, o = snowMat (globals w) \/ o = spriteMat (globals w) ->
       uniforms_of w' o = match last_frame es with
                          | Some time => with_uTime time <$> uniforms_of w o
                          | None => uniforms_of w o
                          end) /\
    (frames <$> renderer (globals w'))
      = (Nat.add (length (List.filter is_frame es)) <$> (frames <$> renderer (globals w))) /\
    scale (globals w')
      = match last_size es with Some sz => snd sz | None => scale (globals w) end)
    as (w' & Hr & Hk & (U1 & U2 & U3 & U4 & U5 & U6 & U7 & U8 & U9 & _) & Hu & Hf & Hs).
  { exists w'. split; [exact Hr|]. split; [exact Hk|]. split; [exact U1|].
    split; [exact U2|].
    split; [intros p; unfold particles; by rewrite U2|].
    do 5 (split; [assumption|]).
    split; [rewrite U8; apply Hu; by left|].
    split; [rewrite U9; apply Hu; by right|].
    by split. }
  revert w Hrun. induction es as [|e es IH]; intros w Hrun.
  { exists w. split; [reflexivity|]. split; [exact Hrun|].
    split; [apply undisturbed_refl|]. split; [done|].
    split; [cbn; by destruct (renderer (globals w))|done]. }
  cbn [forallb] in Hes. apply andb_true_iff in Hes as [He Hes].
  specialize (IH Hes).
  unfold run, forM in *. cbn [foldM].
  destruct e as [wd ht|time|]; [| |discriminate He].
  - rewrite (bind_normal _ _ _ _ _ (dispatch_resize_run v fuel wd ht w Hrun)).
    set (w1 := after_onWindowResize v _).
    destruct (IH w1 (running_after_resize v wd ht w Hrun))
      as (w' & Hr & Hk & Hund & Hu & Hf & Hs).
    exists w'. split; [exact Hr|]. split; [exact Hk|].
    split; [exact (undisturbed_trans _ _ _
                     (undisturbed_after_onWindowResize v (wd, ht) w) Hund)|].
    split; [|split].
    + intros o Ho. rewrite (Hu o Ho). cbn [last_frame].
      assert (E : uniforms_of w1 o = uniforms_of w o) by reflexivity.
      rewrite E. by destruct (last_frame es).
    + rewrite Hf. cbn [List.filter is_frame]. subst w1. cbn.
      by destruct (renderer (globals w)).
    + rewrite Hs. cbn [last_size]. by destruct (last_size es).
  - rewrite (bind_normal _ _ _ _ _ (dispatch_frame_run v fuel time w Hrun)).
    set (w0 := upd_host _ w). set (w1 := after_tick v w0).
    destruct (mats_after_tick v w0) as (M1 & M2 & M3 & M4).
    destruct (IH w1 (running_after_frame v time w Hrun))
      as (w' & Hr & Hk & Hund & Hu & Hf & Hs).
    exists w'. split; [exact Hr|]. split; [exact Hk|].
    split.
    { refine (undisturbed_trans _ _ _ _ Hund).
      by apply undisturbed_after_tick. }
    split; [|split].
    + intros o Ho. rewrite Hu by (subst w1; rewrite M1, M2; exact Ho).
      subst w1. rewrite (uniforms_of_after_tick v w0 o Ho).
      assert (E : uniforms_of w0 o = uniforms_of w o) by reflexivity.
      rewrite E. cbn [last_frame]. destruct (last_frame es); [|reflexivity].
      by destruct (uniforms_of w o).
    + rewrite Hf. subst w1. rewrite frames_after_tick.
      cbn [List.filter is_frame length].
      change (globals w0) with (globals w).
      destruct (renderer (globals w)) as [r|]; cbn; [|done].
      f_equal. lia.
    + rewrite Hs. cbn [last_size]. destruct (last_size es); [done|].
      subst w1. by rewrite M3.
Qed.

Lemma frames_and_resizes_keep_the_page_running_witness :
  let w := example_scene Panel 10 0.3 in
  let es := [AnimationFrame 1; Resize 800 600; AnimationFrame 2] in
  exists w',
    run Panel 0 es w = (Normal tt, w') /\
    running Panel w' /\
    systems w' = systems w /\
    (u_uTime <$> uniforms_of w' (snowMat (globals w'))) = Some 2 /\
    (frames <$> renderer (globals w')) = Some 3%nat /\
    scale (globals w') = 600.
Proof.
  intros w es.
  destruct (frames_and_resizes_keep_the_page_running Panel 0 es w)
    as (w' & Hrun & Hk & Hsys & _ & _ & _ & _ & _ & _ & _ & Hu & _ & Hf & Hs);
    [repeat split; vm_compute; reflexivity | reflexivity |].
  exists w'. split; [exact Hrun|]. split; [exact Hk|]. split; [exact Hsys|].
  split; [rewrite Hu; vm_compute; reflexivity|].
  split; [rewrite Hf; vm_compute; reflexivity|].
  exact Hs.
Defined.

(** ** Rebuilding from the panel *)

Lemma dispose_children_after (fuel : nat) (w : World) :
  is_some (scene (globals w)) = true ->
  (length (systems w) <= fuel)%nat ->
  dispose_children fuel w = (Normal tt, after_dispose_children w).
Proof.
  intros Hs Hfuel. unfold systems in Hfuel. unfold after_dispose_children, systems.
  destruct (scene (globals w)) as [s|] eqn:E; [|done].
  rewrite (dispose_children_run (children s) fuel w s E eq_refl Hfuel).
  unfold upd_globals. by rewrite E.
Qed.

Lemma remakeSystem_run (fuel : nat) (w : World) (m1 m2 : nat) :
  is_some (scene (globals w)) = true ->
  snowMat (globals w) = Some m1 ->
  spriteMat (globals w) = Some m2 ->
  is_some (materials (heap w) !! m1) = true ->
  is_some (materials (heap w) !! m2) = true ->
  0 <= particleCount (options w) ->
  0 <= ratio (options w) ->
  ratio (options w) <= 1 ->
  (length (systems w) <= fuel)%nat ->
  remakeSystem fuel w = (Normal tt, after_remakeSystem m1 m2 w).
Proof.
  intros Hs Hm1 Hm2 Hx1 Hx2 HN Hr0 Hr1 Hfuel.
  assert (Hsn : 0 <= Number_mul (particleCount (options w))
                      (Number_sub 1.0 (ratio (options w))))
    by (apply Number_mul_nonneg, Number_sub_nonneg; [done | lra]).
  assert (Hsp : 0 <= Number_mul (particleCount (options w)) (ratio (options w)))
    by (by apply Number_mul_nonneg).
  pose proof (round_nonneg _ Hsn) as H1.
  pose proof (round_nonneg _ Hsp) as H2.
  pose proof (dispose_children_after fuel w Hs Hfuel) as Hloop.
  unfold remakeSystem. rewrite (bind_normal _ _ _ _ _ Hloop).
  unfold after_remakeSystem, snow_count, sprite_count, after_dispose_children in *.
  clear Hloop. unfold retouched. rewrite Hm1, Hm2.
  destruct (materials (heap w) !! m1) as [x1|] eqn:E1; [|done].
  assert (Hx : exists x, alter (with_uniforms (with_rangeY (rangeY (options w)))) m1
                           (materials (heap w)) !! m2 = Some x).
  { rewrite lookup_alter. case_decide; [subst; rewrite E1; eauto|].
    destruct (materials (heap w) !! m2); [eauto|done]. }
  destruct Hx as [x Hx].
  rewrite (alter_known _ _ _ _ Hx). rewrite (alter_known _ _ _ _ E1) in Hx |- *.
  unfold with_uniforms in *. unfold with_rangeY in Hx.
  destruct w as [o [ok vp dpr rnd d el bi bo rl fr co]
                   [ww wh war sc scn cam rdr st ss sp sm pm gu] [nid gs ms dg dm cl]].
  cbn in Hs, Hm1, Hm2, E1, Hx. subst sm pm.
  destruct scn as [[bg fg cs]|]; [|done].
  change (options _) with o in *.
  observe.
  exec. rewrite E1. exec. rewrite Hx. exec.
  rewrite newParticleSystem_run by (by rewrite Qtruncate_round). exec.
  rewrite newParticleSystem_run by (by rewrite Qtruncate_round). exec.
  cbn [app Nat.eqb]. rewrite (proj2 (Nat.eqb_neq _ _)) by lia.
  reflexivity.
Qed.

Lemma updateSprite_run (fuel : nat) (w : World) :
  is_some (scene (globals w)) = true ->
  0 <= particleCount (options w) ->
  0 <= ratio (options w) ->
  ratio (options w) <= 1 ->
  (length (systems w) <= fuel)%nat ->
  updateSprite fuel w = (Normal tt, after_updateSprite w).
Proof.
  intros Hs HN Hr0 Hr1 Hfuel.
  destruct w as [o [ok vp dpr rnd d el bi bo rl fr co]
                   [ww wh war sc scn cam rdr st ss sp sm pm gu] [nid gs ms dg dm cl]].
  unfold updateSprite, after_updateSprite, with_new_materials, new_material. exec.
  apply remakeSystem_run; try assumption; try reflexivity.
  - cbn. by rewrite lookup_insert_ne, lookup_insert_eq by lia.
  - cbn. by rewrite lookup_insert_eq.
Qed.

(** What [remakeSystem] leaves, field by field. *)
Lemma after_remakeSystem_fields (m1 m2 : nat) (w : World) :
  let o := options w in
  let nid := nextId (heap w) in
  let n1 := Z.to_nat (Qceiling (snow_count o)) in
  let n2 := Z.to_nat (Qceiling (sprite_count o)) in
  let w' := after_remakeSystem m1 m2 w in
  options w' = o /\
  host w' = set_drawn (8 + 6 * n2 + (8 + 6 * n1 + drawn (host w))) (host w) /\
  globals w' =
    set_scene ((fun s => with_children
                  [ {| id := S nid; geometry := nid; material := m1 |};
                    {| id := S (S (S nid)); geometry := S (S nid); material := m2 |} ] s)
               <$> scene (globals w)) (globals w) /\
  nextId (heap w') = S (S (S (S nid))) /\
  geometries (heap w') =
    <[S (S nid) := built o (random (host w)) Panel (scale (globals w))
                     (Z.to_nat (Qtruncate (sprite_count o)))
                     (starts (4 + (8 + 6 * n1 + drawn (host w))) n2)]>
      (<[nid := built o (random (host w)) Panel (scale (globals w))
                  (Z.to_nat (Qtruncate (snow_count o)))
                  (starts (4 + drawn (host w)) n1)]> (geometries (heap w))) /\
  materials (heap w') = retouched (with_rangeY (rangeY o)) w /\
  disposedGeometries (heap w')
    = rev (geometry <$> systems w) ++ disposedGeometries (heap w) /\
  disposedMaterials (heap w')
    = rev (material <$> systems w) ++ disposedMaterials (heap w).
Proof.
  destruct w as [o [ok vp dpr rnd d el bi bo rl fr co]
                   [ww wh war sc scn cam rdr st ss sp sm pm gu] [nid gs ms dg dm cl]].
  cbn zeta. unfold after_remakeSystem, with_system, next_system, after_dispose_children.
  observe. exec.
  destruct scn as [[bg fg cs]|]; by repeat split.
Qed.

Lemma uniforms_of_retouched (f : Uniforms -> Uniforms) (w w' : World) (o : option nat) :
  (forall u, f (f u) = f u) ->
  materials (heap w') = retouched f w ->
  o = snowMat (globals w) \/ o = spriteMat (globals w) ->
  uniforms_of w' o = f <$> uniforms_of w o.
Proof.
  intros Hf Hm Ho. destruct o as [m|]; [|done]. unfold uniforms_of. cbn.
  pose proof (retouched_lookup f w m Hf) as E.
  rewrite decide_True in E by (destruct Ho; auto).
  rewrite Hm.
  destruct (retouched _ w !! m), (materials (heap w) !! m); cbn in *; congruence.
Qed.

Lemma retouched_other (f : Uniforms -> Uniforms) (w : World) (m : nat) :
  snowMat (globals w) <> Some m -> spriteMat (globals w) <> Some m ->
  retouched f w !! m = materials (heap w) !! m.
Proof.
  intros H1 H2. unfold retouched.
  destruct (snowMat (globals w)) as [m1|], (spriteMat (globals w)) as [m2|];
    rewrite ?lookup_alter_ne; congruence.
Qed.

Lemma rebuildable_parts w :
  rebuildable w = true ->
  exists m1 m2,
    is_some (scene (globals w)) = true /\
    snowMat (globals w) = Some m1 /\ spriteMat (globals w) = Some m2 /\
    is_some (materials (heap w) !! m1) = true /\
    is_some (materials (heap w) !! m2) = true.
Proof.
  intros H.
  destruct (rebuildable_inv w H) as (s & m1 & m2 & x1 & x2 & Hs & Hm1 & Hx1 & Hm2 & Hx2 & _).
  exists m1, m2. by rewrite Hs, Hx1, Hx2.
Qed.

(** X6.  [remakeSystem], in a state where the scene and both materials
    exist, with a particle count that is not negative and a ratio in
    [0, 1]: both materials get the [rangeY] of the options as their
    [rangeY] uniform and keep their other uniforms, and no other
    material changes.  The two new geometries are sampled under the
    options of the moment from two stretches of the random stream, six
    draws a particle; each stretch lies between the four draws made for
    the identifier of its geometry and the four made for the identifier
    of its [Points] object, the snow coming first and the sprites
    next, so that the call takes sixteen draws and six for every
    particle.  Geometries that existed stay in memory as they were;
    four identifiers are given out.  Camera, renderer, panel, the window variables, the scale, the
    background and fog of the scene, the listeners, the frame requests
    and the options are left alone. *)
Theorem rebuild_resamples_under_the_current_options (fuel : nat) (w : World) :
  rebuildable w = true ->
  0 <= particleCount (options w) ->
  0 <= ratio (options w) ->
  ratio (options w) <= 1 ->
  (length (systems w) <= fuel)%nat ->
  let o := options w in
  let d := drawn (host w) in
  let n1 := Z.to_nat (Qceiling (snow_count o)) in
  let n2 := Z.to_nat (Qceiling (sprite_count o)) in
  exists w' snow sprite,
    remakeSystem fuel w = (Normal tt, w') /\
    systems w' = [snow; sprite] /\
    uniforms_of w' (snowMat (globals w'))
      = with_rangeY (rangeY o) <$> uniforms_of w (snowMat (globals w)) /\
    uniforms_of w' (spriteMat (globals w'))
      = with_rangeY (rangeY o) <$> uniforms_of w (spriteMat (globals w)) /\
    (forall m, snowMat (globals w) <> Some m -> spriteMat (globals w) <> Some m ->
       materials (heap w') !! m = materials (heap w) !! m) /\
    geometries (heap w') !! geometry snow
      = Some (built o (random (host w)) Panel (scale (globals w))
                (Z.to_nat (Qtruncate (snow_count o))) (starts (4 + d) n1)) /\
    geometries (heap w') !! geometry sprite
      = Some (built o (random (host w)) Panel (scale (globals w))
                (Z.to_nat (Qtruncate (sprite_count o)))
                (starts (12 + 6 * n1 + d) n2)) /\
    (forall i, (i < nextId (heap w))%nat ->
       geometries (heap w') !! i = geometries (heap w) !! i) /\
    drawn (host w') = (16 + 6 * (n1 + n2) + d)%nat /\
    nextId (heap w') = (4 + nextId (heap w))%nat /\
    (background <$> scene (globals w')) = (background <$> scene (globals w)) /\
    (scene_fog <$> scene (globals w')) = (scene_fog <$> scene (globals w)) /\
    camera (globals w') = camera (globals w) /\
    renderer (globals w') = renderer (globals w) /\
    gui (globals w') = gui (globals w) /\
    (windowWidth (globals w'), windowHeight (globals w'), scale (globals w'))
      = (windowWidth (globals w), windowHeight (globals w), scale (globals w)) /\
    resizeListeners (host w') = resizeListeners (host w) /\
    frameRequests (host w') = frameRequests (host w) /\
    body (host w') = body (host w) /\
    options w' = o.
Proof.
  intros Hre HN Hr0 Hr1 Hfuel o d n1 n2.
  destruct (rebuildable_parts w Hre) as (m1 & m2 & Hs & Hm1 & Hm2 & Hx1 & Hx2).
  pose proof (remakeSystem_run fuel w m1 m2 Hs Hm1 Hm2 Hx1 Hx2 HN Hr0 Hr1 Hfuel) as Hrun.
  destruct (after_remakeSystem_fields m1 m2 w)
    as (Fo & Fh & Fg & Fn & Fgs & Fms & Fdg & Fdm).
  set (w' := after_remakeSystem m1 m2 w) in *.
  exists w', {| id := S (nextId (heap w)); geometry := nextId (heap w); material := m1 |},
    {| id := S (S (S (nextId (heap w)))); geometry := S (S (nextId (heap w)));
       material := m2 |}.
  split; [exact Hrun|].
  split; [unfold systems; rewrite Fg; cbn; by destruct (scene (globals w))|].
  split.
  { rewrite Fg. cbn [snowMat set_scene].
    apply (uniforms_of_retouched (with_rangeY (rangeY o)) w w' _ (fun u => eq_refl) Fms). by left. }
  split.
  { rewrite Fg. cbn [spriteMat set_scene].
    apply (uniforms_of_retouched (with_rangeY (rangeY o)) w w' _ (fun u => eq_refl) Fms). by right. }
  split; [intros m H1 H2; rewrite Fms; by apply retouched_other|].
  split; [rewrite Fgs; cbn [geometry]; by rewrite lookup_insert_ne, lookup_insert_eq by lia|].
  split.
  { rewrite Fgs. cbn [geometry]. by rewrite lookup_insert_eq. }
  split; [intros i Hi; rewrite Fgs; by rewrite !lookup_insert_ne by lia|].
  split; [rewrite Fh; cbn; subst n1 n2 d o; lia|].
  split; [rewrite Fn; reflexivity|].
  rewrite Fg, Fh, Fo. cbn.
  by destruct (scene (globals w)).
Qed.

Lemma rebuild_resamples_under_the_current_options_witness :
  let w0 := example_scene Panel 10 0.3 in
  let w := set_options (write_option "rangeY" (VNumber 200) (options w0)) w0 in
  exists w' snow sprite,
    remakeSystem 2 w = (Normal tt, w') /\
    systems w' = [snow; sprite] /\
    (u_rangeY <$> uniforms_of w' (snowMat (globals w'))) = Some 200 /\
    (u_rangeY <$> uniforms_of w' (spriteMat (globals w'))) = Some 200 /\
    drawn (host w') = (76 + drawn (host w))%nat.
Proof.
  intros w0 w.
  destruct (rebuild_resamples_under_the_current_options 2 w)
    as (w' & snow & sprite & Hrun & Hsys & H1 & H2 & _ & _ & _ & _ & Hd & _);
    [vm_compute; reflexivity | vm_compute; discriminate.. | vm_compute; lia |].
  exists w', snow, sprite.
  split; [exact Hrun|]. split; [exact Hsys|].
  split; [rewrite H1; vm_compute; reflexivity|].
  split; [rewrite H2; vm_compute; reflexivity|].
  rewrite Hd. vm_compute. reflexivity.
Defined.

(** X7.  The materials [remakeSystem] gives the new particle systems are the
    ones it has just disposed: when the scene held a system on the snow
    material and one on the sprite material, as it does after start-up
    and after every rebuild, every system of the new scene is drawn
    with a material on which [dispose] has been called, and which is
    still there. *)
Theorem rebuild_reuses_the_disposed_materials (fuel : nat) (w : World) :
  rebuildable w = true ->
  0 <= particleCount (options w) ->
  0 <= ratio (options w) ->
  ratio (options w) <= 1 ->
  (length (systems w) <= fuel)%nat ->
  (exists p, p ∈ systems w /\ snowMat (globals w) = Some (material p)) ->
  (exists p, p ∈ systems w /\ spriteMat (globals w) = Some (material p)) ->
  exists w',
    remakeSystem fuel w = (Normal tt, w') /\
    forall q, q ∈ systems w' ->
      material q ∈ disposedMaterials (heap w') /\
      is_some (materials (heap w') !! material q) = true.
Proof.
  intros Hre HN Hr0 Hr1 Hfuel (p1 & Hp1 & Hu1) (p2 & Hp2 & Hu2).
  destruct (rebuildable_parts w Hre) as (m1 & m2 & Hs & Hm1 & Hm2 & Hx1 & Hx2).
  pose proof (remakeSystem_run fuel w m1 m2 Hs Hm1 Hm2 Hx1 Hx2 HN Hr0 Hr1 Hfuel) as Hrun.
  destruct (after_remakeSystem_fields m1 m2 w)
    as (_ & _ & Fg & _ & _ & Fms & _ & Fdm).
  exists (after_remakeSystem m1 m2 w). split; [exact Hrun|].
  assert (Hd : forall p, p ∈ systems w ->
            material p ∈ disposedMaterials (heap (after_remakeSystem m1 m2 w))).
  { intros p Hp. rewrite Fdm. apply elem_of_app. left.
    apply list_elem_of_In. apply -> in_rev. apply in_map. by apply list_elem_of_In. }
  intros q Hq. unfold systems in Hq. rewrite Fg in Hq. cbn in Hq.
  destruct (scene (globals w)) as [s|]; [|done]. cbn in Hq.
  rewrite Fms, is_some_retouched.
  apply elem_of_cons in Hq as [->|Hq].
  - cbn [material]. split; [|exact Hx1].
    assert (m1 = material p1) as -> by congruence. by apply Hd.
  - apply list_elem_of_singleton in Hq as ->. cbn [material]. split; [|exact Hx2].
    assert (m2 = material p2) as -> by congruence. by apply Hd.
Qed.

Lemma rebuild_reuses_the_disposed_materials_witness :
  let w := example_scene Panel 10 0.3 in
  exists w',
    remakeSystem 2 w = (Normal tt, w') /\
    forall q, q ∈ systems w' -> material q ∈ disposedMaterials (heap w').
Proof.
  intros w.
  destruct (rebuild_reuses_the_disposed_materials 2 w) as (w' & Hrun & H);
    [ vm_compute; reflexivity | vm_compute; discriminate.. | vm_compute; lia
    | exists {| id := 3; geometry := 2; material := 0 |}; split;
        [vm_compute; apply list_elem_of_here | vm_compute; reflexivity]
    | exists {| id := 5; geometry := 4; material := 1 |}; split;
        [vm_compute; apply list_elem_of_further, list_elem_of_here | vm_compute; reflexivity] |].
  exists w'. split; [exact Hrun|]. intros q Hq. exact (proj1 (H q Hq)).
Defined.

Lemma forallb_elem_of {A} (f : A -> bool) (l : list A) (x : A) :
  forallb f l = true -> x ∈ l -> f x = true.
Proof. intros H Hx. rewrite forallb_forall in H. by apply H, list_elem_of_In. Qed.

(** X8.  [updateSprite], in a state where the scene exists, with a particle
    count that is not negative and a ratio in [0, 1]: two materials are
    made on fresh identifiers, with the sizes, the [rangeY], the alpha
    test and the flags of the options of the moment, the textures loaded
    at start-up and the time 0, and become the snow and the sprite
    material; the scene is rebuilt on them.  The materials of the old
    systems are disposed and stay in memory as they were; the new
    systems are drawn with materials that have not been disposed. *)
Theorem sprite_edit_makes_new_materials_and_rebuilds (fuel : nat) (w : World) :
  is_some (scene (globals w)) = true ->
  0 <= particleCount (options w) ->
  0 <= ratio (options w) ->
  ratio (options w) <= 1 ->
  (length (systems w) <= fuel)%nat ->
  forallb (below_next w) (disposedMaterials (heap w)) = true ->
  forallb (fun p => below_next w (material p)) (systems w) = true ->
  let o := options w in
  exists w' p1 p2 x1 x2,
    updateSprite fuel w = (Normal tt, w') /\
    systems w' = [p1; p2] /\
    material p1 = nextId (heap w) /\
    material p2 = S (nextId (heap w)) /\
    snowMat (globals w') = Some (material p1) /\
    spriteMat (globals w') = Some (material p2) /\
    materials (heap w') !! material p1 = Some x1 /\
    materials (heap w') !! material p2 = Some x2 /\
    uniforms x1 = {| u_uTime := 0; u_size := snowSize o; u_rangeY := rangeY o;
                     u_map := snowSprite (globals w); u_alphaTest := alphaTest o |} /\
    uniforms x2 = {| u_uTime := 0; u_size := spriteSize o; u_rangeY := rangeY o;
                     u_map := sprite (globals w); u_alphaTest := alphaTest o |} /\
    (USE_SIZEATTENUATION x1, transparent x1, m_fog x1) = (sizeAttenuation o, true, fog o) /\
    (USE_SIZEATTENUATION x2, transparent x2, m_fog x2) = (sizeAttenuation o, true, fog o) /\
    (forall m, (m < nextId (heap w))%nat ->
       materials (heap w') !! m = materials (heap w) !! m) /\
    (forall p, p ∈ systems w -> material p ∈ disposedMaterials (heap w')) /\
    (forall q, q ∈ systems w' -> material q ∉ disposedMaterials (heap w')) /\
    nextId (heap w') = (6 + nextId (heap w))%nat /\
    options w' = o.
Proof.
  intros Hs HN Hr0 Hr1 Hfuel Hdm Hsm o.
  pose proof (updateSprite_run fuel w Hs HN Hr0 Hr1 Hfuel) as Hrun.
  unfold after_updateSprite in Hrun.
  destruct (after_remakeSystem_fields (nextId (heap w)) (S (nextId (heap w)))
              (with_new_materials w))
    as (Fo & _ & Fg & Fn & _ & Fms & _ & Fdm).
  set (w' := after_remakeSystem _ _ _) in *.
  set (nid := nextId (heap w)) in *.
  exists w', {| id := S (S (S nid)); geometry := S (S nid); material := nid |},
    {| id := S (S (S (S (S nid)))); geometry := S (S (S (S nid))); material := S nid |},
    (new_material o (snowSize o) (snowSprite (globals w))),
    (new_material o (spriteSize o) (sprite (globals w))).
  assert (Hsys : systems w' =
            [ {| id := S (S (S nid)); geometry := S (S nid); material := nid |};
              {| id := S (S (S (S (S nid)))); geometry := S (S (S (S nid)));
                 material := S nid |} ]).
  { unfold systems. rewrite Fg. cbn. by destruct (scene (globals w)). }
  assert (Hold : forall p, p ∈ systems w -> (material p < nid)%nat).
  { intros p Hp. apply Nat.ltb_lt. exact (forallb_elem_of _ _ _ Hsm Hp). }
  split; [exact Hrun|]. split; [exact Hsys|].
  split; [reflexivity|]. split; [reflexivity|].
  split; [by rewrite Fg|]. split; [by rewrite Fg|].
  assert (Hms : materials (heap w') !! nid
                = Some (new_material o (snowSize o) (snowSprite (globals w))) /\
                materials (heap w') !! S nid
                = Some (new_material o (spriteSize o) (sprite (globals w))) /\
                forall m, (m < nid)%nat ->
                  materials (heap w') !! m = materials (heap w) !! m).
  { rewrite Fms. unfold retouched. cbn. fold nid.
    split; [by rewrite lookup_alter_ne, lookup_alter_eq, lookup_insert_ne,
                       lookup_insert_eq by lia|].
    split; [by rewrite lookup_alter_eq, lookup_alter_ne, lookup_insert_eq by lia|].
    intros m Hm. by rewrite !lookup_alter_ne, !lookup_insert_ne by lia. }
  destruct Hms as (Hn1 & Hn2 & Hn3).
  cbn [material].
  split; [exact Hn1|]. split; [exact Hn2|].
  split; [reflexivity|]. split; [reflexivity|].
  split; [reflexivity|]. split; [reflexivity|].
  split; [exact Hn3|].
  split.
  { intros p Hp. rewrite Fdm. apply elem_of_app. left.
    apply list_elem_of_In. apply -> in_rev. apply in_map. by apply list_elem_of_In. }
  split.
  { intros q Hq. rewrite Hsys in Hq. rewrite Fdm. intros Hin.
    assert (Hlt : (material q < nid)%nat).
    { apply elem_of_app in Hin as [Hin|Hin].
      - apply list_elem_of_In, in_rev, in_map_iff in Hin.
        destruct Hin as (p & <- & Hp). apply Hold. by apply list_elem_of_In.
      - apply Nat.ltb_lt. exact (forallb_elem_of _ _ _ Hdm Hin). }
    apply elem_of_cons in Hq as [->|Hq]; [cbn in Hlt; lia|].
    apply list_elem_of_singleton in Hq as ->. cbn in Hlt; lia. }
  split; [rewrite Fn; reflexivity|].
  rewrite Fo. reflexivity.
Qed.

Lemma sprite_edit_makes_new_materials_and_rebuilds_witness :
  let w0 := example_scene Panel 10 0.3 in
  let w := set_options (write_option "snowSize" (VNumber 7) (options w0)) w0 in
  exists w' p1 p2 x1,
    updateSprite 2 w = (Normal tt, w') /\
    systems w' = [p1; p2] /\
    materials (heap w') !! material p1 = Some x1 /\
    u_size (uniforms x1) = 7 /\
    material p1 ∉ disposedMaterials (heap w').
Proof.
  intros w0 w.
  destruct (sprite_edit_makes_new_materials_and_rebuilds 2 w)
    as (w' & snow & sprite & x1 & x2 & Hrun & Hsys & _ & _ & _ & _ & H1 & _ & U1 & _
        & _ & _ & _ & _ & Hnd & _);
    [ vm_compute; reflexivity | vm_compute; discriminate | vm_compute; discriminate
    | vm_compute; discriminate | vm_compute; lia
    | vm_compute; reflexivity | vm_compute; reflexivity |].
  exists w', snow, sprite, x1.
  split; [exact Hrun|]. split; [exact Hsys|]. split; [exact H1|].
  split; [by rewrite U1|].
  apply Hnd. rewrite Hsys. apply list_elem_of_here.
Defined.

(** ** The panel *)

(** *** What a controller writes *)








(** The panel brings 20 particles to none, the nearest multiple of its
    step of a thousand, although its lower bound is 1; it brings a
    ratio of 1.5 to 1 and one of 0.123 to the binary64 nearest 0.12. *)
Example written_values :
  let count := {| folder := "Simulation"; property := "particleCount"; label := None;
                  bounds := Some (1, 1000000); step := Some 1000;
                  trigger := OnFinishChange; callback := RemakeSystem |} in
  let ratio := {| folder := "Sprites"; property := "ratio"; label := None;
                  bounds := Some (0.0, 1.0); step := Some 0.01;
                  trigger := OnFinishChange; callback := UpdateSprite |} in
  NumberController_setValue count 20 == 0 /\
  NumberController_setValue count 1499 == 1000 /\
  NumberController_setValue count 3000 == 3000 /\
  NumberController_setValue ratio 1.5 == 1 /\
  NumberController_setValue ratio (- 3) == 0 /\
  NumberController_setValue ratio 0.123 == binary64 0.12.
Proof. repeat split; vm_compute; reflexivity. Qed.


Lemma scene_edit_run (fuel : nat) (o0 : Options) (c : Controller) (value : Value) (w : World) :
  c ∈ controllers o0 ->
  callback c <> RemakeSystem ->
  callback c <> UpdateSprite ->
  scene_in_step w ->
  exists w',
    dispatch Panel fuel (GuiChange c value) w = (Normal tt, w') /\
    scene_in_step w' /\
    options w' = write_option (property c) (setValue c value) (options w) /\
    heap w' = heap w /\
    host w' = host w /\
    systems w' = systems w /\
    (renderer (globals w'), stats (globals w'), gui (globals w'),
     snowMat (globals w'), spriteMat (globals w'),
     snowSprite (globals w'), sprite (globals w'))
    = (renderer (globals w), stats (globals w), gui (globals w),
       snowMat (globals w), spriteMat (globals w),
       snowSprite (globals w), sprite (globals w)) /\
    (windowWidth (globals w'), windowHeight (globals w'),
     windowAspectRatio (globals w'), scale (globals w'))
    = (windowWidth (globals w), windowHeight (globals w),
       windowAspectRatio (globals w), scale (globals w)).
Proof.
  intros Hc Hn1 Hn2 (s & cam & Hs & Hbg & Hfg & Hcam & Hz).
  destruct w as [o hst [ww wh war sc scn cm rdr st ss sp sm pm gu] hp].
  cbn in Hs, Hbg, Hfg, Hcam, Hz. subst scn cm.
  destruct s as [bg fg cs], cam as [fv asp nr fr pz pm']. cbn in Hbg, Hfg, Hz. subst bg fg pz.
  destruct o as [obg ofg ofr opc ora oss ops osa oal ocz orx ory orz ovy oax oan osp opp].
  unfold fog_of, scene_in_step, systems. cbn [fog backgroundColor fogRange cameraPositionZ].
  repeat (apply elem_of_cons in Hc as [->|Hc]);
    [..|by apply not_elem_of_nil in Hc];
    try (by destruct Hn1); try (by destruct Hn2).
  all: clear Hn1 Hn2.
  all: destruct ofg; destruct value as [col|b|q]; try destruct b.
  all: unfold dispatch, run_callback; cbn [callback property]; exec.
  all: cbn [write_option String.eqb Ascii.eqb Bool.eqb fog fogRange backgroundColor
            cameraPositionZ]; exec.
  all: eexists; split; [reflexivity|].
  all: split; [do 2 eexists; repeat split|].
  all: repeat split.
Qed.

Lemma scene_folders (o0 : Options) (c : Controller) :
  c ∈ controllers o0 ->
  folder c = "Scene" \/ folder c = "Camera" ->
  callback c <> RemakeSystem /\ callback c <> UpdateSprite.
Proof.
  intros Hc Hf.
  repeat (apply elem_of_cons in Hc as [->|Hc]);
    [..|by apply not_elem_of_nil in Hc];
    cbn in *; try (by split); by destruct Hf.
Qed.

(** X9.  An edit in the Scene or the Camera folder of the panel, whatever
    the value: the callback returns; if the scene showed the background
    and the fog of the options and the camera their position before, so
    they do after, the options now holding the edit, a number as the
    controller writes it, within its bounds; nothing is rebuilt:
    the particle systems and everything three.js has allocated, the
    materials and their fog flag among them, are as they were, and so is
    everything of the host. *)
Theorem scene_and_camera_edits_never_rebuild
    (fuel : nat) (o0 : Options) (c : Controller) (value : Value) (w : World) :
  c ∈ controllers o0 ->
  folder c = "Scene" \/ folder c = "Camera" ->
  scene_in_step w ->
  exists w',
    dispatch Panel fuel (GuiChange c value) w = (Normal tt, w') /\
    scene_in_step w' /\
    options w' = write_option (property c) (setValue c value) (options w) /\
    systems w' = systems w /\
    heap w' = heap w /\
    host w' = host w /\
    renderer (globals w') = renderer (globals w).
Proof.
  intros Hc Hf Hin. destruct (scene_folders o0 c Hc Hf) as [H1 H2].
  destruct (scene_edit_run fuel o0 c value w Hc H1 H2 Hin)
    as (w' & Hrun & Hin' & Ho & Hh & Hhost & Hsys & Hg & _).
  exists w'. do 6 (split; [assumption|]). congruence.
Qed.

Lemma scene_and_camera_edits_never_rebuild_witness :
  let w := example_scene Panel 10 0.3 in
  let c := {| folder := "Scene"; property := "fog"; label := None; bounds := None;
              step := None; trigger := OnFinishChange; callback := FogChanged |} in
  exists w',
    dispatch Panel 2 (GuiChange c (VBool false)) w = (Normal tt, w') /\
    fog (options w') = false /\
    (scene_fog <$> scene (globals w')) = Some None /\
    systems w' = systems w /\
    heap w' = heap w.
Proof.
  intros w c.
  destruct (scene_and_camera_edits_never_rebuild 2 (options w) c (VBool false) w)
    as (w' & Hrun & (s & cam & Hs & _ & Hfg & _) & Ho & Hsys & Hh & _);
    [ apply list_elem_of_further, list_elem_of_here
    | left; reflexivity
    | do 2 eexists; do 4 (split; [vm_compute; reflexivity|]); vm_compute; reflexivity |].
  exists w'. split; [exact Hrun|].
  split; [rewrite Ho; vm_compute; reflexivity|].
  split; [rewrite Hs; cbn [fmap option_fmap option_map]; rewrite Hfg, Ho;
          vm_compute; reflexivity|].
  split; [exact Hsys | exact Hh].
Defined.
















(** ** From start-up on *)

(** What the script leaves when it has run, field by field.  The places
    in the random stream are left open. *)
Lemma main_fields (v : Revision) (w : World) :
  isWebGLAvailable (host w) = true ->
  0 <= particleCount (options w) ->
  0 <= ratio (options w) ->
  ratio (options w) <= 1 ->
  let o := options w in
  let wd := fst (visualViewport (host w)) in
  let ht := snd (visualViewport (host w)) in
  let nid := nextId (heap w) in
  let n1 := Z.to_nat (Qceiling (snow_count o)) in
  let n2 := Z.to_nat (Qceiling (sprite_count o)) in
  let snow := {| id := S (S (S nid)); geometry := S (S nid); material := nid |} in
  let sprite := {| id := S (S (S (S (S nid)))); geometry := S (S (S (S nid)));
                   material := S nid |} in
  let tx1 := Some {| path := snowSpritePath o; flipY := false |} in
  let tx2 := Some {| path := spritePath o; flipY := false |} in
  exists w' k k1 k2,
    main v w = (Normal tt, w') /\
    options w' = o /\
    host w' =
      set_frameRequests (frameRequests (host w) ++ [Tick])
        (set_console (console (host w) ++ [o])
           (set_resizeListeners (resizeListeners (host w) ++ [OnWindowResize])
              (set_body (match v with
                         | Panel => (body (host w) ++ [StatsDom]) ++ [Canvas]
                         | Plain => body (host w) ++ [Canvas]
                         end)
                 (set_drawn k (host w))))) /\
    globals w' =
      {| windowWidth := wd; windowHeight := ht; windowAspectRatio := wd / ht;
         scale := ht;
         scene := Some {| background := Some (backgroundColor o);
                          scene_fog := fog_of o;
                          children := [snow; sprite] |};
         camera := Some {| fov := 75; aspect := wd / ht; near := 0.1; far := 1000;
                           position_z := cameraPositionZ o;
                           projectionMatrix := (75, wd / ht, 0.1, 1000) |};
         renderer := Some {| antialias := true; width := wd; height := ht;
                             pixelRatio := devicePixelRatio (host w);
                             frames := 1 |};
         stats := match v with Panel => Some 1%nat | Plain => stats (globals w) end;
         snowSprite := tx1; sprite := tx2;
         snowMat := Some nid; spriteMat := Some (S nid);
         gui := match v with Panel => controllers o | Plain => gui (globals w) end |} /\
    nextId (heap w') = S (S (S (S (S (S nid))))) /\
    geometries (heap w') =
      <[S (S (S (S nid))) := built o (random (host w)) v ht
                               (Z.to_nat (Qtruncate (sprite_count o)))
                               (starts k2 n2)]>
        (<[S (S nid) := built o (random (host w)) v ht
                          (Z.to_nat (Qtruncate (snow_count o)))
                          (starts k1 n1)]> (geometries (heap w))) /\
    materials (heap w') !! nid
      = Some (with_uniforms (with_uTime (elapsed (host w)))
                (new_material o (snowSize o) tx1)) /\
    materials (heap w') !! S nid
      = Some (with_uniforms (with_uTime (elapsed (host w)))
                (new_material o (spriteSize o) tx2)) /\
    (forall m, m <> nid -> m <> S nid ->
       materials (heap w') !! m = materials (heap w) !! m) /\
    disposedGeometries (heap w') = disposedGeometries (heap w) /\
    disposedMaterials (heap w') = disposedMaterials (heap w).
Proof.
  intros Hok HN Hr0 Hr1.
  assert (Hs : 0 <= Number_mul (particleCount (options w))
                      (Number_sub 1.0 (ratio (options w))))
    by (apply Number_mul_nonneg, Number_sub_nonneg; [done | lra]).
  assert (Hp : 0 <= Number_mul (particleCount (options w)) (ratio (options w)))
    by (by apply Number_mul_nonneg).
  pose proof (round_nonneg _ Hs) as H1.
  pose proof (round_nonneg _ Hp) as H2.
  destruct w as [o [ok vp dpr rnd d el bi bo rl fr co]
                   [ww wh war sc scn cam rdr st ss sp sm pm gu] [nid gs ms dg dm cl]].
  change (ok = true) in Hok. subst ok.
  change (options _) with o in HN, Hr0, Hr1, Hs, Hp, H1, H2.
  cbv zeta. unfold snow_count, sprite_count, fog_of, new_material, with_uniforms, with_uTime.
  cbn [options host globals heap visualViewport nextId drawn random elapsed body
       resizeListeners frameRequests console devicePixelRatio stats gui geometries
       materials disposedGeometries disposedMaterials uniforms u_uTime u_size u_rangeY
       u_map u_alphaTest USE_SIZEATTENUATION m_vertexShader m_fragmentShader
       transparent m_fog].
  destruct v, (fog o) eqn:Hfog.
  all: do 4 eexists; split;
    [ exec; rewrite Hfog; exec;
      rewrite newParticleSystem_run by (by rewrite Qtruncate_round); exec;
      rewrite newParticleSystem_run by (by rewrite Qtruncate_round); exec;
      lookups; exec; lookups; exec;
      cbn [app Nat.eqb]; rewrite (proj2 (Nat.eqb_neq _ _)) by lia;
      reflexivity |].
  all: cbn [options host globals heap nextId geometries materials disposedGeometries
            disposedMaterials].
  all: split; [reflexivity|]. 
  all: split; [reflexivity|].
  all: split; [reflexivity|].
  all: split; [reflexivity|].
  all: split; [reflexivity|].
  all: split; [lookups; by rewrite ?Hfog|].
  all: split; [lookups; by rewrite ?Hfog|].
  all: split; [intros m Hm1 Hm2; by rewrite !lookup_insert_ne by done|].
  all: by split.
Qed.

(** X10.  The script, run on a page where WebGL is available, with a particle
    count that is not negative and a ratio in [0, 1]: it returns; the
    scene has the background colour of the options and their fog, or
    none when fog is off; the camera is the perspective camera of 75
    degrees with the aspect ratio of the viewport, at the distance the
    options give; the renderer has the size of the viewport and the
    pixel ratio of the device and has drawn one frame; the canvas is
    appended to the body, after the frame counter in the revision that
    has one; the resize handler is registered, the options are logged
    once, the next frame is requested, and the panel has its
    controllers.  When no listener and no frame request was there
    before, the page is left ready for resizes and frames.  (A viewport
    of height 0 makes the script divide by zero, which the rationals do
    not render.) *)
Theorem start_up_sets_the_stage (v : Revision) (w : World) :
  isWebGLAvailable (host w) = true ->
  0 <= particleCount (options w) ->
  0 <= ratio (options w) ->
  ratio (options w) <= 1 ->
  ~ snd (visualViewport (host w)) == 0 ->
  let o := options w in
  let wd := fst (visualViewport (host w)) in
  let ht := snd (visualViewport (host w)) in
  exists w' s c r,
    main v w = (Normal tt, w') /\
    scene (globals w') = Some s /\
    camera (globals w') = Some c /\
    renderer (globals w') = Some r /\
    background s = Some (backgroundColor o) /\
    scene_fog s = fog_of o /\
    c = {| fov := 75; aspect := wd / ht; near := 0.1; far := 1000;
           position_z := cameraPositionZ o;
           projectionMatrix := (75, wd / ht, 0.1, 1000) |} /\
    r = {| antialias := true; width := wd; height := ht;
           pixelRatio := devicePixelRatio (host w); frames := 1 |} /\
    (windowWidth (globals w'), windowHeight (globals w'),
     windowAspectRatio (globals w'), scale (globals w')) = (wd, ht, wd / ht, ht) /\
    body (host w') = body (host w)
                     ++ match v with Panel => [StatsDom; Canvas] | Plain => [Canvas] end /\
    resizeListeners (host w') = resizeListeners (host w) ++ [OnWindowResize] /\
    frameRequests (host w') = frameRequests (host w) ++ [Tick] /\
    console (host w') = console (host w) ++ [o] /\
    gui (globals w') = match v with Panel => controllers o | Plain => gui (globals w) end /\
    byId (host w') = byId (host w) /\
    options w' = o /\
    (resizeListeners (host w) = [] -> frameRequests (host w) = [] -> running v w').
Proof.
  intros Hok HN Hr0 Hr1 _ o wd ht.
  destruct (start_up_leaves_the_page_ready v w Hok HN Hr0 Hr1) as (_ & Hrd & _).
  destruct (main_fields v w Hok HN Hr0 Hr1)
    as (w' & k & k1 & k2 & Hrun & Fo & Fh & Fg & Fn & Fgs & Fm1 & Fm2 & _).
  rewrite Hrun in Hrd. cbn [snd] in Hrd.
  eexists w', _, _, _. split; [exact Hrun|].
  rewrite Fg, Fh. cbn [scene camera renderer globals].
  do 3 (split; [reflexivity|]).
  do 5 (split; [reflexivity|]).
  split; [destruct v; cbn; by rewrite <- ?app_assoc|].
  do 5 (split; [reflexivity|]). split; [exact Fo|].
  intros Hl Hf. split; [exact Hrd|]. split; [|by rewrite Fh; cbn; rewrite Hl, Hf].
  unfold tickable, material_ready. rewrite Fg. cbn [scene camera renderer stats snowMat
    spriteMat is_some andb]. rewrite Fm1, Fm2. by destruct v.
Qed.

Lemma start_up_sets_the_stage_witness :
  exists w' c,
    main Plain (example_page true (example_options Plain 10 0.25)) = (Normal tt, w') /\
    camera (globals w') = Some c /\
    aspect c = 1280 / 720 /\
    position_z c = 100 /\
    body (host w') = [Canvas] /\
    running Plain w'.
Proof.
  destruct (start_up_sets_the_stage Plain (example_page true (example_options Plain 10 0.25)))
    as (w' & s & c & r & Hrun & _ & Hc & _ & _ & _ & Ec & _ & _ & Hb & _ & _ & _ & _ & _ & _ & Hk);
    [reflexivity | vm_compute; discriminate.. |].
  exists w', c. split; [exact Hrun|]. split; [exact Hc|].
  split; [by rewrite Ec|]. split; [by rewrite Ec|]. split; [exact Hb|].
  apply Hk; reflexivity.
Defined.

(** X11.  After start-up each particle system is drawn with its own material:
    the snow with the snow material, which carries the snow size and
    the snow texture, the sprites with the sprite material, which
    carries the sprite size and the sprite texture.  Both materials are
    new, carry the [rangeY] and the alpha test of the options, the
    textures unflipped, and as their time the reading of the clock made
    by the first call of the update loop; both are transparent and take
    size attenuation and fog from the options.  No other material is
    touched and nothing is disposed. *)
Theorem start_up_gives_each_system_its_material (v : Revision) (w : World) :
  isWebGLAvailable (host w) = true ->
  0 <= particleCount (options w) ->
  0 <= ratio (options w) ->
  ratio (options w) <= 1 ->
  let o := options w in
  exists w' p1 p2 x1 x2,
    main v w = (Normal tt, w') /\
    systems w' = [p1; p2] /\
    snowMat (globals w') = Some (material p1) /\
    spriteMat (globals w') = Some (material p2) /\
    material p1 = nextId (heap w) /\
    material p2 = S (nextId (heap w)) /\
    materials (heap w') !! material p1 = Some x1 /\
    materials (heap w') !! material p2 = Some x2 /\
    uniforms x1 = {| u_uTime := elapsed (host w); u_size := snowSize o;
                     u_rangeY := rangeY o;
                     u_map := Some {| path := snowSpritePath o; flipY := false |};
                     u_alphaTest := alphaTest o |} /\
    uniforms x2 = {| u_uTime := elapsed (host w); u_size := spriteSize o;
                     u_rangeY := rangeY o;
                     u_map := Some {| path := spritePath o; flipY := false |};
                     u_alphaTest := alphaTest o |} /\
    (USE_SIZEATTENUATION x1, transparent x1, m_fog x1) = (sizeAttenuation o, true, fog o) /\
    (USE_SIZEATTENUATION x2, transparent x2, m_fog x2) = (sizeAttenuation o, true, fog o) /\
    (m_vertexShader x1, m_fragmentShader x1) = (vertexShader, fragmentShader) /\
    (m_vertexShader x2, m_fragmentShader x2) = (vertexShader, fragmentShader) /\
    snowSprite (globals w') = u_map (uniforms x1) /\
    sprite (globals w') = u_map (uniforms x2) /\
    (forall m, m <> material p1 -> m <> material p2 ->
       materials (heap w') !! m = materials (heap w) !! m) /\
    disposedGeometries (heap w') = disposedGeometries (heap w) /\
    disposedMaterials (heap w') = disposedMaterials (heap w).
Proof.
  intros Hok HN Hr0 Hr1 o.
  destruct (main_fields v w Hok HN Hr0 Hr1)
    as (w' & k & k1 & k2 & Hrun & Fo & Fh & Fg & Fn & Fgs & Fm1 & Fm2 & Fm & Fdg & Fdm).
  eexists w', _, _, _, _. split; [exact Hrun|].
  unfold systems. rewrite Fg. cbn [scene children snowMat spriteMat snowSprite sprite].
  split; [reflexivity|]. cbn [material].
  do 4 (split; [reflexivity|]).
  split; [exact Fm1|]. split; [exact Fm2|].
  do 8 (split; [reflexivity|]).
  by split.
Qed.

(** X12.  In the revision with the panel, on a page without listeners or
    frame requests where nothing beyond the identifiers given out has
    been disposed, the script leaves the page settled: the handlers and
    the callbacks of the panel can run, and the scene shows the
    options. *)
Theorem start_up_settles_the_page (w : World) :
  isWebGLAvailable (host w) = true ->
  0 <= particleCount (options w) ->
  0 <= ratio (options w) ->
  ratio (options w) <= 1 ->
  resizeListeners (host w) = [] ->
  frameRequests (host w) = [] ->
  forallb (below_next w) (disposedGeometries (heap w)) = true ->
  exists w', main Panel w = (Normal tt, w') /\ settled w'.
Proof.
  intros Hok HN Hr0 Hr1.
  assert (Hsn : 0 <= Number_mul (particleCount (options w))
                      (Number_sub 1.0 (ratio (options w))))
    by (apply Number_mul_nonneg, Number_sub_nonneg; [done | lra]).
  assert (Hsp : 0 <= Number_mul (particleCount (options w)) (ratio (options w)))
    by (by apply Number_mul_nonneg).
  intros Hl Hf Hdg.
  destruct (start_up_leaves_the_page_ready Panel w Hok HN Hr0 Hr1) as (_ & Hrd & Hre).
  specialize (Hre Hdg).
  destruct (main_fields Panel w Hok HN Hr0 Hr1)
    as (w' & k & k1 & k2 & Hrun & Fo & Fh & Fg & Fn & Fgs & Fm1 & Fm2 & Fm & Fdg & Fdm).
  rewrite Hrun in Hrd, Hre. cbn [snd] in Hrd, Hre.
  destruct (built_particles_round (options w) (random (host w)) Panel
              (snd (visualViewport (host w)))
              (Z.to_nat (Qtruncate (snow_count (options w)))) k1 _ Hsn)
    as (a & Ha & Ea & _).
  destruct (built_particles_round (options w) (random (host w)) Panel
              (snd (visualViewport (host w)))
              (Z.to_nat (Qtruncate (sprite_count (options w)))) k2 _ Hsp)
    as (b & Hb & Eb & _).
  exists w'. split; [exact Hrun|].
  split.
  { split; [exact Hrd|]. split; [|by rewrite Fh; cbn; rewrite Hl, Hf].
    unfold tickable, material_ready. rewrite Fg.
    cbn [scene camera renderer stats snowMat spriteMat is_some andb].
    by rewrite Fm1, Fm2. }
  split; [exact Hre|].
  rewrite Fo. do 3 (split; [assumption|]).
  split; [rewrite Fg; by eexists|].
  split.
  { eexists _, _. rewrite Fg, Fo. cbn [scene camera]. by repeat split. }
  eexists _, _, _, _, a, b.
  unfold systems, particles, attribute. rewrite Fg, Fo, Fgs.
  cbn [scene children snowMat spriteMat material geometry].
  split; [reflexivity|]. split; [reflexivity|]. split; [reflexivity|].
  split; [exact Fm1|]. split; [exact Fm2|].
  do 6 (split; [reflexivity|]).
  cbn [geometry]. lookups.
  split; [exact Ha|]. split; [exact Ea|]. split; [exact Hb|]. exact Eb.
Qed.



Lemma start_up_gives_each_system_its_material_witness :
  exists w' p1 p2 x1 x2,
    main Panel (example_page true (example_options Panel 10 0.3)) = (Normal tt, w') /\
    systems w' = [p1; p2] /\
    materials (heap w') !! material p1 = Some x1 /\
    materials (heap w') !! material p2 = Some x2 /\
    u_size (uniforms x1) = 2 /\
    u_size (uniforms x2) = 3.
Proof.
  destruct (start_up_gives_each_system_its_material Panel
              (example_page true (example_options Panel 10 0.3)))
    as (w' & p1 & p2 & x1 & x2 & Hrun & Hsys & _ & _ & _ & _ & H1 & H2 & U1 & U2 & _);
    [reflexivity | vm_compute; discriminate.. |].
  exists w', p1, p2, x1, x2.
  split; [exact Hrun|]. split; [exact Hsys|]. split; [exact H1|]. split; [exact H2|].
  split; [by rewrite U1 | by rewrite U2].
Defined.

Lemma start_up_settles_the_page_witness :
  exists w',
    main Panel (example_page true (example_options Panel 10 0.3)) = (Normal tt, w') /\
    settled w'.
Proof.
  apply (start_up_settles_the_page (example_page true (example_options Panel 10 0.3)));
    [reflexivity | vm_compute; discriminate | vm_compute; discriminate
    | vm_compute; discriminate | reflexivity | reflexivity | reflexivity].
Defined.


(** ** More on [newParticleSystem] *)

Lemma sample_angle_within (o : Options) (rnd : nat -> Q) (k : nat) :
  unit_interval rnd ->
  angleX o - 0.1 <= sample_angle o rnd k /\ sample_angle o rnd k <= angleX o + 0.1.
Proof.
  intros Hr. destruct (Hr (5 + k)%nat) as [H0 H1]. unfold sample_angle.
  apply randFloat_within; [lra | exact H0 | exact H1].
Qed.

(** X14.  The angle of every generated particle lies within a tenth of the
    configured angle, whatever that is, when [Math.random] yields
    numbers of [0, 1); the angle of particle [i] comes from the last of
    the six draws made for that particle, which follow the four made
    for the identifier of the geometry. *)
Theorem sampled_angles_within_a_tenth_of_angleX
    (v : Revision) (material n : nat) (w : World) :
  unit_interval (random (host w)) ->
  let o := options w in
  exists p w' ang,
    newParticleSystem v material (inject_Z (Z.of_nat n)) w = (Normal p, w') /\
    attribute w' p "angle" = Some ang /\
    length (array ang) = n /\
    Forall (fun a => angleX o - 0.1 <= a /\ a <= angleX o + 0.1) (array ang) /\
    forall i, (i < n)%nat ->
      array ang !! i
      = Some (angleX o - 0.1
              + random (host w) (4 + drawn (host w) + 6 * i + 5)
                * (angleX o + 0.1 - (angleX o - 0.1))).
Proof.
  intros Hr o.
  destruct (newParticleSystem_count v material n w) as (p & w' & Hrun & _ & _ & E).
  exists p, w'. eexists. split; [exact Hrun|].
  rewrite E. split; [apply built_angle|].
  cbn [array Float32BufferAttribute].
  split; [by rewrite length_map, starts_length|].
  split.
  - apply Forall_forall. intros x Hx.
    apply list_elem_of_In, in_map_iff in Hx. destruct Hx as (k & <- & _).
    by apply sample_angle_within.
  - intros i Hi.
    change (List.map ?f ?l) with (f <$> l).
    rewrite list_lookup_fmap, starts_lookup by exact Hi. cbn. unfold sample_angle.
    do 4 f_equal. lia.
Qed.

Lemma sampled_angles_within_a_tenth_of_angleX_witness :
  exists p w' ang,
    newParticleSystem Panel 0 (inject_Z (Z.of_nat 3))
      (example_page true (default_options Panel)) = (Normal p, w') /\
    attribute w' p "angle" = Some ang /\
    length (array ang) = 3%nat /\
    Forall (fun a => 0 - 0.1 <= a /\ a <= 0 + 0.1) (array ang).
Proof.
  destruct (sampled_angles_within_a_tenth_of_angleX Panel 0 3
              (example_page true (default_options Panel)) (example_random true))
    as (p & w' & ang & Hrun & Ha & Hl & Hall & _).
  exists p, w', ang.
  split; [exact Hrun|]. split; [exact Ha|]. split; [exact Hl|]. exact Hall.
Defined.

(** X15.  [newParticleSystem] for a count [n]: it draws exactly
    [6 * n + 8] random numbers, four for the identifier three.js gives
    the geometry, six for each particle and four for the identifier of
    the object it returns; it takes two identifiers of the model, the
    first for the geometry and the second for that object, which refers
    to the material it was given; the scale buffer has [n] slots, all
    holding the scale of the moment.  Every geometry that existed is
    left as it was; the scene is not touched and no call is made on it
    (the caller adds the object), nor is any other variable of the
    script, the materials, the options or what has been disposed. *)
Theorem newParticleSystem_touches_only_its_own_geometry
    (v : Revision) (material n : nat) (w : World) :
  exists p w' sca,
    newParticleSystem v material (inject_Z (Z.of_nat n)) w = (Normal p, w') /\
    p = {| id := S (nextId (heap w)); geometry := nextId (heap w); material := material |} /\
    nextId (heap w') = S (S (nextId (heap w))) /\
    drawn (host w') = (6 * n + 8 + drawn (host w))%nat /\
    attribute w' p "scale" = Some sca /\
    array sca = repeat (scale (globals w)) n /\
    (forall i, i <> geometry p -> geometries (heap w') !! i = geometries (heap w) !! i) /\
    globals w' = globals w /\
    materials (heap w') = materials (heap w) /\
    disposedGeometries (heap w') = disposedGeometries (heap w) /\
    disposedMaterials (heap w') = disposedMaterials (heap w) /\
    calls (heap w') = calls (heap w) /\
    options w' = options w /\
    host w' = set_drawn (6 * n + 8 + drawn (host w)) (host w).
Proof.
  assert (Hn : (0 <= Qtruncate (inject_Z (Z.of_nat n)))%Z) by (rewrite Qtruncate_Z; lia).
  destruct w as [o [ok vp dpr rnd d el bi bo rl fr co] g [nid gs ms dg dm cl]].
  eexists _, (after_newParticleSystem v (inject_Z (Z.of_nat n)) _), _.
  split; [by apply newParticleSystem_run|].
  split; [reflexivity|].
  rewrite attribute_after_newParticleSystem, built_scale by reflexivity.
  unfold after_newParticleSystem.
  rewrite Qceiling_Z, Qtruncate_Z, Nat2Z.id.
  replace (8 + 6 * n)%nat with (6 * n + 8)%nat by lia.
  written_out. cbn [geometry].
  split; [reflexivity|]. split; [reflexivity|]. split; [reflexivity|].
  split; [reflexivity|].
  split; [intros i Hi; by rewrite lookup_insert_ne|].
  by repeat split.
Qed.
(** ** How many particles there are *)

(** The error of the rounding to binary64 is at most the part
    [2^-53] of the number rounded. *)
Lemma round_half_even_error (u : Q) :
  - (1 # 2) <= inject_Z (round_half_even u) - u
  /\ inject_Z (round_half_even u) - u <= 1 # 2.
Proof.
  unfold round_half_even.
  pose proof (Qfloor_le u) as Flo. pose proof (Qlt_floor u) as Fhi.
  rewrite inject_Z_plus in Fhi. change (inject_Z 1) with 1 in Fhi.
  destruct (Qcompare_spec (u - inject_Z (Qfloor u)) (1 # 2)) as [E|E|E];
    [destruct (Z.even (Qfloor u))|..];
    rewrite ?inject_Z_plus; change (inject_Z 1) with 1; split; lra.
Qed.

Lemma nearest_error (n d : positive) :
  - ((Z.pos n # d) * (1 # 2 ^ 53)) <= nearest n d - (Z.pos n # d)
  /\ nearest n d - (Z.pos n # d) <= (Z.pos n # d) * (1 # 2 ^ 53).
Proof.
  destruct (grid_spec n d) as [Hlo _]. unfold nearest.
  set (e := grid n d) in *. set (u := Z.pos n # d) in *.
  pose proof (two_power_pos e) as He.
  destruct (round_half_even_error (u / 2 ^ e)) as [R1 R2].
  set (k := inject_Z (round_half_even (u / 2 ^ e))) in *.
  assert (Eu : u / 2 ^ e * 2 ^ e == u) by (field; lra).
  assert (Ep : 2 ^ (e + 52) == 2 ^ e * inject_Z (2 ^ 52)).
  { rewrite Qpower_plus by discriminate. reflexivity. }
  change (inject_Z (2 ^ 52)) with (4503599627370496 # 1) in Ep.
  assert (Hh : 2 ^ e * (1 # 2) <= u * (1 # 2 ^ 53)).
  { change (1 # 2 ^ 53) with (1 # 9007199254740992). rewrite Ep in Hlo. lra. }
  assert (P1 : (k - u / 2 ^ e) * 2 ^ e <= (1 # 2) * 2 ^ e)
    by (apply Qmult_le_compat_r; lra).
  assert (P2 : - (1 # 2) * 2 ^ e <= (k - u / 2 ^ e) * 2 ^ e)
    by (apply Qmult_le_compat_r; lra).
  assert (Ed : k * 2 ^ e - u == (k - u / 2 ^ e) * 2 ^ e) by (rewrite <- Eu at 1; ring).
  rewrite Ed. split; lra.
Qed.

Lemma binary64_error (u : Q) :
  0 <= u ->
  - (u * (1 # 2 ^ 53)) <= binary64 u - u /\ binary64 u - u <= u * (1 # 2 ^ 53).
Proof.
  intros Hu. unfold binary64. pose proof (Qred_cases u) as H.
  destruct (Qred u) as [[|n|n] d].
  - change (1 # 2 ^ 53) with (1 # 9007199254740992). split; lra.
  - destruct H as [E _]. rewrite E. apply nearest_error.
  - destruct H as [_ S]. exfalso. lra.
Qed.

Lemma round_half_even_proper (u v : Q) : u == v -> round_half_even u = round_half_even v.
Proof.
  intros E. unfold round_half_even.
  rewrite (Qfloor_comp u v E).
  assert (F : Qcompare (u - inject_Z (Qfloor v)) (1 # 2)
              = Qcompare (v - inject_Z (Qfloor v)) (1 # 2)).
  { apply Qcompare_comp; [by rewrite E | reflexivity]. }
  by rewrite F.
Qed.

(** A whole number below [2^53] is a binary64. *)
Lemma binary64_Z (k : Z) :
  (0 <= k < 2 ^ 53)%Z -> binary64 (inject_Z k) == inject_Z k.
Proof.
  intros [H0 H1]. unfold binary64. pose proof (Qred_cases (inject_Z k)) as H.
  destruct (Qred (inject_Z k)) as [[|n|n] d].
  - by rewrite H.
  - destruct H as [E _].
    destruct (grid_spec n d) as [Hlo _]. unfold nearest.
    set (e := grid n d) in *. rewrite <- E in Hlo.
    assert (He : (e <= 0)%Z).
    { assert (Hk : inject_Z k < 2 ^ 53).
      { change (2 ^ 53) with (inject_Z (2 ^ 53)). rewrite <- Zlt_Qlt. exact H1. }
      assert (Hp : 2 ^ (e + 52) < 2 ^ 53) by lra.
      apply Qpower_lt_compat_l_inv in Hp; [lia | reflexivity]. }
    pose proof (two_power_pos e) as Hpe.
    assert (Ei : / 2 ^ e == inject_Z (2 ^ (- e))).
    { rewrite Zpower_Qpower by lia. change (inject_Z 2) with (2 : Q).
      by rewrite Qpower_opp. }
    assert (Ex : (Z.pos n # d) / 2 ^ e == inject_Z (k * 2 ^ (- e))).
    { rewrite <- E, inject_Z_mult, <- Ei. reflexivity. }
    rewrite (round_half_even_proper _ _ Ex), round_half_even_Z.
    rewrite inject_Z_mult, <- Ei. field. lra.
  - destruct H as [_ S]. exfalso.
    assert (0 <= inject_Z k) by (change 0 with (inject_Z 0); by rewrite <- Zle_Qle).
    lra.
Qed.

Lemma mult_le_left (z x y : Q) : 0 <= z -> x <= y -> z * x <= z * y.
Proof.
  intros Hz H. rewrite (Qmult_comm z x), (Qmult_comm z y).
  by apply Qmult_le_compat_r.
Qed.

(** The two sizes the script computes from a whole count [N] of at most
    [2^50] and a ratio of [0, 1] add up to [N], give or take one: the
    roundings of binary64 move the sum of the two products by less than
    a half, and [Math.round] moves each product by at most a half. *)
Lemma sizes_add_up (n : Z) (N r : Q) :
  N == inject_Z n -> (0 <= n <= 2 ^ 50)%Z -> 0 <= r -> r <= 1 ->
  exists t : Z,
    (- 1 <= t <= 1)%Z /\
    Math_round (Number_mul N (Number_sub 1.0 r)) + Math_round (Number_mul N r)
    == inject_Z (n + t).
Proof.
  intros EN [Hn0 Hn1] Hr0 Hr1.
  unfold Number_mul, Number_sub, Math_round.
  rewrite (binary64_proper N (inject_Z n) EN).
  pose proof (binary64_Z n ltac:(lia)) as EbN.
  set (bN := binary64 (inject_Z n)) in *.
  pose proof binary64_one as E1.
  set (b1 := binary64 1.0) in *.
  assert (Hq0 : 0 <= binary64 r) by (by apply binary64_nonneg).
  assert (Hq1 : binary64 r <= 1).
  { pose proof (binary64_mono r 1.0 ltac:(lra)). fold b1 in H. lra. }
  set (q := binary64 r) in *.
  assert (HN0 : 0 <= inject_Z n) by (change 0 with (inject_Z 0); by rewrite <- Zle_Qle).
  assert (HN1 : inject_Z n <= inject_Z (2 ^ 50)) by (by rewrite <- Zle_Qle).
  change (inject_Z (2 ^ 50)) with (1125899906842624 # 1) in HN1.
  destruct (binary64_error (b1 - q) ltac:(lra)) as [S1 S2].
  set (s := binary64 (b1 - q)) in *.
  assert (Hs0 : 0 <= s) by (apply binary64_nonneg; lra).
  destruct (binary64_error s Hs0) as [T1 T2].
  assert (Ht0 : 0 <= binary64 s) by (by apply binary64_nonneg).
  set (s' := binary64 s) in *.
  assert (HX : 0 <= bN * s') by (apply Qmult_le_0_compat; lra).
  assert (HY : 0 <= bN * q) by (apply Qmult_le_0_compat; lra).
  destruct (binary64_error (bN * s') HX) as [U1 U2].
  destruct (binary64_error (bN * q) HY) as [V1 V2].
  set (u := binary64 (bN * s')) in *. set (v := binary64 (bN * q)) in *.
  change (1 # 2 ^ 53) with (1 # 9007199254740992) in *.
  set (K1 := (1 + (1 # 9007199254740992)) * (1 + (1 # 9007199254740992))).
  set (K2 := (1 - (1 # 9007199254740992)) * (1 - (1 # 9007199254740992))).
  (* the products, bounded through the count *)
  assert (PY : bN * q <= inject_Z n).
  { assert (bN * q <= bN * 1) by (apply mult_le_left; lra). lra. }
  assert (PX1 : bN * s' <= bN * ((b1 - q) * K1))
    by (apply mult_le_left; [|unfold K1]; lra).
  assert (PX2 : bN * ((b1 - q) * K2) <= bN * s')
    by (apply mult_le_left; [|unfold K2]; lra).
  assert (EX1 : bN * ((b1 - q) * K1) == (inject_Z n - bN * q) * K1)
    by (rewrite <- EbN, E1; ring).
  assert (EX2 : bN * ((b1 - q) * K2) == (inject_Z n - bN * q) * K2)
    by (rewrite <- EbN, E1; ring).
  set (X := bN * s') in *. set (Y := bN * q) in *.
  assert (Hsum1 : u + v <= inject_Z n + (2 # 5)) by (unfold K1 in *; lra).
  assert (Hsum2 : inject_Z n - (2 # 5) <= u + v) by (unfold K2 in *; lra).
  (* the two floors *)
  pose proof (Qfloor_le (u + 0.5)) as A1. pose proof (Qlt_floor (u + 0.5)) as A2.
  pose proof (Qfloor_le (v + 0.5)) as B1. pose proof (Qlt_floor (v + 0.5)) as B2.
  set (a := Qfloor (u + 0.5)) in *. set (b := Qfloor (v + 0.5)) in *.
  rewrite inject_Z_plus in A2, B2. change (inject_Z 1) with 1 in A2, B2.
  exists (a + b - n)%Z. split.
  - assert (L : inject_Z (n - 2) < inject_Z (a + b)).
    { unfold Z.sub. rewrite !inject_Z_plus. change (inject_Z (- (2))) with (- (2)). lra. }
    assert (H : inject_Z (a + b) < inject_Z (n + 2)).
    { rewrite !inject_Z_plus. change (inject_Z 2) with 2. lra. }
    rewrite <- Zlt_Qlt in L, H. lia.
  - replace (n + (a + b - n))%Z with (a + b)%Z by lia.
    rewrite inject_Z_plus. apply Qeq_refl.
Qed.

(** X16.  For a whole particle count [N] of at most [2^50] and a ratio in
    [0, 1], the two particle systems the script builds hold [N]
    particles together, give or take one.  Both halves being rounded
    up, the count 5 with the ratio 0.5 gives 6 particles; with the
    ratio 0.9 it gives 5, the binary64 product for the snow falling
    just short of a half. *)
Theorem scene_holds_N_particles_give_or_take_one (v : Revision) (w : World) (n : Z) :
  isWebGLAvailable (host w) = true ->
  particleCount (options w) == inject_Z n ->
  (0 <= n <= 2 ^ 50)%Z ->
  0 <= ratio (options w) ->
  ratio (options w) <= 1 ->
  exists w' p1 p2 a b,
    main v w = (Normal tt, w') /\
    systems w' = [p1; p2] /\
    particles w' p1 = Some a /\
    particles w' p2 = Some b /\
    (a + b == inject_Z n - 1 \/ a + b == inject_Z n \/ a + b == inject_Z n + 1) /\
    (n = 5%Z -> ratio (options w) == 0.5 -> a + b == 6) /\
    (n = 5%Z -> ratio (options w) == 0.9 -> a + b == 5).
Proof.
  intros Hok EN Hn Hr0 Hr1.
  assert (HN : 0 <= particleCount (options w)).
  { rewrite EN. change 0 with (inject_Z 0). rewrite <- Zle_Qle. lia. }
  assert (Hsn : 0 <= Number_mul (particleCount (options w))
                      (Number_sub 1.0 (ratio (options w))))
    by (apply Number_mul_nonneg, Number_sub_nonneg; [done | lra]).
  assert (Hsp : 0 <= Number_mul (particleCount (options w)) (ratio (options w)))
    by (by apply Number_mul_nonneg).
  destruct (main_fields v w Hok HN Hr0 Hr1)
    as (w' & k & k1 & k2 & Hrun & Fo & Fh & Fg & Fn & Fgs & _).
  destruct (built_particles_round (options w) (random (host w)) v
              (snd (visualViewport (host w)))
              (Z.to_nat (Qtruncate (snow_count (options w)))) k1 _ Hsn)
    as (a & Ha & Ea & _).
  destruct (built_particles_round (options w) (random (host w)) v
              (snd (visualViewport (host w)))
              (Z.to_nat (Qtruncate (sprite_count (options w)))) k2 _ Hsp)
    as (b & Hb & Eb & _).
  eexists w', _, _, a, b. split; [exact Hrun|].
  unfold systems, particles, attribute. rewrite Fg, Fgs. cbn [scene children].
  split; [reflexivity|]. cbn [geometry]. lookups.
  split; [exact Ha|]. split; [exact Hb|].
  rewrite Ea, Eb.
  split; [|split].
  - destruct (sizes_add_up n _ _ EN Hn Hr0 Hr1) as (t & Ht & Et).
    rewrite Et, inject_Z_plus.
    assert (Hc : t = (- 1)%Z \/ t = 0%Z \/ t = 1%Z) by lia.
    destruct Hc as [-> | [-> | ->]]; [left | right; left | right; right];
      [change (inject_Z (- 1)) with (- (1)) | change (inject_Z 0) with 0
      | change (inject_Z 1) with 1]; ring.
  - intros -> Er.
    rewrite (Number_sub_proper 1.0 1.0 _ 0.5 (Qeq_refl _) Er).
    rewrite (Number_mul_proper _ 5 _ _ EN (Qeq_refl _)).
    rewrite (Number_mul_proper _ 5 _ 0.5 EN Er).
    vm_compute. reflexivity.
  - intros -> Er.
    rewrite (Number_sub_proper 1.0 1.0 _ 0.9 (Qeq_refl _) Er).
    rewrite (Number_mul_proper _ 5 _ _ EN (Qeq_refl _)).
    rewrite (Number_mul_proper _ 5 _ 0.9 EN Er).
    vm_compute. reflexivity.
Qed.

Lemma scene_holds_N_particles_give_or_take_one_witness :
  exists w' p1 p2 a b,
    main Plain (example_page true (example_options Plain 5 0.5)) = (Normal tt, w') /\
    systems w' = [p1; p2] /\
    particles w' p1 = Some a /\
    particles w' p2 = Some b /\
    a + b == 6.
Proof.
  destruct (scene_holds_N_particles_give_or_take_one Plain
              (example_page true (example_options Plain 5 0.5)) 5)
    as (w' & p1 & p2 & a & b & Hrun & Hsys & Ha & Hb & _ & H6 & _);
    [reflexivity | reflexivity | lia | vm_compute; discriminate
    | vm_compute; discriminate |].
  exists w', p1, p2, a, b.
  split; [exact Hrun|]. split; [exact Hsys|]. split; [exact Ha|]. split; [exact Hb|].
  apply H6; reflexivity.
Defined.

(** ** A start-up that fails *)



(* ================================================================== *)
(** * More on the vertex stage *)

Section ShaderMotion.

Import GLSL.

Lemma Qfloor_unique (u : Q) (k : Z) :
  inject_Z k <= u -> u < inject_Z (k + 1) -> Qfloor u = k.
Proof.
  intros Hlo Hhi.
  pose proof (Qfloor_le u) as Flo. pose proof (Qlt_floor u) as Fhi.
  assert (H1 : inject_Z (Qfloor u) < inject_Z (k + 1)) by lra.
  assert (H2 : inject_Z k < inject_Z (Qfloor u + 1)) by lra.
  rewrite <- Zlt_Qlt in H1, H2. lia.
Qed.

Lemma Qfloor_shift (u : Q) (k : Z) : Qfloor (u + inject_Z k) = (Qfloor u + k)%Z.
Proof.
  pose proof (Qfloor_le u) as Flo. pose proof (Qlt_floor u) as Fhi.
  rewrite inject_Z_plus in Fhi.
  apply Qfloor_unique; rewrite !inject_Z_plus; lra.
Qed.

(** [mod(u + k * v, v) = mod(u, v)] for a whole [k]. *)
Lemma mod_period (u v : Q) (k : Z) :
  ~ v == 0 -> mod_ (u + inject_Z k * v) v == mod_ u v.
Proof.
  intros Hv. unfold mod_.
  assert (E : (u + inject_Z k * v) / v == u / v + inject_Z k) by (by field).
  rewrite E, Qfloor_shift, inject_Z_plus. ring.
Qed.

Lemma mod_proper (u u' v : Q) : u == u' -> mod_ u v == mod_ u' v.
Proof.
  intros E. unfold mod_.
  assert (F : Qfloor (u / v) = Qfloor (u' / v)) by (by rewrite E).
  rewrite F. lra.
Qed.

(** X18.  The fall repeats.  Two instants between which a particle falls a
    whole number of times the height [rangeY] show it at the same
    height; so does moving its start by a whole number of times
    [rangeY].  The size of the point is the same at every instant and
    for every velocity, amplitude and angle: it is computed from the
    position the particle started from, not from the displaced one. *)
Theorem vertex_fall_is_periodic
    (sin cos : Q -> Q) (uTime uTime' size rangeY : Q)
    (projectionMatrix modelViewMatrix : mat4) (USE_SIZEATTENUATION : bool)
    (position : vec3) (scale velocityY amplitudeX angle : Q)
    (velocityY' amplitudeX' angle' : Q) (k : Z) :
  0 < rangeY ->
  10 * velocityY * (uTime' - uTime) == inject_Z k * rangeY ->
  let out := vertex_main sin cos uTime size rangeY projectionMatrix modelViewMatrix
               USE_SIZEATTENUATION position scale velocityY amplitudeX angle in
  let out' := vertex_main sin cos uTime' size rangeY projectionMatrix modelViewMatrix
                USE_SIZEATTENUATION position scale velocityY amplitudeX angle in
  let moved := vertex_main sin cos uTime size rangeY projectionMatrix modelViewMatrix
                 USE_SIZEATTENUATION
                 (Vec3 (x position) (y position + inject_Z k * rangeY) (z position))
                 scale velocityY amplitudeX angle in
  y (newPos out') == y (newPos out) /\
  y (newPos moved) == y (newPos out) /\
  gl_PointSize out' = gl_PointSize out /\
  gl_PointSize
    (vertex_main sin cos uTime' size rangeY projectionMatrix modelViewMatrix
       USE_SIZEATTENUATION position scale velocityY' amplitudeX' angle')
  = gl_PointSize out.
Proof.
  intros Hr Hk out out' moved. subst out out' moved.
  unfold vertex_main, displace. cbn [newPos y gl_PointSize].
  assert (Hv : ~ rangeY == 0) by lra.
  split; [|split; [|by split]].
  - assert (E : y position - uTime' * - velocityY * 10.0
                == y position - uTime * - velocityY * 10.0 + inject_Z k * rangeY).
    { rewrite <- Hk. ring. }
    by rewrite (mod_proper _ _ _ E), mod_period.
  - assert (E : y position + inject_Z k * rangeY - uTime * - velocityY * 10.0
                == y position - uTime * - velocityY * 10.0 + inject_Z k * rangeY) by ring.
    by rewrite (mod_proper _ _ _ E), mod_period.
Qed.

Lemma vertex_fall_is_periodic_witness :
  let identity := Mat4 (Vec4 1 0 0 0) (Vec4 0 1 0 0) (Vec4 0 0 1 0) (Vec4 0 0 0 1) in
  let out := vertex_main (fun _ => 0) (fun _ => 1) 3 2 400 identity identity true
               (Vec3 10 (- 190) 5) 720 (- 2) 4 0.1 in
  let out' := vertex_main (fun _ => 0) (fun _ => 1) 23 2 400 identity identity true
                (Vec3 10 (- 190) 5) 720 (- 2) 4 0.1 in
  y (newPos out') == y (newPos out) /\ gl_PointSize out' = gl_PointSize out.
Proof.
  intros identity out out'.
  destruct (vertex_fall_is_periodic (fun _ => 0) (fun _ => 1) 3 23 2 400
              identity identity true (Vec3 10 (- 190) 5) 720 (- 2) 4 0.1 (- 2) 4 0.1 (- 1))
    as (H1 & _ & H2 & _); [reflexivity | reflexivity |].
  split; [exact H1 | exact H2].
Defined.

(** X19.  The sway is bounded: with a sine and a cosine that stay within
    [-1, 1] and an amplitude that is not negative, as the generator
    samples it, a particle is never shown further than ten times its
    amplitude to either side of where it started; its depth is never
    changed. *)
Theorem vertex_sway_within_ten_amplitudes
    (sin cos : Q -> Q) (uTime size rangeY : Q)
    (projectionMatrix modelViewMatrix : mat4) (USE_SIZEATTENUATION : bool)
    (position : vec3) (scale velocityY amplitudeX angle : Q) :
  (forall u, - 1 <= sin u /\ sin u <= 1) ->
  (forall u, - 1 <= cos u /\ cos u <= 1) ->
  0 <= amplitudeX ->
  let out := vertex_main sin cos uTime size rangeY projectionMatrix modelViewMatrix
               USE_SIZEATTENUATION position scale velocityY amplitudeX angle in
  x position - 10 * amplitudeX <= x (newPos out) /\
  x (newPos out) <= x position + 10 * amplitudeX /\
  z (newPos out) = z position.
Proof.
  intros Hsin Hcos Ha out. subst out. cbn.
  destruct (Hsin (uTime * angle)) as [S1 S2].
  destruct (Hcos (uTime * 2.0 * angle)) as [C1 C2].
  set (s := sin (uTime * angle)) in *. set (c := cos (uTime * 2.0 * angle)) in *.
  assert (P1 : - 1 <= s * c) by nra.
  assert (P2 : s * c <= 1) by nra.
  split; [|split; [|reflexivity]]; nra.
Qed.

Lemma vertex_sway_within_ten_amplitudes_witness :
  let identity := Mat4 (Vec4 1 0 0 0) (Vec4 0 1 0 0) (Vec4 0 0 1 0) (Vec4 0 0 0 1) in
  let out := vertex_main (fun _ => 1) (fun _ => - 1) 3 2 400 identity identity true
               (Vec3 10 (- 190) 5) 720 (- 2) 4 0.1 in
  10 - 10 * 4 <= x (newPos out) /\ x (newPos out) <= 10 + 10 * 4.
Proof.
  intros identity out.
  destruct (vertex_sway_within_ten_amplitudes (fun _ => 1) (fun _ => - 1) 3 2 400
              identity identity true (Vec3 10 (- 190) 5) 720 (- 2) 4 0.1)
    as (H1 & H2 & _);
    [intros _; split; vm_compute; discriminate
    | intros _; split; vm_compute; discriminate
    | vm_compute; discriminate |].
  split; [exact H1 | exact H2].
Defined.

End ShaderMotion.
